(** * Stale review request notifier: a shallow embedding and its properties

    The development follows [src/github_services.py] and [src/main.py].
    Python code that raises is modelled by an outcome type, the module
    level token, the sequence of HTTP requests and the clock by an explicit
    state, and the remote side (GitHub REST and GraphQL answers, the
    template file, the clock readings) by a record of functions. *)

From Stdlib Require Import ZArith List String Ascii Bool Lia Arith.
From Stdlib Require Import DecimalString.
Import ListNotations.

Local Open Scope string_scope.
Local Open Scope Z_scope.

(** ** Exceptions and outcomes *)

(** The exceptions the modelled code can raise.  [UnboundLocalError] is the
    subclass of [NameError] Python raises when a local name is read before
    it was bound. *)
Inductive exn : Type :=
| BaseException (msg : string)
| UnboundLocalError (name : string)
| TypeError
| KeyError (key : string)
| ParserError
| OverflowError
| HTTPError
| ReError.

Definition isinstance_NameError (e : exn) : bool :=
  match e with
  | UnboundLocalError _ => true
  | _ => false
  end.

(** Outcome of a computation: a value, a raised exception, or [Diverge]
    when a [while True] loop was still running after the given number of
    iterations. *)
Inductive res (A : Type) : Type :=
| Ret (a : A)
| Raise (e : exn)
| Diverge.
Arguments Ret {A} a.
Arguments Raise {A} e.
Arguments Diverge {A}.

Definition res_bind {A B} (r : res A) (k : A -> res B) : res B :=
  match r with
  | Ret a => k a
  | Raise e => Raise e
  | Diverge => Diverge
  end.

(** ** Wire data *)

(** An element of [pr_dict['assignees']]: the [login] key of the REST
    answer and the [created_at] key that timeline correlation adds. *)
Record assignee_dict : Type := mk_assignee_dict {
  ad_login : string;
  ad_created_at : option Z
}.

(** A pull request object of the REST listing, with the keys the code
    reads: [number], [html_url], [title], [user.login], [assignees]. *)
Record pr_dict : Type := mk_pr_dict {
  pd_html_url : string;
  pd_number : Z;
  pd_title : string;
  pd_user_login : string;
  pd_assignees : list assignee_dict
}.

(** A timeline event.  Only the [event] key is present on every event;
    [assignee.login] and [created_at] are read on demand and their absence
    is a [KeyError]. *)
Record event : Type := mk_event {
  ev_event : string;
  ev_assignee_login : option string;
  ev_created_at : option string
}.

(** A node of [discussionCategories]. *)
Record category : Type := mk_category {
  cat_id : string;
  cat_name : string
}.

(** ** Domain objects *)

(** Modelled from the spec: [github_domain.Assignee] is not among the
    sources.  Section 3 of the specification gives it a username and an
    assigned-on timestamp that is present only when a matching event was
    found.  Instants are microseconds since the epoch. *)
Record Assignee : Type := mk_Assignee {
  username : string;
  assigned_on_timestamp : option Z
}.

(** Modelled from the spec: [github_domain.PullRequest] is not among the
    sources.  Section 3 lists url, number, author username, title and the
    ordered sequence of assignees. *)
Record PullRequest : Type := mk_PullRequest {
  url : string;
  pr_number : Z;
  author_username : string;
  title : string;
  assignees : list Assignee
}.

(** Modelled from the spec: [PullRequest.from_github_response] is not among
    the sources.  It builds the domain object from the wire dictionary
    (section 6 names the keys); an assignee without [created_at] keeps no
    timestamp (section 4.2). *)
Definition from_github_response (d : pr_dict) : PullRequest :=
  {| url := pd_html_url d;
     pr_number := pd_number d;
     author_username := pd_user_login d;
     title := pd_title d;
     assignees :=
       map (fun a => mk_Assignee (ad_login a) (ad_created_at a))
           (pd_assignees d) |}.

(** Modelled from the spec: [PullRequest.is_reviewer_assigned] (section
    4.1): true iff the assignee sequence is non-empty. *)
Definition is_reviewer_assigned (p : PullRequest) : bool :=
  negb (Nat.eqb (List.length (assignees p)) 0).

(** Modelled from the spec: [PullRequest.get_assignee] (section 4.1): the
    first assignee whose username matches, else absent. *)
Definition get_assignee (p : PullRequest) (user : string) : option Assignee :=
  find (fun a => String.eqb (username a) user) (assignees p).

(** ** The remote side *)

(** One HTTP request, as the code issues it: the repository or the ids it
    names and its paging parameters.  The constant [status] parameter of
    the pull request listing, the headers and the timeout are left out. *)
Inductive call : Type :=
| GetPulls (org repo : string) (page per_page : nat)
| GetTimeline (org repo : string) (number : Z) (page per_page : nat)
| PostRepositoryQuery (org repo : string)
| PostCategoryQuery (org repo : string)
| PostDiscussionsQuery (org repo category_id : string)
| PostDeleteDiscussion (discussion_id : string)
| PostCreateDiscussion (repo_id category_id title body : string).

(** Answers of the environment.  A listing answer of [None] is a non-2xx
    status, on which [raise_for_status] raises.  GraphQL answers of [None]
    stand for a [null] repository.  The remote is taken as stable during a
    run: an answer depends on the request only. *)
Record World : Type := mk_World {
  (* k-th reading of datetime.now(timezone.utc) *)
  w_now : nat -> Z;
  w_pulls : string -> string -> nat -> option (list pr_dict);
  w_timeline : string -> string -> Z -> nat -> option (list event);
  (* dateutil's parser.parse, None for a string it rejects *)
  w_parse : string -> option Z;
  w_categories : string -> string -> option (list category);
  w_repository_id : string -> string -> option (option string);
  w_discussions : string -> string -> string -> option (list (option string));
  w_delete_ok : string -> bool;
  w_create_ok : string -> string -> string -> string -> bool;
  (* contents of a file, None when the path does not exist *)
  w_file : string -> option string;
  (* expansion of a replacement text that contains a backslash by the
     regular expression engine: None for a rejected template, else the
     text inserted for a given match *)
  w_re_template : string -> option (string -> string);
  (* the waiting-time phrase of an elapsed duration *)
  w_waiting_phrase : Z -> string
}.

(** ** State *)

(** [_TOKEN], the requests issued so far (oldest first) and the number of
    clock readings taken so far. *)
Record State : Type := mk_State {
  st_token : option string;
  st_calls : list call;
  st_clock : nat
}.

Definition M (A : Type) : Type := State -> res A * State.

Definition ret {A} (a : A) : M A := fun s => (Ret a, s).
Definition raise {A} (e : exn) : M A := fun s => (Raise e, s).
Definition diverge {A} : M A := fun s => (Diverge, s).

Definition bind {A B} (m : M A) (k : A -> M B) : M B :=
  fun s =>
    match m s with
    | (Ret a, s') => k a s'
    | (Raise e, s') => (Raise e, s')
    | (Diverge, s') => (Diverge, s')
    end.

Definition lift {A} (r : res A) : M A := fun s => (r, s).

Notation "x <- m ;; k" := (bind m (fun x => k))
  (at level 100, m at next level, right associativity).
Notation "m ;;; k" := (bind m (fun _ => k))
  (at level 100, right associativity).

Definition request (c : call) : M unit :=
  fun s => (Ret tt, mk_State (st_token s) (st_calls s ++ [c]) (st_clock s)).

(** [datetime.datetime.now(datetime.timezone.utc)] *)
Definition now (w : World) : M Z :=
  fun s => (Ret (w_now w (st_clock s)),
            mk_State (st_token s) (st_calls s) (S (st_clock s))).

(** ** github_services.py *)

Definition TIMEOUT_SECS : Z := 15.

(** [init_service] *)
Definition init_service (token : option string) : M unit :=
  match token with
  | None => raise (BaseException "Must provide a valid GitHub Personal Access Token.")
  | Some t =>
      if String.eqb t ""
      then raise (BaseException "Must provide a valid GitHub Personal Access Token.")
      else fun s => (Ret tt, mk_State (Some t) (st_calls s) (st_clock s))
  end.

(** The [check_token] decorator. *)
Definition check_token {A} (func : M A) : M A :=
  fun s =>
    match st_token s with
    | None =>
        (Raise (BaseException
           "Initialize the service with github_services.init_service(TOKEN)."), s)
    | Some _ => func s
    end.

(** [get_pull_request_dict_with_timestamp]: the loop over
    [pr_dict['assignees']].  [event['assignee']['login']] is evaluated once
    per assignee, [event['created_at']] only on a match. *)
Fixpoint stamp_assignees (w : World) (ev : event) (l : list assignee_dict)
  : res (list assignee_dict) :=
  match l with
  | [] => Ret []
  | a :: rest =>
      match ev_assignee_login ev with
      | None => Raise (KeyError "assignee")
      | Some login =>
          if String.eqb login (ad_login a) then
            match ev_created_at ev with
            | None => Raise (KeyError "created_at")
            | Some txt =>
                match w_parse w txt with
                | None => Raise ParserError
                | Some t =>
                    res_bind (stamp_assignees w ev rest) (fun rest' =>
                    Ret (mk_assignee_dict (ad_login a) (Some t) :: rest'))
                end
            end
          else
            res_bind (stamp_assignees w ev rest) (fun rest' => Ret (a :: rest'))
      end
  end.

Definition get_pull_request_dict_with_timestamp (w : World)
  (d : pr_dict) (ev : event) : res pr_dict :=
  res_bind (stamp_assignees w ev (pd_assignees d)) (fun l =>
  Ret (mk_pr_dict (pd_html_url d) (pd_number d) (pd_title d)
                  (pd_user_login d) l)).

(** The body of [for event in timeline_subset].  The dictionary is mutated
    in place and [updated_pr_dict] is an alias of it, so the loop state is
    the dictionary and whether the name [updated_pr_dict] is bound. *)
Fixpoint process_events (w : World) (evs : list event)
  (st : pr_dict * bool) : res (pr_dict * bool) :=
  match evs with
  | [] => Ret st
  | ev :: rest =>
      if negb (String.eqb (ev_event ev) "assigned") then
        process_events w rest st
      else
        res_bind (get_pull_request_dict_with_timestamp w (fst st) ev)
          (fun d' => process_events w rest (d', true))
  end.

(** The [while True] loop of [get_pull_request_object_from_dict]. *)
Fixpoint timeline_loop (w : World) (org repo : string) (pr_number : Z)
  (fuel : nat) (page_number : nat) (st : pr_dict * bool)
  : M (pr_dict * bool) :=
  match fuel with
  | O => diverge
  | S fuel' =>
      request (GetTimeline org repo pr_number page_number 100) ;;;
      match w_timeline w org repo pr_number page_number with
      | None => raise HTTPError
      | Some timeline_subset =>
          if Nat.eqb (List.length timeline_subset) 0 then ret st
          else
            st' <- lift (process_events w timeline_subset st) ;;
            timeline_loop w org repo pr_number fuel' (S page_number) st'
      end
  end.

(** [get_pull_request_object_from_dict] *)
Definition get_pull_request_object_from_dict (w : World) (fuel : nat)
  (org repo : string) (d : pr_dict) : M PullRequest :=
  check_token (
    st <- timeline_loop w org repo (pd_number d) fuel 1%nat (d, false) ;;
    if snd st then ret (from_github_response (fst st))
    else raise (UnboundLocalError "updated_pr_dict")).

(** [reviewer_to_assigned_prs], a [defaultdict(list)]: keys in insertion
    order, as [items()] later enumerates them. *)
Definition overdue_map : Type := list (string * list PullRequest).

(** [m[k].append(p)] *)
Fixpoint dd_append (m : overdue_map) (k : string) (p : PullRequest)
  : overdue_map :=
  match m with
  | [] => [(k, [p])]
  | (k', l) :: rest =>
      if String.eqb k' k then (k', (l ++ [p])%list) :: rest
      else (k', l) :: dd_append rest k p
  end.

Fixpoint dd_get (m : overdue_map) (k : string) : list PullRequest :=
  match m with
  | [] => []
  | (k', l) :: rest => if String.eqb k' k then l else dd_get rest k
  end.

Definition MICROSECONDS_PER_HOUR : Z := 3600000000.

(** [datetime.timedelta(hours=h)] in microseconds.  [None] is not a number;
    a duration whose day count leaves [-999999999, 999999999] overflows. *)
Definition timedelta_hours (h : option Z) : res Z :=
  match h with
  | None => Raise TypeError
  | Some h =>
      if (-999999999 <=? h / 24) && (h / 24 <=? 999999999)
      then Ret (h * MICROSECONDS_PER_HOUR)
      else Raise OverflowError
  end.

(** [now - reviewer.assigned_on_timestamp]; subtracting [None] is a
    [TypeError]. *)
Definition pending_review_time (t : Z) (reviewer : Assignee) : res Z :=
  match assigned_on_timestamp reviewer with
  | None => Raise TypeError
  | Some ts => Ret (t - ts)
  end.

(** Body of [for reviewer in pull_request.assignees]. *)
Definition review_step (w : World) (max_waiting_time_in_hours : option Z)
  (p : PullRequest) (reviewer : Assignee) (m : overdue_map) : M overdue_map :=
  t <- now w ;;
  pending <- lift (pending_review_time t reviewer) ;;
  if negb (String.eqb (username reviewer) (author_username p)) then
    threshold <- lift (timedelta_hours max_waiting_time_in_hours) ;;
    if pending >=? threshold
    then ret (dd_append m (username reviewer) p)
    else ret m
  else ret m.

Fixpoint scan_reviewers (w : World) (h : option Z) (p : PullRequest)
  (reviewers : list Assignee) (m : overdue_map) : M overdue_map :=
  match reviewers with
  | [] => ret m
  | reviewer :: rest =>
      m' <- review_step w h p reviewer m ;;
      scan_reviewers w h p rest m'
  end.

(** Body of [for pull_request in pull_requests]. *)
Fixpoint scan_pull_requests (w : World) (h : option Z)
  (prs : list PullRequest) (m : overdue_map) : M overdue_map :=
  match prs with
  | [] => ret m
  | p :: rest =>
      if negb (is_reviewer_assigned p) then scan_pull_requests w h rest m
      else
        m' <- scan_reviewers w h p (assignees p) m ;;
        scan_pull_requests w h rest m'
  end.

(** The list comprehension over [pr_subset]. *)
Fixpoint convert_all (w : World) (fuel : nat) (org repo : string)
  (ds : list pr_dict) : M (list PullRequest) :=
  match ds with
  | [] => ret []
  | d :: rest =>
      p <- get_pull_request_object_from_dict w fuel org repo d ;;
      ps <- convert_all w fuel org repo rest ;;
      ret (p :: ps)
  end.

(** The [while True] loop of [get_prs_assigned_to_reviewers].  [inner]
    bounds the timeline loops of the pull requests of a page. *)
Fixpoint pulls_loop (w : World) (org repo : string) (h : option Z)
  (inner fuel : nat) (page_number : nat) (m : overdue_map) : M overdue_map :=
  match fuel with
  | O => diverge
  | S fuel' =>
      request (GetPulls org repo page_number 100) ;;;
      match w_pulls w org repo page_number with
      | None => raise HTTPError
      | Some pr_subset =>
          if Nat.eqb (List.length pr_subset) 0 then ret m
          else
            pull_requests <- convert_all w inner org repo pr_subset ;;
            m' <- scan_pull_requests w h pull_requests m ;;
            pulls_loop w org repo h inner fuel' (S page_number) m'
      end
  end.

(** [get_prs_assigned_to_reviewers] *)
Definition get_prs_assigned_to_reviewers (w : World) (fuel : nat)
  (org_name repo_name : string) (max_waiting_time_in_hours : option Z)
  : M overdue_map :=
  check_token
    (pulls_loop w org_name repo_name max_waiting_time_in_hours
                fuel fuel 1%nat []).

(** [_get_repository_id].  A [null] repository makes the subscript
    [data['data']['repository']['id']] a [TypeError]. *)
Definition _get_repository_id (w : World) (org_name repo_name : string)
  : M string :=
  check_token (
    request (PostRepositoryQuery org_name repo_name) ;;;
    match w_repository_id w org_name repo_name with
    | None => raise TypeError
    | Some None =>
        raise (BaseException (org_name ++ "/" ++ repo_name ++ " doesn't exist."))
    | Some (Some repository_id) => ret repository_id
    end).

(** [str(x)] of an optional string inside an f-string. *)
Definition py_str (x : option string) : string :=
  match x with
  | None => "None"
  | Some s => s
  end.

(** [category['name'] == discussion_category], where the right side is
    [None] when the option was not given on the command line. *)
Definition name_equals (name : string) (discussion_category : option string)
  : bool :=
  match discussion_category with
  | None => false
  | Some c => String.eqb name c
  end.

(** The [for category in discussion_categories] loop with its [break]. *)
Fixpoint find_category_id (discussion_categories : list category)
  (discussion_category : option string) : option string :=
  match discussion_categories with
  | [] => None
  | c :: rest =>
      if name_equals (cat_name c) discussion_category then Some (cat_id c)
      else find_category_id rest discussion_category
  end.

(** [_get_category_id] *)
Definition _get_category_id (w : World) (org_name repo_name : string)
  (discussion_category : option string) : M string :=
  check_token (
    request (PostCategoryQuery org_name repo_name) ;;;
    match w_categories w org_name repo_name with
    | None => raise TypeError
    | Some discussion_categories =>
        match find_category_id discussion_categories discussion_category with
        | None =>
            raise (BaseException
              (py_str discussion_category ++
               " category is missing in GitHub Discussion."))
        | Some category_id => ret category_id
        end
    end).

(** The comprehension keeping the ids that are not [None]. *)
Fixpoint keep_ids (nodes : list (option string)) : list string :=
  match nodes with
  | [] => []
  | Some i :: rest => i :: keep_ids rest
  | None :: rest => keep_ids rest
  end.

(** [_get_discussion_ids] *)
Definition _get_discussion_ids (w : World) (org_name repo_name : string)
  (discussion_category : option string) : M (list string) :=
  check_token (
    category_id <- _get_category_id w org_name repo_name discussion_category ;;
    request (PostDiscussionsQuery org_name repo_name category_id) ;;;
    match w_discussions w org_name repo_name category_id with
    | None => raise TypeError
    | Some discussions => ret (keep_ids discussions)
    end).

(** [_delete_discussion] (not decorated with [check_token]). *)
Definition _delete_discussion (w : World) (discussion_id : string) : M unit :=
  request (PostDeleteDiscussion discussion_id) ;;;
  if w_delete_ok w discussion_id then ret tt else raise HTTPError.

Fixpoint delete_each (w : World) (discussion_ids : list string) : M unit :=
  match discussion_ids with
  | [] => ret tt
  | i :: rest => _delete_discussion w i ;;; delete_each w rest
  end.

(** [delete_discussions] *)
Definition delete_discussions (w : World) (org_name repo_name : string)
  (discussion_category : option string) : M unit :=
  check_token (
    discussion_ids <-
      _get_discussion_ids w org_name repo_name discussion_category ;;
    delete_each w discussion_ids).

(** [create_discussion] *)
Definition create_discussion (w : World) (org_name repo_name : string)
  (discussion_category : option string)
  (discussion_title discussion_body : string) : M unit :=
  check_token (
    category_id <- _get_category_id w org_name repo_name discussion_category ;;
    repo_id <- _get_repository_id w org_name repo_name ;;
    request (PostCreateDiscussion repo_id category_id
                                  discussion_title discussion_body) ;;;
    if w_create_ok w repo_id category_id discussion_title discussion_body
    then ret tt else raise HTTPError).

(** ** main.py *)

Definition TEMPLATE_PATH : string :=
  ".github/PENDING_REVIEW_NOTIFICATION_TEMPLATE.md".

Definition SPACE : ascii := ascii_of_nat 32.
Definition BACKSLASH : ascii := ascii_of_nat 92.
Definition NEWLINE : string := String (ascii_of_nat 10) EmptyString.

(** [str(n)] for an integer. *)
Definition string_of_Z (n : Z) : string := NilZero.string_of_int (Z.to_int n).

Fixpoint spaces (n : nat) : string :=
  match n with
  | O => EmptyString
  | S k => String SPACE (spaces k)
  end.

Fixpoint has_backslash (s : string) : bool :=
  match s with
  | EmptyString => false
  | String c r => if Ascii.eqb c BACKSLASH then true else has_backslash r
  end.

(** What the regular expression [ *] consumes: the longest run of space
    characters, returned as its length and the remainder. *)
Fixpoint skip_spaces (s : string) : nat * string :=
  match s with
  | String c r =>
      if Ascii.eqb c SPACE
      then let (n, r') := skip_spaces r in (S n, r')
      else (O, s)
  | EmptyString => (O, s)
  end.

Fixpoint strip_prefix (p s : string) : option string :=
  match p with
  | EmptyString => Some s
  | String a p' =>
      match s with
      | String b s' => if Ascii.eqb a b then strip_prefix p' s' else None
      | EmptyString => None
      end
  end.

(** A match of [\{\{ *name *\}\}] at the start of [s]: the matched text
    and what follows it. *)
Definition match_token (name s : string) : option (string * string) :=
  match strip_prefix "{{" s with
  | None => None
  | Some r1 =>
      let (i, r2) := skip_spaces r1 in
      match strip_prefix name r2 with
      | None => None
      | Some r3 =>
          let (j, r4) := skip_spaces r3 in
          match strip_prefix "}}" r4 with
          | None => None
          | Some r5 =>
              Some ("{{" ++ spaces i ++ name ++ spaces j ++ "}}", r5)
          end
      end
  end.

(** The scan of [re.sub]: at each position the leftmost match is replaced
    and the scan resumes after it; [skip] counts the characters of the
    current match still to be passed over. *)
Fixpoint sub_scan (name : string) (f : string -> string) (skip : nat)
  (s : string) : string :=
  match s with
  | EmptyString => EmptyString
  | String c r =>
      match skip with
      | S k => sub_scan name f k r
      | O =>
          match match_token name s with
          | Some (tok, _) =>
              f tok ++ sub_scan name f (String.length tok - 1) r
          | None => String c (sub_scan name f O r)
          end
      end
  end.

(** [re.sub(r'\{\{ *name *\}\}', repl, s)].  A replacement text without
    backslash is inserted as it is; one with a backslash is first expanded
    by the engine. *)
Definition re_sub (w : World) (name repl s : string) : res string :=
  if has_backslash repl then
    match w_re_template w repl with
    | None => Raise ReError
    | Some f => Ret (sub_scan name f O s)
    end
  else Ret (sub_scan name (fun _ => repl) O s).

(** Modelled from the spec: [Assignee.get_waiting_time] is not among the
    sources.  Section 4.4 describes a phrase derived from the elapsed
    duration at render time; the phrase itself is [w_waiting_phrase]. *)
Definition get_waiting_time (w : World) (a : Assignee) : M string :=
  t <- now w ;;
  elapsed <- lift (pending_review_time t a) ;;
  ret (w_waiting_phrase w elapsed).

(** The f-string appended to [pr_list_messages]. *)
Definition pr_line (p : PullRequest) (waiting : string) : string :=
  "- [#" ++ string_of_Z (pr_number p) ++ "](" ++ url p ++
  ") [Waiting for the last " ++ waiting ++ "]".

(** The first loop of [generate_message]. *)
Fixpoint pr_list_messages (w : World) (user : string)
  (pull_requests : list PullRequest) : M (list string) :=
  match pull_requests with
  | [] => ret []
  | p :: rest =>
      match get_assignee p user with
      | Some a =>
          waiting <- get_waiting_time w a ;;
          ls <- pr_list_messages w user rest ;;
          ret (pr_line p waiting :: ls)
      | None => pr_list_messages w user rest
      end
  end.

(** [generate_message] *)
Definition generate_message (w : World) (user : string)
  (pull_requests : list PullRequest) (template_path : string) : M string :=
  ls <- pr_list_messages w user pull_requests ;;
  match w_file w template_path with
  | None =>
      raise (BaseException ("Please add a template file at: " ++ template_path))
  | Some message =>
      message1 <- lift (re_sub w "username" user message) ;;
      message2 <- lift (re_sub w "pr_list" (String.concat NEWLINE ls) message1) ;;
      ret message2
  end.

(** The namespace returned by [PARSER.parse_args]: every option is
    optional, an absent one is [None]. *)
Record parsed_args : Type := mk_parsed_args {
  pa_token : option string;
  pa_repo : option string;
  pa_category : option string;
  pa_title : option string;
  pa_max_wait_hours : option Z;
  pa_verbose : bool
}.

Definition required_args : list string :=
  ["max_wait_hours"; "discussion_category"].

(** [arg is None] where [arg] is an element of [required_args], a string
    object. *)
Definition str_is_None (arg : string) : bool := false.

(** The loop over [required_args]. *)
Fixpoint check_required (args : list string) : M unit :=
  match args with
  | [] => ret tt
  | arg :: rest =>
      if str_is_None arg
      then raise (BaseException ("Please provide " ++ arg ++ " argument."))
      else check_required rest
  end.

(** The loop over [reviewer_to_assigned_prs.items()]. *)
Fixpoint notify_each (w : World) (org_name repo_name : string)
  (discussion_category : option string) (items : overdue_map) : M unit :=
  match items with
  | [] => ret tt
  | (reviewer_name, pr_list) :: rest =>
      let discussion_title := "Pending Reviews: @" ++ reviewer_name in
      discussion_body <-
        generate_message w reviewer_name pr_list TEMPLATE_PATH ;;
      create_discussion w org_name repo_name discussion_category
                        discussion_title discussion_body ;;;
      notify_each w org_name repo_name discussion_category rest
  end.

(** [main], from the parsed arguments on.  The logging set up under
    [--verbose] has no effect on the run and is left out. *)
Definition main (w : World) (fuel : nat) (args : parsed_args) : M unit :=
  let org_name := "oppia" in
  let repo_name := "oppia" in
  let discussion_category := pa_category args in
  let max_wait_hours := pa_max_wait_hours args in
  check_required required_args ;;;
  init_service (pa_token args) ;;;
  reviewer_to_assigned_prs <-
    get_prs_assigned_to_reviewers w fuel org_name repo_name max_wait_hours ;;
  let org_name := "SD-13" in
  let repo_name := "test-pending-review-notifier" in
  delete_discussions w org_name repo_name discussion_category ;;;
  notify_each w org_name repo_name discussion_category
              reviewer_to_assigned_prs.

(** * Vocabulary of the statements *)

Local Open Scope list_scope.

(** [paginated_from f p pages]: the listing [f] answers the non-empty
    lists [pages] for page numbers [p], [p+1], ... and an empty list for
    the page after them. *)
Fixpoint paginated_from {A} (f : nat -> option (list A)) (p : nat)
  (pages : list (list A)) : Prop :=
  match pages with
  | [] => f p = Some []
  | pg :: rest => pg <> [] /\ f p = Some pg /\ paginated_from f (S p) rest
  end.

Definition paginated {A} (f : nat -> option (list A))
  (pages : list (list A)) : Prop :=
  paginated_from f 1%nat pages.

Definition add_calls (s : State) (cs : list call) : State :=
  mk_State (st_token s) (st_calls s ++ cs) (st_clock s).

Definition timeline_calls (org repo : string) (number : Z) (p n : nat)
  : list call :=
  map (fun k => GetTimeline org repo number k 100) (seq p n).

Definition pulls_calls (org repo : string) (p n : nat) : list call :=
  map (fun k => GetPulls org repo k 100) (seq p n).

Definition is_assigned (ev : event) : bool := String.eqb (ev_event ev) "assigned".

(** [ev] is an "assigned" event for [login]. *)
Definition event_login_is (login : string) (ev : event) : bool :=
  is_assigned ev &&
  match ev_assignee_login ev with
  | Some l => String.eqb l login
  | None => false
  end.

(** The last "assigned" event for [login] in processing order. *)
Definition last_assigned_event (evs : list event) (login : string)
  : option event :=
  find (event_login_is login) (rev evs).

Definition event_instant (w : World) (ev : event) : option Z :=
  match ev_created_at ev with
  | Some txt => w_parse w txt
  | None => None
  end.

(** An "assigned" event that carries a login and a creation time the
    parser accepts. *)
Definition well_formed_event (w : World) (ev : event) : Prop :=
  is_assigned ev = true ->
  exists login txt t,
    ev_assignee_login ev = Some login /\
    ev_created_at ev = Some txt /\ w_parse w txt = Some t.

(** The timestamp an assignee carries once [evs] were processed. *)
Definition recorded (w : World) (evs : list event) (a : assignee_dict)
  : option Z :=
  match last_assigned_event evs (ad_login a) with
  | Some ev => event_instant w ev
  | None => ad_created_at a
  end.

Definition record_all (w : World) (evs : list event) (d : pr_dict) : pr_dict :=
  mk_pr_dict (pd_html_url d) (pd_number d) (pd_title d) (pd_user_login d)
    (map (fun a => mk_assignee_dict (ad_login a) (recorded w evs a))
         (pd_assignees d)).

Definition stamp_one (w : World) (ev : event) (a : assignee_dict)
  : assignee_dict :=
  if event_login_is (ad_login a) ev
  then mk_assignee_dict (ad_login a) (event_instant w ev)
  else a.

(** The pull request object a timeline [evs] yields for the dictionary
    [d]: the events are processed in order and the object is built from
    [updated_pr_dict], which is unbound when no "assigned" event occurred. *)
Definition correlate (w : World) (evs : list event) (d : pr_dict)
  : res PullRequest :=
  res_bind (process_events w evs (d, false)) (fun st =>
  if snd st then Ret (from_github_response (fst st))
  else Raise (UnboundLocalError "updated_pr_dict")).

(** * Concrete runs *)

(** A listing that serves the given pages and empty pages after them. *)
Definition page_of {A} (pages : list (list A)) (n : nat) : option (list A) :=
  match n with
  | O => Some []
  | S k => Some (nth k pages [])
  end.

Fixpoint lookup {A} (tbl : list (string * A)) (k : string) : option A :=
  match tbl with
  | [] => None
  | (k', v) :: rest => if String.eqb k' k then Some v else lookup rest k
  end.

(** 2023-08-01T20:24:38Z *)
Definition ex_now : Z := 1690921478000000.

Definition ex_instants : list (string * Z) :=
  [ ("2023-07-30T12:24:38Z", 1690719878000000);   (* 56 hours before *)
    ("2023-07-31T21:24:38Z", 1690838678000000);   (* 23 hours before *)
    ("2023-07-31T22:24:38Z", 1690842278000000);   (* 22 hours before *)
    ("2023-08-01T00:24:38Z", 1690849478000000);   (* 20 hours before *)
    ("2023-08-01T00:24:39Z", 1690849479000000);   (* 20 hours less 1 s *)
    ("2023-08-01T01:24:38Z", 1690853078000000) ]. (* 19 hours before *)

Definition ex_created : event := mk_event "created" None None.

Definition ex_assigned (login txt : string) : event :=
  mk_event "assigned" (Some login) (Some txt).

Definition ex_pr (u : string) (n : Z) (t author : string)
  (logins : list string) : pr_dict :=
  mk_pr_dict u n t author (map (fun l => mk_assignee_dict l None) logins).

Definition ex_pr123 : pr_dict :=
  ex_pr "https://githuburl.pull/123" 123 "PR title 1" "authorName"
        ["reviewerName1"; "reviewerName2"].

Definition ex_pr234 : pr_dict :=
  ex_pr "https://githuburl.pull/234" 234 "PR title 2" "authorName"
        ["reviewerName1"; "reviewerName2"].

Definition ex_pr345 : pr_dict :=
  ex_pr "https://githuburl.pull/345" 345 "PR title 3" "authorName"
        ["reviewerName1"; "reviewerName2"; "authorName"].

Definition ex_pr456 : pr_dict :=
  ex_pr "https://githuburl.pull/456" 456 "PR title 4" "authorName"
        ["reviewerName1"; "reviewerName2"].

Definition ex_pr567 : pr_dict :=
  ex_pr "https://githuburl.pull/567" 567 "PR title 5" "authorName"
        ["reviewerName1"].

Definition ex_timeline1 : list event :=
  [ ex_created;
    ex_assigned "reviewerName1" "2023-07-31T22:24:38Z";
    ex_assigned "reviewerName2" "2023-07-30T12:24:38Z" ].

Definition ex_timeline2 : list event :=
  [ ex_created;
    ex_assigned "reviewerName1" "2023-07-31T21:24:38Z";
    ex_assigned "reviewerName2" "2023-08-01T01:24:38Z" ].

Definition ex_timeline3 : list event :=
  [ ex_assigned "reviewerName1" "2023-08-01T00:24:38Z";
    ex_assigned "reviewerName2" "2023-08-01T00:24:39Z";
    ex_assigned "authorName" "2023-07-30T12:24:38Z" ].

(** Two pages; reviewerName1 is assigned, unassigned and assigned again. *)
Definition ex_timeline4 : list (list event) :=
  [ [ ex_assigned "reviewerName1" "2023-07-30T12:24:38Z";
      ex_created;
      ex_assigned "reviewerName2" "2023-07-31T21:24:38Z" ];
    [ mk_event "unassigned" (Some "reviewerName1") (Some "2023-07-31T22:24:38Z");
      ex_assigned "reviewerName1" "2023-08-01T01:24:38Z" ] ].

Definition ex_timelines (number : Z) : list (list event) :=
  if number =? 123 then [ex_timeline1]
  else if number =? 234 then [ex_timeline2]
  else if number =? 345 then [ex_timeline3]
  else if number =? 456 then ex_timeline4
  else if number =? 567 then [[ex_created]]
  else [].

Definition ex_categories : list category :=
  [ mk_category "test_category_id_1" "test_category_name_1";
    mk_category "test_category_id_2" "test_category_name_2";
    mk_category "test_category_id_3" "test_category_name_1" ].

Definition ex_template : string :=
  ("{{ username }}" ++ NEWLINE ++ "{{ pr_list }}")%string.

(** A remote side serving the pull request pages [pulls], the timelines
    above, one existing discussion, and the template file [file]. *)
Definition ex_world (pulls : list (list pr_dict)) (file : option string)
  : World :=
  {| w_now := fun _ => ex_now;
     w_pulls := fun _ _ => page_of pulls;
     w_timeline := fun _ _ number => page_of (ex_timelines number);
     w_parse := lookup ex_instants;
     w_categories := fun _ _ => Some ex_categories;
     w_repository_id := fun _ _ => Some (Some "test_repository_id");
     w_discussions := fun _ _ _ => Some [Some "test_discussion_id_1"];
     w_delete_ok := fun _ => true;
     w_create_ok := fun _ _ _ _ => true;
     w_file := fun path =>
       if String.eqb path TEMPLATE_PATH then file else None;
     w_re_template := fun _ => None;
     w_waiting_phrase := fun elapsed =>
       (string_of_Z (elapsed / MICROSECONDS_PER_HOUR) ++ " hours")%string |}.

Definition ex_state : State := mk_State (Some "my_github_token") [] 0.

(** ** Reading a request sequence *)

(** Page number and page size of the pull request listings in [cs]. *)
Definition pulls_requested (cs : list call) : list (nat * nat) :=
  flat_map (fun c =>
    match c with
    | GetPulls _ _ page per_page => [(page, per_page)]
    | _ => []
    end) cs.


(** The pull requests whose timeline fetch was begun in [cs], in order:
    one entry per request of a first timeline page. *)
Definition converted (cs : list call) : list Z :=
  flat_map (fun c =>
    match c with
    | GetTimeline _ _ n (S O) _ => [n]
    | _ => []
    end) cs.

(** The pages [p, p+1, ..., p+n-1], each of size 100. *)
Definition ascending_pages (p n : nat) : list (nat * nat) :=
  map (fun k => (k, 100%nat)) (seq p n).

(** The conversion and filtering of one page of the pull request
    listing. *)
Definition process_page (w : World) (org repo : string) (h : option Z)
  (inner : nat) (pr_subset : list pr_dict) (m : overdue_map) : M overdue_map :=
  pull_requests <- convert_all w inner org repo pr_subset ;;
  scan_pull_requests w h pull_requests m.

(** Request page [p], process it, request the next one, ..., and stop
    after the request that follows the last page of [pages]. *)
Fixpoint fetch_pages (w : World) (org repo : string) (h : option Z)
  (inner : nat) (p : nat) (pages : list (list pr_dict)) (m : overdue_map)
  : M overdue_map :=
  request (GetPulls org repo p 100) ;;;
  match pages with
  | [] => ret m
  | pg :: rest =>
      m' <- process_page w org repo h inner pg m ;;
      fetch_pages w org repo h inner (S p) rest m'
  end.

(** ** The staleness filter *)

(** The (pull request, assignee) pairs in the order the filter visits
    them. *)
Definition all_pairs (prs : list PullRequest)
  : list (PullRequest * Assignee) :=
  flat_map (fun p => map (pair p) (assignees p)) prs.

(** The filter as one loop over the pairs. *)
Fixpoint scan_pairs (w : World) (h : option Z)
  (pairs : list (PullRequest * Assignee)) (m : overdue_map) : M overdue_map :=
  match pairs with
  | [] => ret m
  | (p, a) :: rest =>
      m' <- review_step w h p a m ;;
      scan_pairs w h rest m'
  end.

(** The decision taken for the pair visited at clock reading [k]. *)
Definition overdue (w : World) (hours : Z) (k : nat)
  (pa : PullRequest * Assignee) : bool :=
  negb (String.eqb (username (snd pa)) (author_username (fst pa))) &&
  match assigned_on_timestamp (snd pa) with
  | Some ts => w_now w k - ts >=? hours * MICROSECONDS_PER_HOUR
  | None => false
  end.

(** The map after the pairs were visited from clock reading [k] on. *)
Fixpoint scan_result (w : World) (hours : Z) (k : nat)
  (pairs : list (PullRequest * Assignee)) (m : overdue_map) : overdue_map :=
  match pairs with
  | [] => m
  | pa :: rest =>
      scan_result w hours (S k) rest
        (if overdue w hours k pa
         then dd_append m (username (snd pa)) (fst pa) else m)
  end.

Definition has_timestamp (a : Assignee) : Prop :=
  assigned_on_timestamp a <> None.

(** [d] has a finite timeline, fetched within [n] iterations, from which
    correlation yields [p]. *)
Definition converts_within (n : nat) (w : World) (org repo : string)
  (d : pr_dict) (p : PullRequest) : Prop :=
  exists tpages,
    (List.length tpages < n)%nat /\
    paginated (w_timeline w org repo (pd_number d)) tpages /\
    correlate w (List.concat tpages) d = Ret p.

Definition converts (w : World) (org repo : string)
  (d : pr_dict) (p : PullRequest) : Prop :=
  exists n, converts_within n w org repo d p.

(** A duration in hours that [datetime.timedelta] can represent. *)
Definition representable_hours (hours : Z) : Prop :=
  -999999999 <= hours / 24 <= 999999999.

(** The pull request object the example timelines yield for [d]. *)
Definition ex_pull_request (d : pr_dict) : PullRequest :=
  match correlate (ex_world [] None)
                  (List.concat (ex_timelines (pd_number d))) d with
  | Ret p => p
  | _ => from_github_response d
  end.

(** The timeline of [d] reaches an empty page within [n] requests. *)
Definition timeline_ends_within (n : nat) (w : World) (org repo : string)
  (d : pr_dict) : Prop :=
  exists tpages,
    (List.length tpages < n)%nat /\
    paginated (w_timeline w org repo (pd_number d)) tpages.

Definition ex_pr789 : pr_dict :=
  ex_pr "https://githuburl.pull/789" 789 "PR title 6" "authorName"
        ["reviewerName1"; "reviewerName3"].

(** A remote side like [ex_world] on which pull request 789 has one
    "assigned" event, for reviewerName1 only. *)
Definition ex_world_unmatched : World :=
  let w := ex_world [[ex_pr789]] None in
  {| w_now := w_now w;
     w_pulls := w_pulls w;
     w_timeline := fun _ _ number =>
       page_of (if number =? 789
                then [[ex_created;
                       ex_assigned "reviewerName1" "2023-07-30T12:24:38Z"]]
                else []);
     w_parse := w_parse w;
     w_categories := w_categories w;
     w_repository_id := w_repository_id w;
     w_discussions := w_discussions w;
     w_delete_ok := w_delete_ok w;
     w_create_ok := w_create_ok w;
     w_file := w_file w;
     w_re_template := w_re_template w;
     w_waiting_phrase := w_waiting_phrase w |}.

(** The fatal error of [_get_category_id]. *)
Definition category_missing (name : string) : exn :=
  BaseException (name ++ " category is missing in GitHub Discussion.")%string.

(** ** Command lines *)

(** [--token githubTokenForApiRequest --repo orgName/repo --title title]:
    neither [--category] nor [--max-wait-hours] is given. *)
Definition ex_args_missing : parsed_args :=
  {| pa_token := Some "githubTokenForApiRequest";
     pa_repo := Some "orgName/repo";
     pa_category := None;
     pa_title := Some "title";
     pa_max_wait_hours := None;
     pa_verbose := false |}.

(** The command line of the integration test. *)
Definition ex_args : parsed_args :=
  {| pa_token := Some "githubTokenForApiRequest";
     pa_repo := Some "orgName/repo";
     pa_category := Some "test_category_name_1";
     pa_title := Some "title";
     pa_max_wait_hours := Some 20;
     pa_verbose := false |}.

(** The process before [init_service] ran. *)
Definition ex_initial : State := mk_State None [] 0.

(** ** Targets of the requests *)




(** Every request of [m] satisfies [P], and a returned value satisfies
    [Q]. *)
Definition emits {A} (P : call -> Prop) (Q : A -> Prop) (m : M A) : Prop :=
  forall s r s',
    m s = (r, s') ->
    exists cs,
      st_calls s' = st_calls s ++ cs /\ Forall P cs /\
      forall a, r = Ret a -> Q a.


(** ** The template *)


(** The requests of the deletion step. *)
Definition deletion_phase_call (c : call) : Prop :=
  match c with
  | PostCategoryQuery _ _ => True
  | PostDiscussionsQuery _ _ _ => True
  | PostDeleteDiscussion _ => True
  | _ => False
  end.


(** Every pull request listed in the map has a timestamp on each of its
    assignees. *)
Definition all_stamped (m : overdue_map) : Prop :=
  Forall (fun kv => Forall (fun p => Forall has_timestamp (assignees p))
                           (snd kv)) m.

(** ** Rendering *)

(** A placeholder as the template may spell it: the opening marker, [i]
    space characters, the name, [j] space characters, the closing
    marker. *)
Definition token (name : string) (i j : nat) : string :=
  ("{{" ++ spaces i ++ name ++ spaces j ++ "}}")%string.

(** The placeholder name begins with a character other than a space. *)
Definition starts_unspaced (name : string) : Prop :=
  match name with
  | String c _ => c <> SPACE
  | EmptyString => False
  end.


(** The lines of the pull requests on which [user] is an assignee, the
    first of them rendered at clock reading [k]. *)
Fixpoint rendered_lines (w : World) (user : string)
  (prs : list PullRequest) (k : nat) : list string :=
  match prs with
  | [] => []
  | p :: rest =>
      match get_assignee p user with
      | Some a =>
          match assigned_on_timestamp a with
          | Some ts =>
              pr_line p (w_waiting_phrase w (w_now w k - ts))
              :: rendered_lines w user rest (S k)
          | None => []
          end
      | None => rendered_lines w user rest k
      end
  end.

(** The number of pull requests of [prs] on which [user] is assigned. *)
Definition assigned_count (user : string) (prs : list PullRequest) : nat :=
  List.length (filter (fun p => match get_assignee p user with
                                | Some _ => true
                                | None => false
                                end) prs).


(** * Further vocabulary *)

(** The fatal error of the [check_token] decorator. *)
Definition not_initialized : exn :=
  BaseException
    "Initialize the service with github_services.init_service(TOKEN).".

(** The fatal error of [init_service]. *)
Definition invalid_token : exn :=
  BaseException "Must provide a valid GitHub Personal Access Token.".

(** The fatal error of [_get_repository_id]. *)
Definition repository_missing (org repo : string) : exn :=
  BaseException (org ++ "/" ++ repo ++ " doesn't exist.")%string.

(** Title and body of the creation requests in [cs], in order. *)
Definition created (cs : list call) : list (string * string) :=
  flat_map (fun c =>
    match c with
    | PostCreateDiscussion _ _ t b => [(t, b)]
    | _ => []
    end) cs.

(** The ids of the deletion requests in [cs], in order. *)
Definition deleted (cs : list call) : list string :=
  flat_map (fun c =>
    match c with
    | PostDeleteDiscussion i => [i]
    | _ => []
    end) cs.

(** The keys of the map in insertion order. *)
Definition keys (m : overdue_map) : list string := map fst m.

(** The keys are pairwise distinct and no key maps to an empty list. *)
Definition well_keyed (m : overdue_map) : Prop :=
  NoDup (keys m) /\ Forall (fun kv => snd kv <> []) m.

(** Every pull request listed under a key satisfies [Q] with that key. *)
Definition listed (Q : string -> PullRequest -> Prop) (m : overdue_map)
  : Prop :=
  Forall (fun kv => Forall (Q (fst kv)) (snd kv)) m.

(** [u] is the username of an assignee of [p] that carries a timestamp,
    and [u] is not the author of [p]. *)
Definition pending_for (u : string) (p : PullRequest) : Prop :=
  u <> author_username p /\
  exists a, In a (assignees p) /\ username a = u /\ has_timestamp a.

(** The pull requests the filter lists under [u] when it visits [pairs]
    from clock reading [k] on, in visiting order. *)
Fixpoint overdue_list (w : World) (hours : Z) (u : string) (k : nat)
  (pairs : list (PullRequest * Assignee)) : list PullRequest :=
  match pairs with
  | [] => []
  | pa :: rest =>
      if overdue w hours k pa && String.eqb (username (snd pa)) u
      then fst pa :: overdue_list w hours u (S k) rest
      else overdue_list w hours u (S k) rest
  end.

(** [user] is an assignee of [p]. *)
Definition assigned_to (user : string) (p : PullRequest) : bool :=
  match get_assignee p user with
  | Some _ => true
  | None => false
  end.

Fixpoint has_open_brace (s : string) : bool :=
  match s with
  | EmptyString => false
  | String c r => if Ascii.eqb c (ascii_of_nat 123) then true
                  else has_open_brace r
  end.

(** The dictionary [d'] differs from [d] at most in the [created_at] keys
    of its assignees. *)
Definition same_shape (d d' : pr_dict) : Prop :=
  pd_html_url d' = pd_html_url d /\
  pd_number d' = pd_number d /\
  pd_title d' = pd_title d /\
  pd_user_login d' = pd_user_login d /\
  map ad_login (pd_assignees d') = map ad_login (pd_assignees d).

(** The listing [f] answers the non-empty lists [pages] for the pages
    [p], [p+1], ... and a non-2xx status for the page after them. *)
Fixpoint failing_after {A} (f : nat -> option (list A)) (p : nat)
  (pages : list (list A)) : Prop :=
  match pages with
  | [] => f p = None
  | pg :: rest => pg <> [] /\ f p = Some pg /\ failing_after f (S p) rest
  end.

(** A remote side like [ex_world] whose timelines never end: every page
    holds one "created" event. *)
Definition ex_world_endless : World :=
  let w := ex_world [] None in
  {| w_now := w_now w;
     w_pulls := w_pulls w;
     w_timeline := fun _ _ _ _ => Some [ex_created];
     w_parse := w_parse w;
     w_categories := w_categories w;
     w_repository_id := w_repository_id w;
     w_discussions := w_discussions w;
     w_delete_ok := w_delete_ok w;
     w_create_ok := w_create_ok w;
     w_file := w_file w;
     w_re_template := w_re_template w;
     w_waiting_phrase := w_waiting_phrase w |}.

(** A remote side like [ex_world] on which the second timeline page of
    every pull request answers a non-2xx status, and on which deleting
    test_discussion_id_2 fails. *)
Definition ex_world_failing : World :=
  let w := ex_world [[ex_pr123]] None in
  {| w_now := w_now w;
     w_pulls := w_pulls w;
     w_timeline := fun _ _ _ page =>
       match page with
       | 1%nat => Some ex_timeline1
       | _ => None
       end;
     w_parse := w_parse w;
     w_categories := w_categories w;
     w_repository_id := w_repository_id w;
     w_discussions := fun _ _ _ =>
       Some [Some "test_discussion_id_1"; None;
             Some "test_discussion_id_2"; Some "test_discussion_id_3"];
     w_delete_ok := fun i => negb (String.eqb i "test_discussion_id_2");
     w_create_ok := w_create_ok w;
     w_file := w_file w;
     w_re_template := w_re_template w;
     w_waiting_phrase := w_waiting_phrase w |}.

(** The title [main] gives the discussion of a reviewer. *)
Definition discussion_title (reviewer_name : string) : string :=
  ("Pending Reviews: @" ++ reviewer_name)%string.

(** [tb] is the title and body of the discussion [main] creates for the
    map entry [kv]: the title names the reviewer and the body is a message
    [generate_message] returned for the reviewer and the listed pull
    requests. *)
Definition discussion_of (w : World) (kv : string * list PullRequest)
  (tb : string * string) : Prop :=
  fst tb = discussion_title (fst kv) /\
  exists s1 s2,
    generate_message w (fst kv) (snd kv) TEMPLATE_PATH s1 = (Ret (snd tb), s2).

(** The computation leaves [_TOKEN] as it found it, whatever its
    outcome. *)
Definition keeps_token {A} (m : M A) : Prop :=
  forall s r s', m s = (r, s') -> st_token s' = st_token s.

(** * Properties *)

(** ** Pagination *)

Lemma add_calls_nil s : add_calls s [] = s.
Proof. destruct s; unfold add_calls; simpl. now rewrite app_nil_r. Qed.

Lemma add_calls_app s a b : add_calls (add_calls s a) b = add_calls s (a ++ b).
Proof. unfold add_calls; simpl. now rewrite app_assoc. Qed.

Lemma length_zero_iff {A} (l : list A) :
  Nat.eqb (List.length l) 0 = true <-> l = [].
Proof. destruct l; simpl; split; intro H; congruence. Qed.

Lemma length_nonzero {A} (l : list A) :
  l <> [] -> Nat.eqb (List.length l) 0 = false.
Proof. destruct l; simpl; congruence. Qed.

Lemma process_events_app w l1 l2 st :
  process_events w (l1 ++ l2) st =
  res_bind (process_events w l1 st) (process_events w l2).
Proof.
  revert st. induction l1 as [|ev l1 IH]; intros st; simpl; [reflexivity|].
  destruct (negb (ev_event ev =? "assigned")%string); [apply IH|].
  destruct (get_pull_request_dict_with_timestamp w (fst st) ev); simpl; auto.
Qed.

Lemma stamp_assignees_no_diverge w ev l : stamp_assignees w ev l <> Diverge.
Proof.
  induction l as [|a l IH]; simpl; [discriminate|].
  destruct (ev_assignee_login ev); [|discriminate].
  destruct (String.eqb s (ad_login a)).
  - destruct (ev_created_at ev); [|discriminate].
    destruct (w_parse w s0); [|discriminate].
    destruct (stamp_assignees w ev l); simpl; congruence.
  - destruct (stamp_assignees w ev l); simpl; congruence.
Qed.

Lemma process_events_no_diverge w evs st : process_events w evs st <> Diverge.
Proof.
  revert st. induction evs as [|ev evs IH]; intros st; simpl; [discriminate|].
  destruct (negb (ev_event ev =? "assigned")%string); [apply IH|].
  unfold get_pull_request_dict_with_timestamp.
  pose proof (stamp_assignees_no_diverge w ev (pd_assignees (fst st))) as H.
  destruct (stamp_assignees w ev (pd_assignees (fst st))); simpl;
    [apply IH | discriminate | congruence].
Qed.

(** The timeline loop over a paginated listing: the events of all pages
    are handled as one sequence, and when none of them raises the requests
    are exactly those of the pages [p .. p + length pages]. *)
Lemma timeline_loop_paginated w org repo num pages :
  forall fuel p st s,
    paginated_from (w_timeline w org repo num) p pages ->
    (List.length pages < fuel)%nat ->
    (forall st', process_events w (List.concat pages) st = Ret st' ->
       timeline_loop w org repo num fuel p st s =
       (Ret st', add_calls s (timeline_calls org repo num p (S (List.length pages)))))
    /\
    (forall e, process_events w (List.concat pages) st = Raise e ->
       exists n, (n <= List.length pages)%nat /\
       timeline_loop w org repo num fuel p st s =
       (Raise e, add_calls s (timeline_calls org repo num p n))).
Proof.
  induction pages as [|pg rest IH]; intros fuel p st s Hp Hf.
  - simpl in Hp. destruct fuel as [|fuel]; [simpl in Hf; lia|].
    split.
    + intros st' H. simpl in H. injection H as <-.
      simpl. unfold bind, request. simpl. rewrite Hp. simpl. reflexivity.
    + intros e H. simpl in H. discriminate.
  - simpl in Hp. destruct Hp as (Hne & Hpg & Hrest).
    destruct fuel as [|fuel]; [simpl in Hf; lia|].
    simpl in Hf.
    assert (Hstep : forall k : pr_dict * bool -> M (pr_dict * bool),
       (request (GetTimeline org repo num p 100) ;;;
        match w_timeline w org repo num p with
        | None => raise HTTPError
        | Some timeline_subset =>
            if Nat.eqb (List.length timeline_subset) 0 then ret st
            else st' <- lift (process_events w timeline_subset st) ;; k st'
        end) s =
       match process_events w pg st with
       | Ret st' => k st' (add_calls s [GetTimeline org repo num p 100])
       | Raise e => (Raise e, add_calls s [GetTimeline org repo num p 100])
       | Diverge => (Diverge, add_calls s [GetTimeline org repo num p 100])
       end).
    { intros k. unfold bind at 1. unfold request. simpl.
      rewrite Hpg. rewrite (length_nonzero _ Hne).
      unfold bind, lift. simpl. unfold add_calls.
      destruct (process_events w pg st); reflexivity. }
    simpl List.concat. split.
    + intros st' H. rewrite process_events_app in H.
      simpl timeline_loop. rewrite Hstep.
      destruct (process_events w pg st) as [st1| |]; simpl in H; try discriminate.
      destruct (IH fuel (S p) st1 (add_calls s [GetTimeline org repo num p 100]) Hrest
                  ltac:(lia)) as [IH1 _].
      rewrite (IH1 _ H). rewrite add_calls_app. reflexivity.
    + intros e H. rewrite process_events_app in H.
      simpl timeline_loop. rewrite Hstep.
      destruct (process_events w pg st) as [st1|e1|]; simpl in H; try discriminate.
      * destruct (IH fuel (S p) st1 (add_calls s [GetTimeline org repo num p 100]) Hrest
                  ltac:(lia)) as [_ IH2].
        destruct (IH2 _ H) as (n & Hn & Heq).
        exists (S n). split; [simpl; lia|].
        rewrite Heq. rewrite add_calls_app. reflexivity.
      * injection H as <-. exists 1%nat. split; [simpl; lia|]. reflexivity.
Qed.

(** ** More iterations never change a finished run *)

Lemma timeline_loop_mono w org repo num fuel :
  forall fuel' p st s r s',
    timeline_loop w org repo num fuel p st s = (r, s') ->
    r <> Diverge -> (fuel <= fuel')%nat ->
    timeline_loop w org repo num fuel' p st s = (r, s').
Proof.
  induction fuel as [|fuel IH]; intros fuel' p st s r s' H Hr Hle.
  - simpl in H. unfold diverge in H. congruence.
  - destruct fuel' as [|fuel']; [lia|].
    simpl in *. unfold bind, request in *. simpl in *.
    destruct (w_timeline w org repo num p) as [subset|]; [|exact H].
    destruct (Nat.eqb (List.length subset) 0); [exact H|].
    unfold lift in *.
    destruct (process_events w subset st) as [st1|e|]; try exact H.
    apply IH; [exact H | exact Hr | lia].
Qed.

Lemma get_pull_request_object_from_dict_mono w fuel fuel' org repo d s r s' :
  get_pull_request_object_from_dict w fuel org repo d s = (r, s') ->
  r <> Diverge -> (fuel <= fuel')%nat ->
  get_pull_request_object_from_dict w fuel' org repo d s = (r, s').
Proof.
  unfold get_pull_request_object_from_dict, check_token. intros H Hr Hle.
  destruct (st_token s); [|exact H].
  unfold bind in *.
  destruct (timeline_loop w org repo (pd_number d) fuel 1 (d, false) s)
    as [r1 s1] eqn:E.
  assert (r1 <> Diverge) by (intro; subst r1; congruence).
  rewrite (timeline_loop_mono _ _ _ _ _ _ _ _ _ _ _ E H0 Hle). exact H.
Qed.

Lemma convert_all_mono w fuel fuel' org repo ds :
  forall s r s',
    convert_all w fuel org repo ds s = (r, s') ->
    r <> Diverge -> (fuel <= fuel')%nat ->
    convert_all w fuel' org repo ds s = (r, s').
Proof.
  induction ds as [|d ds IH]; intros s r s' H Hr Hle; [exact H|].
  simpl in *. unfold bind in *.
  destruct (get_pull_request_object_from_dict w fuel org repo d s)
    as [r1 s1] eqn:E.
  assert (r1 <> Diverge) by (intro; subst r1; congruence).
  rewrite (get_pull_request_object_from_dict_mono _ _ _ _ _ _ _ _ _ E H0 Hle).
  destruct r1 as [p| |]; try exact H.
  destruct (convert_all w fuel org repo ds s1) as [r2 s2] eqn:E2.
  assert (r2 <> Diverge) by (intro; subst r2; congruence).
  rewrite (IH _ _ _ E2 H1 Hle). exact H.
Qed.

Lemma pulls_loop_mono w org repo h inner inner' fuel :
  forall fuel' p m s r s',
    pulls_loop w org repo h inner fuel p m s = (r, s') ->
    r <> Diverge -> (inner <= inner')%nat -> (fuel <= fuel')%nat ->
    pulls_loop w org repo h inner' fuel' p m s = (r, s').
Proof.
  induction fuel as [|fuel IH]; intros fuel' p m s r s' H Hr Hi Hle.
  - simpl in H. unfold diverge in H. congruence.
  - destruct fuel' as [|fuel']; [lia|].
    simpl in *. unfold bind at 1. unfold bind at 1 in H.
    unfold request in *. simpl in *.
    destruct (w_pulls w org repo p) as [subset|]; [|exact H].
    destruct (Nat.eqb (List.length subset) 0); [exact H|].
    unfold bind at 1. unfold bind at 1 in H.
    destruct (convert_all w inner org repo subset _) as [r1 s1] eqn:E.
    assert (r1 <> Diverge) by (intro; subst r1; congruence).
    rewrite (convert_all_mono _ _ _ _ _ _ _ _ _ E H0 Hi).
    destruct r1 as [prs| |]; try exact H.
    unfold bind at 1. unfold bind at 1 in H.
    destruct (scan_pull_requests w h prs m s1) as [[m1| |] s2]; try exact H.
    apply IH; [exact H | exact Hr | exact Hi | lia].
Qed.

Lemma get_prs_assigned_to_reviewers_mono w fuel fuel' org repo h s r s' :
  get_prs_assigned_to_reviewers w fuel org repo h s = (r, s') ->
  r <> Diverge -> (fuel <= fuel')%nat ->
  get_prs_assigned_to_reviewers w fuel' org repo h s = (r, s').
Proof.
  unfold get_prs_assigned_to_reviewers, check_token. intros H Hr Hle.
  destruct (st_token s); [|exact H].
  eapply pulls_loop_mono; eauto.
Qed.

(** ** What a timeline records on the assignees *)

Lemma find_app_eq {A} (f : A -> bool) (l1 l2 : list A) :
  find f (l1 ++ l2) =
  match find f l1 with Some x => Some x | None => find f l2 end.
Proof.
  induction l1 as [|x l1 IH]; simpl; [reflexivity|].
  destruct (f x); [reflexivity | exact IH].
Qed.

Lemma stamp_assignees_well_formed w ev l :
  is_assigned ev = true -> well_formed_event w ev ->
  stamp_assignees w ev l = Ret (map (stamp_one w ev) l).
Proof.
  intros Ha Hwf. destruct (Hwf Ha) as (login & txt & t & Hl & Hc & Hp).
  induction l as [|a l IH]; simpl; [reflexivity|].
  assert (Hone : stamp_one w ev a =
            if String.eqb login (ad_login a)
            then mk_assignee_dict (ad_login a) (Some t) else a).
  { unfold stamp_one, event_login_is, event_instant.
    rewrite Ha, Hl, Hc, Hp. reflexivity. }
  rewrite Hl, IH, Hone.
  destruct (String.eqb login (ad_login a)); [rewrite Hc, Hp|]; reflexivity.
Qed.

Lemma recorded_cons w ev evs a :
  recorded w (ev :: evs) a =
  match last_assigned_event evs (ad_login a) with
  | Some e => event_instant w e
  | None => if event_login_is (ad_login a) ev then event_instant w ev
            else ad_created_at a
  end.
Proof.
  unfold recorded, last_assigned_event. simpl rev. rewrite find_app_eq.
  destruct (find (event_login_is (ad_login a)) (rev evs)); [reflexivity|].
  simpl. destruct (event_login_is (ad_login a) ev); reflexivity.
Qed.

Lemma recorded_stamp_one w ev evs a :
  mk_assignee_dict (ad_login (stamp_one w ev a))
                   (recorded w evs (stamp_one w ev a)) =
  mk_assignee_dict (ad_login a) (recorded w (ev :: evs) a).
Proof.
  rewrite recorded_cons. unfold recorded, stamp_one.
  destruct (event_login_is (ad_login a) ev); simpl; reflexivity.
Qed.

Lemma recorded_skip w ev evs a :
  is_assigned ev = false -> recorded w (ev :: evs) a = recorded w evs a.
Proof.
  intros H. rewrite recorded_cons. unfold recorded, event_login_is.
  rewrite H. reflexivity.
Qed.

Lemma record_all_nil w d : record_all w [] d = d.
Proof.
  destruct d as [u n t a l]. unfold record_all. simpl. f_equal.
  induction l as [|x l IH]; simpl; [reflexivity|].
  rewrite IH. destruct x; reflexivity.
Qed.

(** Processing well-formed events records, on every assignee, the instant
    of the last "assigned" event for its login, and binds
    [updated_pr_dict] as soon as one "assigned" event was seen. *)
Lemma process_events_well_formed w evs :
  forall d b,
    Forall (well_formed_event w) evs ->
    process_events w evs (d, b) =
    Ret (record_all w evs d, b || existsb is_assigned evs).
Proof.
  induction evs as [|ev evs IH]; intros d b Hwf.
  - simpl. rewrite record_all_nil, orb_false_r. reflexivity.
  - inversion Hwf as [|? ? Hev Hrest]; subst. simpl process_events.
    fold (is_assigned ev). destruct (is_assigned ev) eqn:Ha; simpl negb; cbv iota.
    + unfold get_pull_request_dict_with_timestamp. simpl fst.
      rewrite (stamp_assignees_well_formed _ _ _ Ha Hev). simpl res_bind.
      rewrite (IH _ _ Hrest). simpl existsb. rewrite Ha. simpl.
      rewrite orb_true_r. f_equal. f_equal.
      unfold record_all. simpl. f_equal. rewrite map_map.
      apply map_ext. intros a. apply recorded_stamp_one.
    + rewrite (IH _ _ Hrest). simpl existsb. rewrite Ha. simpl.
      f_equal. f_equal. unfold record_all. f_equal.
      apply map_ext. intros a. now rewrite (recorded_skip _ _ _ _ Ha).
Qed.

Lemma process_events_filter w evs st :
  process_events w evs st = process_events w (filter is_assigned evs) st.
Proof.
  revert st. induction evs as [|ev evs IH]; intros st; simpl; [reflexivity|].
  fold (is_assigned ev). destruct (is_assigned ev) eqn:Ha; simpl.
  - fold (is_assigned ev). rewrite Ha. simpl.
    destruct (get_pull_request_dict_with_timestamp w (fst st) ev); simpl; auto.
  - apply IH.
Qed.

Lemma process_events_none_assigned w evs st :
  Forall (fun ev => ev_event ev <> "assigned") evs ->
  process_events w evs st = Ret st.
Proof.
  induction 1 as [|ev evs Hev _ IH]; simpl; [reflexivity|].
  destruct (String.eqb_spec (ev_event ev) "assigned"); [contradiction|].
  simpl. exact IH.
Qed.

(** Whenever the events are processed without an exception, the outcome is
    the dictionary with the last matching instants recorded. *)
Lemma stamp_assignees_ret w ev l l' :
  is_assigned ev = true ->
  stamp_assignees w ev l = Ret l' -> l' = map (stamp_one w ev) l.
Proof.
  intros Ha. revert l'. induction l as [|a l IH]; intros l' H; simpl in H.
  - now injection H as <-.
  - destruct (ev_assignee_login ev) as [login|] eqn:Hl; [|discriminate].
    assert (Hone : stamp_one w ev a =
              if String.eqb login (ad_login a)
              then mk_assignee_dict (ad_login a) (event_instant w ev) else a).
    { unfold stamp_one, event_login_is. now rewrite Ha, Hl. }
    simpl map. rewrite Hone. unfold event_instant.
    destruct (String.eqb login (ad_login a)).
    + destruct (ev_created_at ev) as [txt|]; [|discriminate].
      destruct (w_parse w txt) as [t|]; [|discriminate].
      destruct (stamp_assignees w ev l) as [r| |]; simpl in H; try discriminate.
      injection H as <-. now rewrite (IH _ eq_refl).
    + destruct (stamp_assignees w ev l) as [r| |]; simpl in H; try discriminate.
      injection H as <-. now rewrite (IH _ eq_refl).
Qed.

Lemma process_events_ret w evs :
  forall d b st',
    process_events w evs (d, b) = Ret st' ->
    st' = (record_all w evs d, b || existsb is_assigned evs).
Proof.
  induction evs as [|ev evs IH]; intros d b st' H.
  - simpl in H. injection H as <-.
    now rewrite record_all_nil, orb_false_r.
  - simpl process_events in H. fold (is_assigned ev) in H.
    destruct (is_assigned ev) eqn:Ha; simpl negb in H; cbv iota in H.
    + unfold get_pull_request_dict_with_timestamp in H. simpl fst in H.
      destruct (stamp_assignees w ev (pd_assignees d)) as [l'| |] eqn:E;
        simpl in H; try discriminate.
      apply (stamp_assignees_ret _ _ _ _ Ha) in E. subst l'.
      apply IH in H. subst st'. simpl existsb. rewrite Ha. simpl.
      rewrite orb_true_r. f_equal.
      unfold record_all. simpl. f_equal. rewrite map_map.
      apply map_ext. intros a. apply recorded_stamp_one.
    + apply IH in H. subst st'. simpl existsb. rewrite Ha. simpl.
      f_equal. unfold record_all. f_equal.
      apply map_ext. intros a. now rewrite (recorded_skip _ _ _ _ Ha).
Qed.

Lemma correlate_no_diverge w evs d : correlate w evs d <> Diverge.
Proof.
  unfold correlate.
  pose proof (process_events_no_diverge w evs (d, false)) as H.
  destruct (process_events w evs (d, false)) as [st| |]; simpl;
    [destruct (snd st); discriminate | discriminate | congruence].
Qed.

(** [get_pull_request_object_from_dict] on a paginated timeline. *)
Lemma get_pull_request_object_from_dict_paginated w org repo d pages fuel s :
  st_token s <> None ->
  paginated (w_timeline w org repo (pd_number d)) pages ->
  (List.length pages < fuel)%nat ->
  (forall p, correlate w (List.concat pages) d = Ret p ->
     get_pull_request_object_from_dict w fuel org repo d s =
     (Ret p, add_calls s (timeline_calls org repo (pd_number d) 1
                            (S (List.length pages)))))
  /\
  (forall e, correlate w (List.concat pages) d = Raise e ->
     exists n, (n <= S (List.length pages))%nat /\
     get_pull_request_object_from_dict w fuel org repo d s =
     (Raise e, add_calls s (timeline_calls org repo (pd_number d) 1 n))).
Proof.
  intros Ht Hp Hf.
  destruct (timeline_loop_paginated w org repo (pd_number d) pages fuel 1
              (d, false) s Hp Hf) as [H1 H2].
  unfold get_pull_request_object_from_dict, check_token, correlate.
  destruct (st_token s); [clear Ht|congruence].
  unfold bind.
  destruct (process_events w (List.concat pages) (d, false)) as [st'|e'|] eqn:E.
  - rewrite (H1 _ eq_refl). simpl res_bind. split.
    + intros p H. destruct (snd st'); [|discriminate].
      injection H as <-. reflexivity.
    + intros e H. destruct (snd st'); [discriminate|].
      injection H as <-. exists (S (List.length pages)). split; [lia|reflexivity].
  - destruct (H2 _ eq_refl) as (n & Hn & Heq). rewrite Heq. simpl. split.
    + intros p H. discriminate.
    + intros e H. injection H as <-. exists n. split; [lia|reflexivity].
  - exfalso. exact (process_events_no_diverge _ _ _ E).
Qed.

Lemma last_assigned_event_split evs login before ev after :
  evs = before ++ ev :: after ->
  event_login_is login ev = true ->
  Forall (fun e => event_login_is login e = false) after ->
  last_assigned_event evs login = Some ev.
Proof.
  intros -> Hev Hafter. unfold last_assigned_event.
  rewrite rev_app_distr. simpl rev. rewrite <- app_assoc, find_app_eq.
  assert (H : find (event_login_is login) (rev after) = None).
  { destruct (find (event_login_is login) (rev after)) as [x|] eqn:E;
      [|reflexivity].
    apply find_some in E. destruct E as [Hin Hx].
    apply in_rev in Hin. rewrite Forall_forall in Hafter.
    rewrite (Hafter _ Hin) in Hx. discriminate. }
  rewrite H. simpl. now rewrite Hev.
Qed.

Lemma correlate_filter w evs d :
  correlate w evs d = correlate w (filter is_assigned evs) d.
Proof. unfold correlate. now rewrite process_events_filter. Qed.

(** C3. Timeline correlation ignores events that are not "assigned", and
    over pages taken in ascending order the timestamp an assignee ends up
    with is the creation time of the last "assigned" event for its login:
    on a paginated timeline of well-formed events with at least one
    "assigned" event, [get_pull_request_object_from_dict] returns a pull
    request whose i-th assignee carries the instant of the event [ev] for
    its login after which no further event for that login occurs, and the
    outcome is that of the timeline with all other events removed. *)
Theorem timeline_last_assigned_wins w org repo d pages fuel s :
  st_token s <> None ->
  paginated (w_timeline w org repo (pd_number d)) pages ->
  (List.length pages < fuel)%nat ->
  Forall (well_formed_event w) (List.concat pages) ->
  existsb is_assigned (List.concat pages) = true ->
  exists p s',
    get_pull_request_object_from_dict w fuel org repo d s = (Ret p, s') /\
    correlate w (List.concat pages) d = Ret p /\
    correlate w (filter is_assigned (List.concat pages)) d = Ret p /\
    forall i a before ev after,
      nth_error (pd_assignees d) i = Some a ->
      List.concat pages = before ++ ev :: after ->
      event_login_is (ad_login a) ev = true ->
      Forall (fun e => event_login_is (ad_login a) e = false) after ->
      exists t,
        event_instant w ev = Some t /\
        nth_error (assignees p) i = Some (mk_Assignee (ad_login a) (Some t)).
Proof.
  intros Ht Hp Hf Hwf Hex.
  set (evs := List.concat pages) in *.
  assert (Hc : correlate w evs d = Ret (from_github_response (record_all w evs d))).
  { unfold correlate. rewrite (process_events_well_formed _ _ _ _ Hwf).
    simpl. now rewrite Hex. }
  destruct (get_pull_request_object_from_dict_paginated
              w org repo d pages fuel s Ht Hp Hf) as [H1 _].
  eexists. eexists. split; [apply H1; exact Hc|].
  split; [exact Hc|]. split; [now rewrite <- correlate_filter|].
  intros i a before ev after Hi Hsplit Hev Hafter.
  assert (Hin : In ev evs) by (rewrite Hsplit; apply in_elt).
  rewrite Forall_forall in Hwf.
  assert (Ha : is_assigned ev = true).
  { unfold event_login_is in Hev. now apply andb_true_iff in Hev. }
  destruct (Hwf _ Hin Ha) as (login & txt & t & _ & Hc1 & Hc2).
  exists t. split; [unfold event_instant; now rewrite Hc1|].
  simpl. rewrite map_map. rewrite nth_error_map, Hi. simpl.
  unfold recorded.
  rewrite (last_assigned_event_split _ _ _ _ _ Hsplit Hev Hafter).
  unfold event_instant. now rewrite Hc1, Hc2.
Qed.

(** A two-page timeline in which reviewerName1 is assigned on page 1 and
    again on page 2: the instant of page 2 is the one recorded. *)
Lemma timeline_last_assigned_wins_witness :
  exists p s',
    get_pull_request_object_from_dict (ex_world [] None) 3 "orgName" "repo"
      ex_pr456 ex_state = (Ret p, s') /\
    nth_error (assignees p) 0 =
      Some (mk_Assignee "reviewerName1" (Some 1690853078000000)).
Proof.
  destruct (timeline_last_assigned_wins (ex_world [] None) "orgName" "repo"
              ex_pr456 ex_timeline4 3 ex_state) as (p & s' & Hrun & _ & _ & Hlast).
  - discriminate.
  - simpl. repeat split; discriminate.
  - simpl. lia.
  - simpl List.concat.
    repeat (apply Forall_cons;
            [intros Ha; first [ discriminate Ha
                              | do 3 eexists; repeat split; reflexivity ] |]).
    apply Forall_nil.
  - reflexivity.
  - exists p, s'. split; [exact Hrun|].
    destruct (Hlast 0%nat (mk_assignee_dict "reviewerName1" None)
                [ ex_assigned "reviewerName1" "2023-07-30T12:24:38Z";
                  ex_created;
                  ex_assigned "reviewerName2" "2023-07-31T21:24:38Z";
                  mk_event "unassigned" (Some "reviewerName1")
                           (Some "2023-07-31T22:24:38Z") ]
                (ex_assigned "reviewerName1" "2023-08-01T01:24:38Z") [])
      as (t & Ht & Hn); try reflexivity.
    + constructor.
    + simpl in Ht. injection Ht as <-. exact Hn.
Defined.

(** C4. When the fetched timeline of a pull request holds no "assigned"
    event (in particular when its first page is empty),
    [get_pull_request_object_from_dict] raises the [NameError] of the
    unbound local [updated_pr_dict], and for no number of loop iterations
    does it return a pull request object. *)
Theorem unassigned_timeline_raises_NameError w org repo d pages s :
  st_token s <> None ->
  paginated (w_timeline w org repo (pd_number d)) pages ->
  Forall (fun ev => ev_event ev <> "assigned") (List.concat pages) ->
  (forall fuel, (List.length pages < fuel)%nat ->
     get_pull_request_object_from_dict w fuel org repo d s =
     (Raise (UnboundLocalError "updated_pr_dict"),
      add_calls s (timeline_calls org repo (pd_number d) 1
                     (S (List.length pages))))) /\
  isinstance_NameError (UnboundLocalError "updated_pr_dict") = true /\
  (forall fuel p s',
     get_pull_request_object_from_dict w fuel org repo d s <> (Ret p, s')).
Proof.
  intros Ht Hp Hno.
  assert (Hc : correlate w (List.concat pages) d =
               Raise (UnboundLocalError "updated_pr_dict")).
  { unfold correlate. now rewrite (process_events_none_assigned _ _ _ Hno). }
  assert (Hrun : forall fuel, (List.length pages < fuel)%nat ->
     get_pull_request_object_from_dict w fuel org repo d s =
     (Raise (UnboundLocalError "updated_pr_dict"),
      add_calls s (timeline_calls org repo (pd_number d) 1
                     (S (List.length pages))))).
  { intros fuel Hf.
    unfold get_pull_request_object_from_dict, check_token.
    destruct (st_token s); [|congruence]. unfold bind.
    destruct (timeline_loop_paginated w org repo (pd_number d) pages fuel 1
                (d, false) s Hp Hf) as [H1 _].
    rewrite (H1 (d, false)); [reflexivity|].
    now apply process_events_none_assigned. }
  split; [exact Hrun|]. split; [reflexivity|].
  intros fuel p s' H.
  assert (Hle : (fuel <= fuel + S (List.length pages))%nat) by lia.
  pose proof (get_pull_request_object_from_dict_mono _ _ _ _ _ _ _ _ _ H
                ltac:(discriminate) Hle) as H'.
  rewrite Hrun in H' by lia. discriminate.
Qed.

(** A pull request whose only timeline event is "created". *)
Lemma unassigned_timeline_raises_NameError_witness :
  get_pull_request_object_from_dict (ex_world [] None) 2 "orgName" "repo"
    ex_pr567 ex_state =
  (Raise (UnboundLocalError "updated_pr_dict"),
   add_calls ex_state [GetTimeline "orgName" "repo" 567 1 100;
                       GetTimeline "orgName" "repo" 567 2 100]).
Proof.
  refine (proj1 (unassigned_timeline_raises_NameError (ex_world [] None)
            "orgName" "repo" ex_pr567 [[ex_created]] ex_state _ _ _) 2%nat _).
  - discriminate.
  - simpl. repeat split; discriminate.
  - repeat constructor. discriminate.
  - simpl. lia.
Defined.

(** ** The requests of a run *)

Lemma pulls_requested_app a b :
  pulls_requested (a ++ b) = pulls_requested a ++ pulls_requested b.
Proof. apply flat_map_app. Qed.

Lemma converted_app a b : converted (a ++ b) = converted a ++ converted b.
Proof. apply flat_map_app. Qed.

Lemma pulls_requested_timeline org repo num p n :
  pulls_requested (timeline_calls org repo num p n) = [].
Proof.
  unfold timeline_calls. revert p.
  induction n as [|n IH]; intros p; simpl; [reflexivity | apply IH].
Qed.

Lemma converted_timeline_later org repo num p n :
  converted (timeline_calls org repo num (S (S p)) n) = [].
Proof.
  unfold timeline_calls. revert p.
  induction n as [|n IH]; intros p; simpl; [reflexivity | apply IH].
Qed.

Lemma converted_timeline_first org repo num n :
  converted (timeline_calls org repo num 1 (S n)) = [num].
Proof.
  unfold timeline_calls. simpl. f_equal.
  apply (converted_timeline_later org repo num 0 n).
Qed.


Lemma pulls_requested_calls org repo p n :
  pulls_requested (pulls_calls org repo p n) = ascending_pages p n.
Proof.
  unfold pulls_calls, ascending_pages. revert p.
  induction n as [|n IH]; intros p; simpl; [reflexivity|].
  f_equal. apply IH.
Qed.

(** Requests of the timeline loop, whatever its outcome. *)
Lemma timeline_loop_frame w org repo num fuel :
  forall p st s r s',
    timeline_loop w org repo num fuel p st s = (r, s') ->
    exists n, s' = add_calls s (timeline_calls org repo num p n) /\
              (r <> Diverge -> (1 <= n)%nat).
Proof.
  induction fuel as [|fuel IH]; intros p st s r s' H.
  - simpl in H. unfold diverge in H. injection H as <- <-.
    exists 0%nat. split; [now rewrite add_calls_nil | congruence].
  - simpl in H. unfold bind at 1 in H. unfold request in H. simpl in H.
    fold (add_calls s [GetTimeline org repo num p 100]) in H.
    destruct (w_timeline w org repo num p) as [subset|].
    + destruct (Nat.eqb (List.length subset) 0).
      * unfold ret in H. injection H as <- <-. exists 1%nat. split; [reflexivity|lia].
      * unfold bind, lift in H.
        destruct (process_events w subset st) as [st1|e|].
        -- apply IH in H. destruct H as (n & -> & Hn).
           exists (S n). rewrite add_calls_app. split; [reflexivity|lia].
        -- injection H as <- <-. exists 1%nat. split; [reflexivity|lia].
        -- injection H as <- <-. exists 1%nat. split; [reflexivity|lia].
    + unfold raise in H. injection H as <- <-. exists 1%nat.
      split; [reflexivity|lia].
Qed.

Lemma get_pull_request_object_from_dict_frame w fuel org repo d s p s' :
  get_pull_request_object_from_dict w fuel org repo d s = (Ret p, s') ->
  exists n, s' = add_calls s (timeline_calls org repo (pd_number d) 1 (S n)).
Proof.
  unfold get_pull_request_object_from_dict, check_token. intros H.
  destruct (st_token s); [|discriminate]. unfold bind in H.
  destruct (timeline_loop w org repo (pd_number d) fuel 1 (d, false) s)
    as [r1 s1] eqn:E.
  apply timeline_loop_frame in E. destruct E as (n & -> & Hn).
  destruct r1 as [st| |]; try discriminate.
  destruct (snd st); [|discriminate]. unfold ret in H. injection H as _ <-.
  destruct n as [|n]; [exfalso; specialize (Hn ltac:(discriminate)); lia|].
  now exists n.
Qed.

Lemma add_calls_token s cs : st_token (add_calls s cs) = st_token s.
Proof. reflexivity. Qed.

Lemma convert_all_frame w fuel org repo ds :
  forall s ps s',
    convert_all w fuel org repo ds s = (Ret ps, s') ->
    exists cs, s' = add_calls s cs /\
               pulls_requested cs = [] /\
               converted cs = map pd_number ds.
Proof.
  induction ds as [|d ds IH]; intros s ps s' H; simpl in H.
  - unfold ret in H. injection H as _ <-. exists [].
    now rewrite add_calls_nil.
  - unfold bind in H.
    destruct (get_pull_request_object_from_dict w fuel org repo d s)
      as [[p| |] s1] eqn:E; try discriminate.
    apply get_pull_request_object_from_dict_frame in E. destruct E as (n & ->).
    destruct (convert_all w fuel org repo ds _) as [[ps1| |] s2] eqn:E2;
      try discriminate.
    apply IH in E2. destruct E2 as (cs & -> & Hp & Hc).
    unfold ret in H. injection H as _ <-.
    eexists. rewrite add_calls_app. split; [reflexivity|].
    rewrite pulls_requested_app, converted_app, pulls_requested_timeline,
            converted_timeline_first, Hp, Hc. split; reflexivity.
Qed.

(** The filter reads the clock and issues no request. *)
Lemma review_step_frame w h p a m s r s' :
  review_step w h p a m s = (r, s') ->
  st_token s' = st_token s /\ st_calls s' = st_calls s /\
  st_clock s' = S (st_clock s).
Proof.
  unfold review_step, bind, now, lift, ret. simpl. intros H.
  destruct (pending_review_time _ a) as [pend| |];
    [|injection H as _ <-; auto..].
  destruct (negb _); [|injection H as _ <-; auto].
  destruct (timedelta_hours h) as [thr| |]; [|injection H as _ <-; auto..].
  destruct (pend >=? thr); injection H as _ <-; auto.
Qed.

Lemma scan_reviewers_frame w h p l :
  forall m s r s',
    scan_reviewers w h p l m s = (r, s') ->
    st_token s' = st_token s /\ st_calls s' = st_calls s.
Proof.
  induction l as [|a l IH]; intros m s r s' H; simpl in H.
  - unfold ret in H. injection H as _ <-. auto.
  - unfold bind in H.
    destruct (review_step w h p a m s) as [r1 s1] eqn:E.
    apply review_step_frame in E. destruct E as (Et & Ec & _).
    destruct r1 as [m1| |]; [|injection H as _ <-; auto..].
    apply IH in H. destruct H as [-> ->]. auto.
Qed.

Lemma scan_pull_requests_frame w h prs :
  forall m s r s',
    scan_pull_requests w h prs m s = (r, s') ->
    st_token s' = st_token s /\ st_calls s' = st_calls s.
Proof.
  induction prs as [|p prs IH]; intros m s r s' H; simpl in H.
  - unfold ret in H. injection H as _ <-. auto.
  - destruct (negb (is_reviewer_assigned p)); [now apply IH in H|].
    unfold bind in H.
    destruct (scan_reviewers w h p (assignees p) m s) as [r1 s1] eqn:E.
    apply scan_reviewers_frame in E. destruct E as (Et & Ec).
    destruct r1 as [m1| |]; [|injection H as _ <-; auto..].
    apply IH in H. destruct H as [-> ->]. auto.
Qed.

(** On a paginated listing the loop of [get_prs_assigned_to_reviewers]
    is the page-by-page fetch. *)
Lemma pulls_loop_paginated w org repo h inner pages :
  forall fuel p m s,
    paginated_from (w_pulls w org repo) p pages ->
    (List.length pages < fuel)%nat ->
    pulls_loop w org repo h inner fuel p m s =
    fetch_pages w org repo h inner p pages m s.
Proof.
  induction pages as [|pg rest IH]; intros fuel p m s Hp Hf;
    (destruct fuel as [|fuel]; [simpl in Hf; lia|]); simpl in Hp.
  - simpl. unfold bind, request. simpl. rewrite Hp. reflexivity.
  - destruct Hp as (Hne & Hpg & Hrest). simpl in Hf.
    simpl. unfold bind at 1 3. unfold request. simpl.
    rewrite Hpg, (length_nonzero _ Hne).
    unfold process_page. unfold bind.
    destruct (convert_all w inner org repo pg _) as [[prs| |] s1];
      try reflexivity.
    destruct (scan_pull_requests w h prs m s1) as [[m1| |] s2];
      try reflexivity.
    apply IH; [exact Hrest | lia].
Qed.




(** ** The overdue map *)

Lemma dd_get_append m k q u p :
  In p (dd_get (dd_append m k q) u) <->
  In p (dd_get m u) \/ (k = u /\ p = q).
Proof.
  induction m as [|[k' l] m IH]; simpl.
  - destruct (String.eqb_spec k u) as [->|Hne]; simpl.
    + split; [intros [->|[]]; auto | intros [[]|[_ ->]]; auto].
    + split; [intros [] | intros [[]|[H _]]; contradiction].
  - destruct (String.eqb_spec k' k) as [->|Hk]; simpl.
    + destruct (String.eqb_spec k u) as [->|Hne].
      * rewrite in_app_iff. simpl.
        split; [intros [H|[->|[]]]; auto | intros [H|[_ ->]]; auto].
      * split; [auto | intros [H|[H _]]; [auto|contradiction]].
    + destruct (String.eqb_spec k' u) as [->|Hu].
      * split; [auto | intros [H|[H _]]; [auto|congruence]].
      * exact IH.
Qed.

Lemma scan_pairs_app w h l1 l2 m s :
  scan_pairs w h (l1 ++ l2) m s =
  (m' <- scan_pairs w h l1 m ;; scan_pairs w h l2 m') s.
Proof.
  revert m s. induction l1 as [|[p a] l1 IH]; intros m s; simpl.
  - reflexivity.
  - unfold bind.
    destruct (review_step w h p a m s) as [[m1| |] s1]; try reflexivity.
    rewrite IH. reflexivity.
Qed.

Lemma scan_reviewers_pairs w h p l m s :
  scan_reviewers w h p l m s = scan_pairs w h (map (pair p) l) m s.
Proof.
  revert m s. induction l as [|a l IH]; intros m s; simpl; [reflexivity|].
  unfold bind. destruct (review_step w h p a m s) as [[m1| |] s1];
    try reflexivity. apply IH.
Qed.

Lemma scan_pull_requests_pairs w h prs m s :
  scan_pull_requests w h prs m s = scan_pairs w h (all_pairs prs) m s.
Proof.
  revert m s. induction prs as [|p prs IH]; intros m s; [reflexivity|].
  simpl scan_pull_requests. unfold all_pairs. simpl flat_map.
  fold (all_pairs prs). rewrite scan_pairs_app.
  unfold is_reviewer_assigned.
  destruct (assignees p) as [|a l] eqn:E; simpl negb; cbv iota.
  - simpl. unfold bind, ret. apply IH.
  - rewrite <- E.
    replace (negb (negb (Nat.eqb (List.length (assignees p)) 0))) with false
      by (rewrite E; reflexivity).
    unfold bind. rewrite scan_reviewers_pairs.
    destruct (scan_pairs w h (map (pair p) (assignees p)) m s)
      as [[m1| |] s1]; try reflexivity. apply IH.
Qed.

Lemma timedelta_hours_representable hours :
  representable_hours hours ->
  timedelta_hours (Some hours) = Ret (hours * MICROSECONDS_PER_HOUR).
Proof.
  unfold representable_hours, timedelta_hours. intros [H1 H2].
  apply Z.leb_le in H1, H2. now rewrite H1, H2.
Qed.

Lemma review_step_ok w hours p a m s :
  representable_hours hours -> has_timestamp a ->
  review_step w (Some hours) p a m s =
  (Ret (if overdue w hours (st_clock s) (p, a)
        then dd_append m (username a) p else m),
   mk_State (st_token s) (st_calls s) (S (st_clock s))).
Proof.
  intros Hr Ha. unfold review_step, bind, now, lift, overdue,
    pending_review_time. cbn -[timedelta_hours Z.mul Z.sub Z.geb].
  unfold has_timestamp in Ha.
  destruct (assigned_on_timestamp a) as [ts|]; [|congruence].
  destruct (negb (username a =? author_username p)%string);
    cbn -[timedelta_hours Z.mul Z.sub Z.geb]; [|reflexivity].
  rewrite (timedelta_hours_representable _ Hr).
  destruct (w_now w (st_clock s) - ts >=? hours * MICROSECONDS_PER_HOUR);
    reflexivity.
Qed.

Lemma scan_pairs_ok w hours pairs :
  representable_hours hours ->
  Forall (fun pa => has_timestamp (snd pa)) pairs ->
  forall m s,
    scan_pairs w (Some hours) pairs m s =
    (Ret (scan_result w hours (st_clock s) pairs m),
     mk_State (st_token s) (st_calls s) (st_clock s + List.length pairs)).
Proof.
  intros Hr. induction 1 as [|[p a] pairs Ha _ IH]; intros m s; simpl.
  - unfold ret. rewrite Nat.add_0_r. now destruct s.
  - unfold bind. rewrite (review_step_ok _ _ _ _ _ _ Hr Ha).
    rewrite IH. simpl. now rewrite Nat.add_succ_r.
Qed.

Lemma scan_result_app w hours k l1 l2 m :
  scan_result w hours k (l1 ++ l2) m =
  scan_result w hours (k + List.length l1) l2 (scan_result w hours k l1 m).
Proof.
  revert k m. induction l1 as [|pa l1 IH]; intros k m; simpl.
  - now rewrite Nat.add_0_r.
  - rewrite IH. now rewrite Nat.add_succ_r.
Qed.

(** Membership in the map the filter builds. *)
Lemma scan_result_In w hours pairs :
  forall k m u p,
    In p (dd_get (scan_result w hours k pairs m) u) <->
    In p (dd_get m u) \/
    exists i a ts,
      nth_error pairs i = Some (p, a) /\
      username a = u /\
      assigned_on_timestamp a = Some ts /\
      u <> author_username p /\
      w_now w (k + i) - ts >= hours * MICROSECONDS_PER_HOUR.
Proof.
  induction pairs as [|[q b] pairs IH]; intros k m u p; simpl.
  - split; [auto|]. intros [H|(i & a & ts & H & _)]; [exact H|].
    destruct i; discriminate.
  - rewrite IH. clear IH. unfold overdue. simpl.
    split.
    + intros [H|(i & a & ts & Hn & Hu & Hts & Hau & Hge)].
      * destruct (String.eqb_spec (username b) (author_username q)) as [E|E];
          simpl in H; [auto|].
        destruct (assigned_on_timestamp b) as [ts|] eqn:Ets; [|auto].
        destruct (Z.geb_spec (w_now w k - ts) (hours * MICROSECONDS_PER_HOUR))
          as [Hge|Hlt]; [|auto].
        apply dd_get_append in H. destruct H as [H|[Hk ->]]; [auto|].
        right. exists 0%nat, b, ts. rewrite Nat.add_0_r. simpl.
        repeat split; auto; try congruence. lia.
      * right. exists (S i), a, ts. simpl. rewrite Nat.add_succ_r.
        repeat split; auto.
    + intros [H|(i & a & ts & Hn & Hu & Hts & Hau & Hge)].
      * left.
        destruct (negb (username b =? author_username q)%string); [|exact H].
        destruct (assigned_on_timestamp b) as [ts|]; [|exact H].
        destruct (w_now w k - ts >=? hours * MICROSECONDS_PER_HOUR);
          [|exact H].
        apply dd_get_append. auto.
      * destruct i as [|i]; simpl in Hn.
        -- injection Hn as -> ->. left. rewrite Nat.add_0_r in Hge.
           destruct (String.eqb_spec (username a) (author_username p));
             [congruence|]. simpl. rewrite Hts.
           destruct (Z.geb_spec (w_now w k - ts) (hours * MICROSECONDS_PER_HOUR));
             [|lia].
           apply dd_get_append. auto.
        -- right. exists i, a, ts. rewrite Nat.add_succ_r in Hge.
           repeat split; auto.
Qed.

Lemma converts_within_mono n n' w org repo d p :
  (n <= n')%nat ->
  converts_within n w org repo d p -> converts_within n' w org repo d p.
Proof.
  intros Hle (tp & Hlen & Hp & Hc). exists tp. repeat split; auto. lia.
Qed.

Lemma converts_bound w org repo ds ps :
  Forall2 (converts w org repo) ds ps ->
  exists n, Forall2 (converts_within n w org repo) ds ps.
Proof.
  induction 1 as [|d p ds ps [n Hn] _ [n' IH]].
  - exists 0%nat. constructor.
  - exists (Nat.max n n'). constructor.
    + eapply converts_within_mono; [|exact Hn]. lia.
    + eapply Forall2_impl; [|exact IH].
      intros a b Hab. eapply converts_within_mono; [|exact Hab]. lia.
Qed.

Lemma converts_within_run w n org repo d p s :
  st_token s <> None ->
  converts_within n w org repo d p ->
  exists cs,
    get_pull_request_object_from_dict w n org repo d s =
    (Ret p, add_calls s cs).
Proof.
  intros Ht (tp & Hlen & Hp & Hc).
  destruct (get_pull_request_object_from_dict_paginated
              w org repo d tp n s Ht Hp Hlen) as [H1 _].
  eexists. apply H1. exact Hc.
Qed.

Lemma convert_all_ok w n org repo ds ps :
  Forall2 (converts_within n w org repo) ds ps ->
  forall s, st_token s <> None ->
  exists cs, convert_all w n org repo ds s = (Ret ps, add_calls s cs).
Proof.
  induction 1 as [|d p ds ps Hd _ IH]; intros s Ht; simpl.
  - exists []. unfold ret. now rewrite add_calls_nil.
  - destruct (converts_within_run _ _ _ _ _ _ s Ht Hd) as (cs1 & E1).
    destruct (IH (add_calls s cs1) Ht) as (cs2 & E2).
    exists (cs1 ++ cs2). unfold bind. rewrite E1, E2.
    unfold ret. now rewrite add_calls_app.
Qed.

Lemma all_pairs_app l1 l2 : all_pairs (l1 ++ l2) = all_pairs l1 ++ all_pairs l2.
Proof. apply flat_map_app. Qed.

Lemma all_pairs_timestamps prs :
  Forall (fun p => Forall has_timestamp (assignees p)) prs ->
  Forall (fun pa => has_timestamp (snd pa)) (all_pairs prs).
Proof.
  induction 1 as [|p prs Hp _ IH]; [constructor|].
  unfold all_pairs. simpl. apply Forall_app. split; [|exact IH].
  apply Forall_map. exact Hp.
Qed.

(** The page-by-page fetch when every pull request converts and every
    assignee carries a timestamp. *)
Lemma fetch_pages_ok w org repo hours inner :
  representable_hours hours ->
  forall pages prs,
    Forall2 (converts_within inner w org repo) (List.concat pages) prs ->
    Forall (fun p => Forall has_timestamp (assignees p)) prs ->
    forall p m s, st_token s <> None ->
    exists cs,
      fetch_pages w org repo (Some hours) inner p pages m s =
      (Ret (scan_result w hours (st_clock s) (all_pairs prs) m),
       mk_State (st_token s) (st_calls s ++ cs)
                (st_clock s + List.length (all_pairs prs))).
Proof.
  intros Hr. induction pages as [|pg rest IH]; intros prs Hc Hts p m s Ht.
  - simpl in Hc. inversion Hc; subst. simpl.
    unfold bind, request, ret. simpl. rewrite Nat.add_0_r. eauto.
  - simpl in Hc. apply Forall2_app_inv_l in Hc.
    destruct Hc as (ps1 & ps2 & H1 & H2 & ->).
    apply Forall_app in Hts. destruct Hts as [Hts1 Hts2].
    simpl. unfold bind at 1. unfold request. simpl.
    fold (add_calls s [GetPulls org repo p 100]).
    unfold process_page. unfold bind at 1. unfold bind at 1.
    destruct (convert_all_ok _ _ _ _ _ _ H1
                (add_calls s [GetPulls org repo p 100]) Ht) as (cs1 & E1).
    rewrite E1. rewrite scan_pull_requests_pairs.
    rewrite (scan_pairs_ok _ _ _ Hr (all_pairs_timestamps _ Hts1)).
    destruct (IH ps2 H2 Hts2 (S p)
                (scan_result w hours (st_clock s) (all_pairs ps1) m)
                (mk_State (st_token s)
                   ((st_calls s ++ [GetPulls org repo p 100]) ++ cs1)
                   (st_clock s + List.length (all_pairs ps1))) Ht)
      as (cs2 & E2).
    simpl st_token. simpl st_calls. simpl st_clock.
    rewrite E2. simpl.
    exists ([GetPulls org repo p 100] ++ cs1 ++ cs2).
    rewrite all_pairs_app, scan_result_app, length_app.
    rewrite <- !app_assoc, Nat.add_assoc. reflexivity.
Qed.

(** C1. On a paginated pull request listing whose pull requests all
    convert and whose assignees all carry a timestamp,
    [get_prs_assigned_to_reviewers] returns a map in which a pull request
    [p] is listed under reviewer [u] exactly when some visited pair
    [(p, a)] has [username a = u], [u] is not the author of [p], and the
    clock reading taken for that pair minus the assignment timestamp is at
    least the threshold of [hours] hours (the comparison is [>=], so an
    elapsed time equal to the threshold is included and anything smaller
    is not). *)
Theorem overdue_iff_not_author_and_threshold_reached
  w org repo hours s pages prs :
  st_token s <> None ->
  paginated (w_pulls w org repo) pages ->
  Forall2 (converts w org repo) (List.concat pages) prs ->
  Forall (fun p => Forall has_timestamp (assignees p)) prs ->
  representable_hours hours ->
  exists fuel0, forall fuel, (fuel0 <= fuel)%nat ->
  exists m s',
    get_prs_assigned_to_reviewers w fuel org repo (Some hours) s = (Ret m, s') /\
    m = scan_result w hours (st_clock s) (all_pairs prs) [] /\
    forall u p,
      In p (dd_get m u) <->
      exists i a ts,
        nth_error (all_pairs prs) i = Some (p, a) /\
        username a = u /\
        assigned_on_timestamp a = Some ts /\
        u <> author_username p /\
        w_now w (st_clock s + i) - ts >= hours * MICROSECONDS_PER_HOUR.
Proof.
  intros Ht Hp Hc Hts Hr.
  destruct (converts_bound _ _ _ _ _ Hc) as (n & Hn).
  exists (Nat.max n (S (List.length pages))). intros fuel Hfuel.
  assert (Hn' : Forall2 (converts_within fuel w org repo) (List.concat pages) prs).
  { eapply Forall2_impl; [|exact Hn].
    intros a b Hab. eapply converts_within_mono; [|exact Hab]. lia. }
  destruct (fetch_pages_ok w org repo hours fuel Hr pages prs Hn' Hts 1%nat [] s Ht)
    as (cs & E).
  exists (scan_result w hours (st_clock s) (all_pairs prs) []),
         (mk_State (st_token s) (st_calls s ++ cs)
                   (st_clock s + List.length (all_pairs prs))).
  split; [|split; [reflexivity|]].
  - unfold get_prs_assigned_to_reviewers, check_token.
    destruct (st_token s); [|congruence].
    rewrite (pulls_loop_paginated w org repo _ _ pages) by (try exact Hp; lia).
    exact E.
  - intros u p. rewrite scan_result_In. simpl.
    split; [intros [[]|H]; exact H | auto].
Qed.

(** The scenario of the specification extended by pull request 345, on
    which reviewerName1 has waited exactly 20 hours, reviewerName2 one
    second less, and the author is assigned to their own pull request. *)
Lemma overdue_iff_not_author_and_threshold_reached_witness :
  exists fuel0, forall fuel, (fuel0 <= fuel)%nat ->
  exists m s',
    get_prs_assigned_to_reviewers
      (ex_world [[ex_pr123; ex_pr234]; [ex_pr345]] None) fuel
      "orgName" "repo" (Some 20) ex_state = (Ret m, s') /\
    m = [ ("reviewerName1"%string,
           [ex_pull_request ex_pr123; ex_pull_request ex_pr234;
            ex_pull_request ex_pr345]);
          ("reviewerName2"%string, [ex_pull_request ex_pr123]) ].
Proof.
  destruct (overdue_iff_not_author_and_threshold_reached
              (ex_world [[ex_pr123; ex_pr234]; [ex_pr345]] None)
              "orgName" "repo" 20 ex_state
              [[ex_pr123; ex_pr234]; [ex_pr345]]
              [ex_pull_request ex_pr123; ex_pull_request ex_pr234;
               ex_pull_request ex_pr345]) as (fuel0 & H).
  - discriminate.
  - simpl. repeat split; discriminate.
  - simpl List.concat.
    repeat (apply Forall2_cons;
            [exists 2%nat; eexists [_]; split; [simpl; lia|];
             split; [simpl; repeat split; discriminate | reflexivity] |]).
    apply Forall2_nil.
  - repeat (apply Forall_cons; [repeat constructor; discriminate|]).
    apply Forall_nil.
  - split; apply Z.leb_le; reflexivity.
  - exists fuel0. intros fuel Hf. destruct (H fuel Hf) as (m & s' & Hrun & Hm & _).
    exists m, s'. split; [exact Hrun|]. rewrite Hm. reflexivity.
Defined.

(** ** Assignees without a matching event *)

Lemma review_step_ret_timestamp w h p a m s m' s' :
  review_step w h p a m s = (Ret m', s') -> has_timestamp a.
Proof.
  unfold review_step, bind, now, lift, pending_review_time, has_timestamp.
  simpl. destruct (assigned_on_timestamp a); [discriminate|].
  intros H. discriminate.
Qed.

Lemma scan_pairs_ret_timestamps w h pairs :
  forall m s m' s',
    scan_pairs w h pairs m s = (Ret m', s') ->
    Forall (fun pa => has_timestamp (snd pa)) pairs.
Proof.
  induction pairs as [|[p a] pairs IH]; intros m s m' s' H; [constructor|].
  simpl in H. unfold bind in H.
  destruct (review_step w h p a m s) as [[m1| |] s1] eqn:E; try discriminate.
  constructor; [exact (review_step_ret_timestamp _ _ _ _ _ _ _ _ E)|].
  exact (IH _ _ _ _ H).
Qed.

Lemma all_pairs_timestamps_inv prs :
  Forall (fun pa => has_timestamp (snd pa)) (all_pairs prs) ->
  Forall (fun p => Forall has_timestamp (assignees p)) prs.
Proof.
  induction prs as [|p prs IH]; intros H; [constructor|].
  unfold all_pairs in H. simpl in H. apply Forall_app in H.
  destruct H as [H1 H2]. constructor; [|exact (IH H2)].
  rewrite Forall_map in H1. exact H1.
Qed.

Lemma convert_all_ret w n org repo ds :
  forall s ps s',
    convert_all w n org repo ds s = (Ret ps, s') ->
    Forall2 (fun d p => exists s1 s2,
               get_pull_request_object_from_dict w n org repo d s1 = (Ret p, s2))
            ds ps.
Proof.
  induction ds as [|d ds IH]; intros s ps s' H; simpl in H.
  - unfold ret in H. injection H as <- _. constructor.
  - unfold bind in H.
    destruct (get_pull_request_object_from_dict w n org repo d s)
      as [[p| |] s1] eqn:E; try discriminate.
    destruct (convert_all w n org repo ds s1) as [[ps1| |] s2] eqn:E2;
      try discriminate.
    unfold ret in H. injection H as <- _.
    constructor; [eauto | exact (IH _ _ _ E2)].
Qed.

Lemma Forall2_In_l {A B} (R : A -> B -> Prop) l1 l2 x :
  Forall2 R l1 l2 -> In x l1 -> exists y, In y l2 /\ R x y.
Proof.
  induction 1 as [|a b l1 l2 Hab _ IH]; intros Hin; [destruct Hin|].
  destruct Hin as [->|Hin].
  - exists b. split; [now left | exact Hab].
  - destruct (IH Hin) as (y & Hy & Hr). exists y. split; [now right | exact Hr].
Qed.

(** A fetch that returns has converted every listed pull request into an
    object whose assignees all carry a timestamp. *)
Lemma fetch_pages_ret w org repo h inner pages :
  forall p m s m' s',
    fetch_pages w org repo h inner p pages m s = (Ret m', s') ->
    forall d, In d (List.concat pages) ->
    exists q s1 s2,
      get_pull_request_object_from_dict w inner org repo d s1 = (Ret q, s2) /\
      Forall has_timestamp (assignees q).
Proof.
  induction pages as [|pg rest IH]; intros p m s m' s' H d Hin;
    [destruct Hin|].
  simpl in H. unfold bind at 1 in H. unfold request in H. simpl in H.
  unfold bind at 1 in H. unfold process_page, bind at 1 in H.
  destruct (convert_all w inner org repo pg _) as [[prs| |] s1] eqn:E;
    try discriminate.
  destruct (scan_pull_requests w h prs m s1) as [[m1| |] s2] eqn:E2;
    try discriminate.
  simpl in Hin. apply in_app_or in Hin. destruct Hin as [Hin|Hin].
  - apply convert_all_ret in E.
    destruct (Forall2_In_l _ _ _ _ E Hin) as (q & Hq & s3 & s4 & Hrun).
    exists q, s3, s4. split; [exact Hrun|].
    rewrite scan_pull_requests_pairs in E2.
    apply scan_pairs_ret_timestamps, all_pairs_timestamps_inv in E2.
    rewrite Forall_forall in E2. exact (E2 _ Hq).
  - exact (IH _ _ _ _ _ H d Hin).
Qed.

Lemma last_assigned_event_none evs login :
  Forall (fun ev => event_login_is login ev = false) evs ->
  last_assigned_event evs login = None.
Proof.
  intros H. unfold last_assigned_event.
  destruct (find (event_login_is login) (rev evs)) as [x|] eqn:E;
    [|reflexivity].
  apply find_some in E. destruct E as [Hin Hx]. apply in_rev in Hin.
  rewrite Forall_forall in H. rewrite (H _ Hin) in Hx. discriminate.
Qed.

(** An assignee without matching event keeps no timestamp in the object
    built from the timeline. *)
Lemma unmatched_assignee_keeps_no_timestamp w n org repo d a tpages s1 q s2 :
  paginated (w_timeline w org repo (pd_number d)) tpages ->
  In a (pd_assignees d) -> ad_created_at a = None ->
  Forall (fun ev => event_login_is (ad_login a) ev = false)
         (List.concat tpages) ->
  get_pull_request_object_from_dict w n org repo d s1 = (Ret q, s2) ->
  In (mk_Assignee (ad_login a) None) (assignees q).
Proof.
  intros Hp Hin Hnone Hno Hrun.
  assert (Ht : st_token s1 <> None).
  { unfold get_pull_request_object_from_dict, check_token in Hrun.
    destruct (st_token s1); [discriminate|discriminate]. }
  assert (Hle : (n <= n + S (List.length tpages))%nat) by lia.
  pose proof (get_pull_request_object_from_dict_mono _ _ _ _ _ _ _ _ _ Hrun
                ltac:(discriminate) Hle) as Hrun'.
  destruct (get_pull_request_object_from_dict_paginated w org repo d tpages
              (n + S (List.length tpages)) s1 Ht Hp ltac:(lia)) as [H1 H2].
  assert (Hc : correlate w (List.concat tpages) d = Ret q).
  { destruct (correlate w (List.concat tpages) d) as [q'|e|] eqn:E.
    - rewrite (H1 _ eq_refl) in Hrun'. now injection Hrun' as ->.
    - destruct (H2 _ eq_refl) as (k & _ & Heq). rewrite Heq in Hrun'.
      discriminate.
    - exfalso. exact (correlate_no_diverge _ _ _ E). }
  unfold correlate in Hc.
  destruct (process_events w (List.concat tpages) (d, false)) as [st| |] eqn:E;
    simpl in Hc; try discriminate.
  apply process_events_ret in E. subst st. simpl in Hc.
  destruct (existsb is_assigned (List.concat tpages)); [|discriminate].
  injection Hc as <-. simpl. rewrite map_map. simpl.
  apply in_map_iff. exists a. split; [|exact Hin].
  unfold recorded. now rewrite (last_assigned_event_none _ _ Hno), Hnone.
Qed.

(** ** Runs that end *)

Lemma review_step_no_diverge w h p a m s :
  fst (review_step w h p a m s) <> Diverge.
Proof.
  unfold review_step, bind, now, lift, pending_review_time, ret. simpl.
  destruct (assigned_on_timestamp a); [|discriminate].
  destruct (negb _); [|discriminate].
  unfold timedelta_hours. destruct h as [hz|]; [|discriminate].
  destruct ((-999999999 <=? hz / 24) && (hz / 24 <=? 999999999));
    [|discriminate].
  destruct (_ >=? _); discriminate.
Qed.

Lemma scan_pairs_no_diverge w h pairs :
  forall m s, fst (scan_pairs w h pairs m s) <> Diverge.
Proof.
  induction pairs as [|[p a] pairs IH]; intros m s; simpl; [discriminate|].
  unfold bind. pose proof (review_step_no_diverge w h p a m s) as H.
  destruct (review_step w h p a m s) as [[m1| |] s1]; simpl in *;
    [apply IH | discriminate | congruence].
Qed.

Lemma get_pull_request_object_from_dict_ends w n org repo d s :
  st_token s <> None ->
  timeline_ends_within n w org repo d ->
  fst (get_pull_request_object_from_dict w n org repo d s) <> Diverge.
Proof.
  intros Ht (tp & Hlen & Hp).
  destruct (get_pull_request_object_from_dict_paginated w org repo d tp n s
              Ht Hp Hlen) as [H1 H2].
  destruct (correlate w (List.concat tp) d) as [q|e|] eqn:E.
  - rewrite (H1 _ eq_refl). discriminate.
  - destruct (H2 _ eq_refl) as (k & _ & ->). discriminate.
  - exfalso. exact (correlate_no_diverge _ _ _ E).
Qed.

Lemma convert_all_ends w n org repo ds :
  Forall (timeline_ends_within n w org repo) ds ->
  forall s, st_token s <> None ->
  fst (convert_all w n org repo ds s) <> Diverge.
Proof.
  induction 1 as [|d ds Hd _ IH]; intros s Ht; simpl; [discriminate|].
  unfold bind.
  pose proof (get_pull_request_object_from_dict_ends _ _ _ _ _ s Ht Hd) as H.
  destruct (get_pull_request_object_from_dict w n org repo d s)
    as [[p| |] s1] eqn:E; simpl in H; [|discriminate|congruence].
  apply get_pull_request_object_from_dict_frame in E. destruct E as (k & ->).
  specialize (IH (add_calls s (timeline_calls org repo (pd_number d) 1 (S k))) Ht).
  destruct (convert_all w n org repo ds _) as [[ps| |] s2]; simpl in *;
    [discriminate | discriminate | congruence].
Qed.

Lemma fetch_pages_ends w org repo h inner pages :
  Forall (timeline_ends_within inner w org repo) (List.concat pages) ->
  forall p m s, st_token s <> None ->
  fst (fetch_pages w org repo h inner p pages m s) <> Diverge.
Proof.
  induction pages as [|pg rest IH]; intros Hall p m s Ht.
  - simpl. unfold bind, request, ret. simpl. discriminate.
  - simpl in Hall. apply Forall_app in Hall. destruct Hall as [H1 H2].
    simpl. unfold bind at 1. unfold request. simpl.
    fold (add_calls s [GetPulls org repo p 100]).
    unfold bind at 1. unfold process_page, bind at 1.
    pose proof (convert_all_ends _ _ _ _ _ H1
                  (add_calls s [GetPulls org repo p 100]) Ht) as Hc.
    destruct (convert_all w inner org repo pg _) as [[prs| |] s1] eqn:E;
      simpl in Hc; [|discriminate|congruence].
    apply convert_all_frame in E. destruct E as (cs & -> & _).
    pose proof (scan_pairs_no_diverge w h (all_pairs prs) m
                  (add_calls (add_calls s [GetPulls org repo p 100]) cs)) as Hs.
    rewrite scan_pull_requests_pairs.
    destruct (scan_pairs w h (all_pairs prs) m _) as [[m1| |] s2] eqn:E2;
      simpl in Hs; [|discriminate|congruence].
    rewrite <- scan_pull_requests_pairs in E2.
    apply scan_pull_requests_frame in E2. destruct E2 as [Et _].
    apply (IH H2). rewrite Et. exact Ht.
Qed.

Lemma timeline_ends_within_mono n n' w org repo d :
  (n <= n')%nat ->
  timeline_ends_within n w org repo d -> timeline_ends_within n' w org repo d.
Proof. intros Hle (tp & Hlen & Hp). exists tp. split; [lia|exact Hp]. Qed.

Lemma timelines_end_bound w org repo ds :
  (forall d, In d ds ->
     exists tp, paginated (w_timeline w org repo (pd_number d)) tp) ->
  exists n, Forall (timeline_ends_within n w org repo) ds.
Proof.
  induction ds as [|d ds IH]; intros H.
  - exists 0%nat. constructor.
  - destruct (H d (or_introl eq_refl)) as (tp & Hp).
    destruct (IH (fun d' Hd' => H d' (or_intror Hd'))) as (n & Hn).
    exists (Nat.max n (S (List.length tp))). constructor.
    + exists tp. split; [lia|exact Hp].
    + eapply Forall_impl; [|exact Hn].
      intros a Ha. eapply timeline_ends_within_mono; [|exact Ha]. lia.
Qed.

(** C2 (as amended). An assignee listed on a pull request without a
    matching "assigned" timeline event keeps no assignment timestamp; the
    filter does not skip such an assignee, so
    [get_prs_assigned_to_reviewers] produces no overdue map at all (and the
    assignee is a key of none): when all timelines are finite the run
    raises. *)
Theorem unmatched_assignee_fails_the_run w org repo h s pages d a tpages :
  st_token s <> None ->
  paginated (w_pulls w org repo) pages ->
  In d (List.concat pages) ->
  In a (pd_assignees d) ->
  ad_created_at a = None ->
  paginated (w_timeline w org repo (pd_number d)) tpages ->
  Forall (fun ev => event_login_is (ad_login a) ev = false)
         (List.concat tpages) ->
  (forall fuel s1 q s2,
     get_pull_request_object_from_dict w fuel org repo d s1 = (Ret q, s2) ->
     In (mk_Assignee (ad_login a) None) (assignees q)) /\
  (forall fuel m s',
     get_prs_assigned_to_reviewers w fuel org repo h s <> (Ret m, s')) /\
  ((forall d', In d' (List.concat pages) ->
      exists tp, paginated (w_timeline w org repo (pd_number d')) tp) ->
   exists fuel0, forall fuel, (fuel0 <= fuel)%nat ->
   exists e s',
     get_prs_assigned_to_reviewers w fuel org repo h s = (Raise e, s')).
Proof.
  intros Ht Hp Hd Ha Hnone Htp Hno.
  assert (Hkeep : forall fuel s1 q s2,
     get_pull_request_object_from_dict w fuel org repo d s1 = (Ret q, s2) ->
     In (mk_Assignee (ad_login a) None) (assignees q)).
  { intros fuel s1 q s2 Hrun.
    exact (unmatched_assignee_keeps_no_timestamp _ _ _ _ _ _ _ _ _ _
             Htp Ha Hnone Hno Hrun). }
  assert (Hnever : forall fuel m s',
     get_prs_assigned_to_reviewers w fuel org repo h s <> (Ret m, s')).
  { intros fuel m s' Hrun.
    assert (Hle : (fuel <= fuel + S (List.length pages))%nat) by lia.
    pose proof (get_prs_assigned_to_reviewers_mono _ _ _ _ _ _ _ _ _ Hrun
                  ltac:(discriminate) Hle) as Hrun'.
    unfold get_prs_assigned_to_reviewers, check_token in Hrun'.
    destruct (st_token s); [|congruence].
    rewrite (pulls_loop_paginated w org repo h _ pages) in Hrun'
      by (try exact Hp; lia).
    destruct (fetch_pages_ret _ _ _ _ _ _ _ _ _ _ _ Hrun' d Hd)
      as (q & s1 & s2 & Hq & Hts).
    apply Hkeep in Hq. rewrite Forall_forall in Hts.
    apply (Hts _ Hq). reflexivity. }
  split; [exact Hkeep|]. split; [exact Hnever|].
  intros Hfin. destruct (timelines_end_bound _ _ _ _ Hfin) as (n & Hn).
  exists (Nat.max n (S (List.length pages))). intros fuel Hfuel.
  assert (Hn' : Forall (timeline_ends_within fuel w org repo) (List.concat pages)).
  { eapply Forall_impl; [|exact Hn].
    intros x Hx. eapply timeline_ends_within_mono; [|exact Hx]. lia. }
  pose proof (fetch_pages_ends w org repo h fuel pages Hn' 1%nat [] s Ht) as Hend.
  specialize (Hnever fuel).
  unfold get_prs_assigned_to_reviewers, check_token in *.
  destruct (st_token s); [|congruence].
  rewrite (pulls_loop_paginated w org repo h _ pages) in *
    by (try exact Hp; lia).
  destruct (fetch_pages w org repo h fuel 1 pages [] s) as [[m| |] s'];
    simpl in Hend.
  - exfalso. exact (Hnever m s' eq_refl).
  - eauto.
  - congruence.
Qed.

(** Pull request 789 lists reviewerName1 and reviewerName3; only the
    former has an "assigned" event. *)
Lemma unmatched_assignee_fails_the_run_witness :
  exists fuel0, forall fuel, (fuel0 <= fuel)%nat ->
  exists e s',
    get_prs_assigned_to_reviewers ex_world_unmatched fuel "orgName" "repo"
      (Some 20) ex_state = (Raise e, s').
Proof.
  refine (proj2 (proj2 (unmatched_assignee_fails_the_run ex_world_unmatched
            "orgName" "repo" (Some 20) ex_state [[ex_pr789]] ex_pr789
            (mk_assignee_dict "reviewerName3" None)
            [[ex_created; ex_assigned "reviewerName1" "2023-07-30T12:24:38Z"]]
            _ _ _ _ _ _ _)) _).
  - discriminate.
  - simpl. repeat split; discriminate.
  - simpl. auto.
  - simpl. auto.
  - reflexivity.
  - simpl. repeat split; discriminate.
  - repeat constructor.
  - intros d' [<-|[]].
    exists [[ex_created; ex_assigned "reviewerName1" "2023-07-30T12:24:38Z"]].
    simpl. repeat split; discriminate.
Defined.

(** C2 fails as stated: with reviewerName3 listed on pull request 789 and
    never matched by an "assigned" event, the run does not skip that
    assignee and return a map; it raises [TypeError]. *)
Lemma unmatched_assignee_not_skipped :
  get_prs_assigned_to_reviewers ex_world_unmatched 3 "orgName" "repo"
    (Some 20) ex_state =
  (Raise TypeError,
   mk_State (Some "my_github_token"%string)
     [GetPulls "orgName" "repo" 1 100;
      GetTimeline "orgName" "repo" 789 1 100;
      GetTimeline "orgName" "repo" 789 2 100] 2) /\
  ~ exists m s',
      get_prs_assigned_to_reviewers ex_world_unmatched 3 "orgName" "repo"
        (Some 20) ex_state = (Ret m, s').
Proof.
  assert (H : get_prs_assigned_to_reviewers ex_world_unmatched 3
                "orgName" "repo" (Some 20) ex_state =
              (Raise TypeError,
               mk_State (Some "my_github_token"%string)
                 [GetPulls "orgName" "repo" 1 100;
                  GetTimeline "orgName" "repo" 789 1 100;
                  GetTimeline "orgName" "repo" 789 2 100] 2))
    by (vm_compute; reflexivity).
  split; [exact H|]. intros (m & s' & Hm). rewrite H in Hm. discriminate.
Qed.

(** ** Category resolution *)

Lemma find_category_id_none cats name :
  (forall c, In c cats -> cat_name c <> name) ->
  find_category_id cats (Some name) = None.
Proof.
  induction cats as [|c cats IH]; intros H; simpl; [reflexivity|].
  destruct (String.eqb_spec (cat_name c) name) as [E|E].
  - exfalso. exact (H c (or_introl eq_refl) E).
  - apply IH. intros c' Hc'. apply H. now right.
Qed.

Lemma find_category_id_first before c after name :
  cat_name c = name ->
  (forall c', In c' before -> cat_name c' <> name) ->
  find_category_id (before ++ c :: after) (Some name) = Some (cat_id c).
Proof.
  intros Hc. induction before as [|b before IH]; intros H; simpl.
  - rewrite Hc, String.eqb_refl. reflexivity.
  - destruct (String.eqb_spec (cat_name b) name) as [E|E].
    + exfalso. exact (H b (or_introl eq_refl) E).
    + apply IH. intros c' Hc'. apply H. now right.
Qed.

(** C9. With the category list of the repository at hand, a configured
    category name that no listed category bears makes [_get_category_id]
    raise, right after the category query and before any other request,
    the fatal error whose message starts with that name; the deletion and
    creation entry points stop at the same point.  When some category
    bears the name, the id returned is that of the first such category in
    list order. *)
Theorem category_resolution w org repo name cats s :
  st_token s <> None ->
  w_categories w org repo = Some cats ->
  ((forall c, In c cats -> cat_name c <> name) ->
   _get_category_id w org repo (Some name) s =
     (Raise (category_missing name),
      add_calls s [PostCategoryQuery org repo]) /\
   delete_discussions w org repo (Some name) s =
     (Raise (category_missing name),
      add_calls s [PostCategoryQuery org repo]) /\
   forall t b, create_discussion w org repo (Some name) t b s =
     (Raise (category_missing name),
      add_calls s [PostCategoryQuery org repo])) /\
  (forall before c after,
     cats = before ++ c :: after ->
     cat_name c = name ->
     (forall c', In c' before -> cat_name c' <> name) ->
     _get_category_id w org repo (Some name) s =
     (Ret (cat_id c), add_calls s [PostCategoryQuery org repo])).
Proof.
  intros Ht Hcats. split.
  - intros Hno.
    assert (H : _get_category_id w org repo (Some name) s =
      (Raise (category_missing name),
       add_calls s [PostCategoryQuery org repo])).
    { unfold _get_category_id, check_token.
      destruct (st_token s); [|congruence].
      unfold bind, request. simpl. rewrite Hcats.
      rewrite (find_category_id_none _ _ Hno). reflexivity. }
    split; [exact H|]. split.
    + unfold delete_discussions, _get_discussion_ids, check_token.
      destruct (st_token s) eqn:Et; [|congruence].
      unfold bind at 1. rewrite Et. unfold bind at 1. rewrite H. reflexivity.
    + intros t b. unfold create_discussion, check_token.
      destruct (st_token s) eqn:Et; [|congruence].
      unfold bind at 1. rewrite H. reflexivity.
  - intros before c after -> Hc Hfirst.
    unfold _get_category_id, check_token.
    destruct (st_token s); [|congruence].
    unfold bind, request. simpl. rewrite Hcats.
    rewrite (find_category_id_first _ _ _ _ Hc Hfirst). reflexivity.
Qed.

(** Two categories bear the name test_category_name_1: the id of the first
    one is returned. *)
Lemma category_resolution_witness :
  _get_category_id (ex_world [] None) "orgName" "repo"
    (Some "test_category_name_1"%string) ex_state =
  (Ret "test_category_id_1"%string,
   add_calls ex_state [PostCategoryQuery "orgName" "repo"]).
Proof.
  refine (proj2 (category_resolution (ex_world [] None) "orgName" "repo"
            "test_category_name_1" ex_categories ex_state _ _)
            [] (mk_category "test_category_id_1" "test_category_name_1")
            _ _ _ _).
  - discriminate.
  - reflexivity.
  - reflexivity.
  - reflexivity.
  - intros c' [].
Defined.

(** ** Required arguments *)

(** C7 fails on the code.  The loop over [required_args] tests the two
    option names, which are strings and never [None], so it raises for no
    command line.  With [--category] and [--max-wait-hours] both absent the
    service is initialized, five requests are sent, and the run ends in the
    [TypeError] of [timedelta(hours=None)]; on a repository without open
    pull requests it goes on to the category query and fails there. *)
Theorem missing_required_argument_not_reported :
  (forall s, check_required required_args s = (Ret tt, s)) /\
  main (ex_world [[ex_pr123; ex_pr234]] (Some ex_template)) 3
       ex_args_missing ex_initial =
  (Raise TypeError,
   mk_State (Some "githubTokenForApiRequest"%string)
     [GetPulls "oppia" "oppia" 1 100;
      GetTimeline "oppia" "oppia" 123 1 100;
      GetTimeline "oppia" "oppia" 123 2 100;
      GetTimeline "oppia" "oppia" 234 1 100;
      GetTimeline "oppia" "oppia" 234 2 100] 1) /\
  main (ex_world [] (Some ex_template)) 3 ex_args_missing ex_initial =
  (Raise (BaseException "None category is missing in GitHub Discussion."),
   mk_State (Some "githubTokenForApiRequest"%string)
     [GetPulls "oppia" "oppia" 1 100;
      PostCategoryQuery "SD-13" "test-pending-review-notifier"] 0).
Proof.
  split; [intros s; reflexivity|]. split; vm_compute; reflexivity.
Qed.

(** ** Which requests a computation sends *)

Section Emits.
Variable P : call -> Prop.

Lemma emits_ret {A} (Q : A -> Prop) a : Q a -> emits P Q (ret a).
Proof.
  intros Hq s r s' H. unfold ret in H. injection H as <- <-.
  exists []. rewrite app_nil_r. repeat split; auto.
  intros a' E. now injection E as <-.
Qed.

Lemma emits_raise {A} (Q : A -> Prop) e : emits P Q (raise e).
Proof.
  intros s r s' H. unfold raise in H. injection H as <- <-.
  exists []. rewrite app_nil_r. repeat split; auto. discriminate.
Qed.


Lemma emits_lift {A} (x : res A) : emits P (fun _ => True) (lift x).
Proof.
  intros s r s' H. unfold lift in H. injection H as <- <-.
  exists []. rewrite app_nil_r. repeat split; auto.
Qed.

Lemma emits_now w : emits P (fun _ => True) (now w).
Proof.
  intros s r s' H. unfold now in H. injection H as <- <-.
  exists []. simpl. rewrite app_nil_r. repeat split; auto.
Qed.

Lemma emits_request c : P c -> emits P (fun _ => True) (request c).
Proof.
  intros Hc s r s' H. unfold request in H. injection H as <- <-.
  exists [c]. simpl. repeat split; auto.
Qed.

Lemma emits_bind {A B} (Q1 : A -> Prop) (Q2 : B -> Prop) m k :
  emits P Q1 m -> (forall a, Q1 a -> emits P Q2 (k a)) ->
  emits P Q2 (bind m k).
Proof.
  intros Hm Hk s r s' H. unfold bind in H.
  destruct (m s) as [r1 s1] eqn:E.
  destruct (Hm _ _ _ E) as (cs1 & Hc1 & Hp1 & Hq1).
  destruct r1 as [a|e|].
  - destruct (Hk a (Hq1 a eq_refl) _ _ _ H) as (cs2 & Hc2 & Hp2 & Hq2).
    exists (cs1 ++ cs2). rewrite Hc2, Hc1, app_assoc.
    repeat split; auto. apply Forall_app. auto.
  - injection H as <- <-. exists cs1. repeat split; auto. discriminate.
  - injection H as <- <-. exists cs1. repeat split; auto. discriminate.
Qed.


Lemma emits_weaken {A} (Q Q' : A -> Prop) m :
  (forall a, Q a -> Q' a) -> emits P Q m -> emits P Q' m.
Proof.
  intros Hq Hm s r s' H. destruct (Hm _ _ _ H) as (cs & Hc & Hp & Hr).
  exists cs. repeat split; auto.
Qed.

End Emits.













Lemma emits_delete_each P w ids :
  Forall (fun i => P (PostDeleteDiscussion i)) ids ->
  emits P (fun _ => True) (delete_each w ids).
Proof.
  induction 1 as [|i ids Hi _ IH]; simpl; [now apply emits_ret|].
  apply emits_bind with (Q1 := fun _ => True); [|intros _ _; exact IH].
  unfold _delete_discussion.
  eapply emits_bind; [apply emits_request; exact Hi|]. intros _ _.
  destruct (w_delete_ok w i); [now apply emits_ret | apply emits_raise].
Qed.



Lemma emits_get_waiting_time P w a :
  emits P (fun _ => True) (get_waiting_time w a).
Proof.
  unfold get_waiting_time.
  eapply emits_bind; [apply emits_now|]. intros t _.
  eapply emits_bind; [apply emits_lift|]. intros e _. now apply emits_ret.
Qed.

Lemma emits_pr_list_messages P w user prs :
  emits P (fun _ => True) (pr_list_messages w user prs).
Proof.
  induction prs as [|p prs IH]; simpl; [now apply emits_ret|].
  destruct (get_assignee p user); [|exact IH].
  eapply emits_bind; [apply emits_get_waiting_time|]. intros wt _.
  eapply emits_bind; [exact IH|]. intros ls _. now apply emits_ret.
Qed.

Lemma emits_generate_message P w user prs path :
  emits P (fun _ => True) (generate_message w user prs path).
Proof.
  unfold generate_message.
  eapply emits_bind; [apply emits_pr_list_messages|]. intros ls _.
  destruct (w_file w path); [|apply emits_raise].
  eapply emits_bind; [apply emits_lift|]. intros m1 _.
  eapply emits_bind; [apply emits_lift|]. intros m2 _. now apply emits_ret.
Qed.



(** ** A missing template *)

Lemma dd_append_all_stamped m k p :
  all_stamped m -> Forall has_timestamp (assignees p) ->
  all_stamped (dd_append m k p).
Proof.
  unfold all_stamped. intros Hm Hp.
  induction Hm as [|[k' l] m Hkv Hm' IH]; simpl.
  - repeat constructor. exact Hp.
  - destruct (String.eqb k' k).
    + constructor; [|exact Hm']. simpl in *. apply Forall_app. auto.
    + constructor; [exact Hkv | exact IH].
Qed.

Lemma review_step_all_stamped w h p a m s m' s' :
  all_stamped m -> Forall has_timestamp (assignees p) ->
  review_step w h p a m s = (Ret m', s') -> all_stamped m'.
Proof.
  intros Hm Hp. unfold review_step, bind, now, lift, ret. simpl.
  destruct (pending_review_time _ a) as [pend| |]; try discriminate.
  destruct (negb _); [|intros H; now injection H as <- _].
  destruct (timedelta_hours h) as [thr| |]; try discriminate.
  destruct (pend >=? thr); intros H; injection H as <- _;
    [now apply dd_append_all_stamped | exact Hm].
Qed.

Lemma scan_pairs_all_stamped w h pairs :
  Forall (fun pa => Forall has_timestamp (assignees (fst pa))) pairs ->
  forall m s m' s',
    all_stamped m ->
    scan_pairs w h pairs m s = (Ret m', s') -> all_stamped m'.
Proof.
  induction 1 as [|[p a] pairs Hp _ IH]; intros m s m' s' Hm H; simpl in H.
  - unfold ret in H. now injection H as <- _.
  - unfold bind in H.
    destruct (review_step w h p a m s) as [[m1| |] s1] eqn:E; try discriminate.
    eapply IH; [|exact H].
    exact (review_step_all_stamped _ _ _ _ _ _ _ _ Hm Hp E).
Qed.

Lemma all_pairs_owner prs (P : PullRequest -> Prop) :
  Forall P prs -> Forall (fun pa => P (fst pa)) (all_pairs prs).
Proof.
  induction 1 as [|p prs Hp _ IH]; [constructor|].
  unfold all_pairs. simpl. apply Forall_app. split; [|exact IH].
  apply Forall_map. apply Forall_forall. intros a _. exact Hp.
Qed.

Lemma scan_pull_requests_all_stamped w h prs m s m' s' :
  all_stamped m ->
  scan_pull_requests w h prs m s = (Ret m', s') -> all_stamped m'.
Proof.
  intros Hm H. rewrite scan_pull_requests_pairs in H.
  pose proof (all_pairs_timestamps_inv _ (scan_pairs_ret_timestamps _ _ _ _ _ _ _ H))
    as Hts.
  exact (scan_pairs_all_stamped _ _ _ (all_pairs_owner _ _ Hts) _ _ _ _ Hm H).
Qed.

Lemma pulls_loop_all_stamped w org repo h inner fuel :
  forall p m s m' s',
    all_stamped m ->
    pulls_loop w org repo h inner fuel p m s = (Ret m', s') -> all_stamped m'.
Proof.
  induction fuel as [|fuel IH]; intros p m s m' s' Hm H; simpl in H;
    [discriminate|].
  unfold bind at 1 in H. unfold request in H. simpl in H.
  destruct (w_pulls w org repo p) as [subset|]; [|discriminate].
  destruct (Nat.eqb (List.length subset) 0).
  - unfold ret in H. now injection H as <- _.
  - unfold bind at 1 in H.
    destruct (convert_all w inner org repo subset _) as [[prs| |] s1];
      try discriminate.
    unfold bind at 1 in H.
    destruct (scan_pull_requests w h prs m s1) as [[m1| |] s2] eqn:E;
      try discriminate.
    eapply IH; [|exact H].
    exact (scan_pull_requests_all_stamped _ _ _ _ _ _ _ Hm E).
Qed.

Lemma get_prs_assigned_to_reviewers_all_stamped w fuel org repo h s m s' :
  get_prs_assigned_to_reviewers w fuel org repo h s = (Ret m, s') ->
  all_stamped m.
Proof.
  unfold get_prs_assigned_to_reviewers, check_token.
  destruct (st_token s); [|discriminate].
  apply pulls_loop_all_stamped. constructor.
Qed.



Lemma _get_category_id_calls w org repo category s r s' :
  st_token s <> None ->
  _get_category_id w org repo category s = (r, s') ->
  s' = add_calls s [PostCategoryQuery org repo].
Proof.
  intros Ht. unfold _get_category_id, check_token.
  destruct (st_token s); [|congruence].
  unfold bind, request. simpl.
  destruct (w_categories w org repo) as [cats|];
    [|intros H; now injection H as _ <-].
  destruct (find_category_id cats category);
    intros H; now injection H as _ <-.
Qed.

Lemma delete_discussions_ret w org repo category s s' :
  delete_discussions w org repo category s = (Ret tt, s') ->
  exists cs,
    st_calls s' = st_calls s ++ PostCategoryQuery org repo :: cs /\
    Forall deletion_phase_call cs.
Proof.
  intros H. unfold delete_discussions, check_token in H.
  destruct (st_token s) eqn:Et; [|discriminate].
  unfold bind at 1 in H.
  destruct (_get_discussion_ids w org repo category s) as [[ids| |] s1] eqn:E1;
    try discriminate.
  unfold _get_discussion_ids, check_token in E1. rewrite Et in E1.
  unfold bind at 1 in E1.
  destruct (_get_category_id w org repo category s) as [[cid| |] sc] eqn:E0;
    try discriminate.
  apply _get_category_id_calls in E0; [|congruence]. subst sc.
  unfold bind, request in E1. simpl in E1.
  destruct (w_discussions w org repo cid) as [nodes|]; [|discriminate].
  unfold ret in E1. injection E1 as <- <-.
  assert (He : emits deletion_phase_call (fun _ => True)
                     (delete_each w (keep_ids nodes))).
  { apply emits_delete_each. apply Forall_forall. intros i _. exact I. }
  destruct (He _ _ _ H) as (cs & Hc & Hp & _). simpl in Hc.
  exists (PostDiscussionsQuery org repo cid :: cs).
  rewrite Hc, <- !app_assoc. split; [reflexivity|].
  constructor; [exact I|exact Hp].
Qed.






(** ** Placeholders *)

Section Placeholders.
Local Open Scope string_scope.

Lemma string_app_assoc (a b c : string) : (a ++ b) ++ c = a ++ (b ++ c).
Proof. induction a as [|x a IH]; simpl; [reflexivity | now rewrite IH]. Qed.



Lemma strip_prefix_app p r : strip_prefix p (p ++ r) = Some r.
Proof.
  induction p as [|a p IH]; simpl; [reflexivity|].
  now rewrite Ascii.eqb_refl.
Qed.


Lemma skip_spaces_stop n r :
  match r with String c _ => c <> SPACE | EmptyString => True end ->
  skip_spaces (spaces n ++ r) = (n, r).
Proof.
  intros Hr. induction n as [|n IH]; simpl.
  - destruct r as [|c r]; [reflexivity|]. simpl.
    destruct (Ascii.eqb_spec c SPACE); [contradiction|reflexivity].
  - now rewrite IH.
Qed.


Lemma match_token_complete name i j rest :
  starts_unspaced name ->
  match_token name (token name i j ++ rest) = Some (token name i j, rest).
Proof.
  intros Hn. unfold match_token, token.
  rewrite !string_app_assoc. rewrite strip_prefix_app.
  rewrite skip_spaces_stop.
  2:{ destruct name as [|c name]; [destruct Hn | exact Hn]. }
  rewrite strip_prefix_app. rewrite skip_spaces_stop.
  2:{ simpl. intros E. inversion E. }
  rewrite strip_prefix_app. reflexivity.
Qed.

Lemma sub_scan_skip name f pre rest :
  sub_scan name f (String.length pre) (pre ++ rest) = sub_scan name f 0 rest.
Proof.
  induction pre as [|c pre IH]; simpl; [|exact IH].
  destruct rest; reflexivity.
Qed.

(** A placeholder is replaced by the replacement text and the scan goes
    on behind it. *)
Lemma sub_scan_token name f i j rest :
  starts_unspaced name ->
  sub_scan name f 0 (token name i j ++ rest) =
  f (token name i j) ++ sub_scan name f 0 rest.
Proof.
  intros Hn.
  pose proof (match_token_complete name i j rest Hn) as Hm.
  remember (token name i j) as tok eqn:Etok.
  destruct tok as [|c tok']; [unfold token in Etok; discriminate|].
  simpl append in *. simpl sub_scan. rewrite Hm. f_equal.
  simpl String.length. simpl Nat.sub. rewrite ?Nat.sub_0_r. apply sub_scan_skip.
Qed.



End Placeholders.

(** ** The rendered message *)

Lemma pr_list_messages_rendered w user prs :
  Forall (fun p => forall a, get_assignee p user = Some a -> has_timestamp a)
         prs ->
  forall s,
    pr_list_messages w user prs s =
    (Ret (rendered_lines w user prs (st_clock s)),
     mk_State (st_token s) (st_calls s)
              (st_clock s + assigned_count user prs)).
Proof.
  unfold assigned_count.
  induction 1 as [|p prs Hp _ IH]; intros s; simpl.
  - unfold ret. rewrite Nat.add_0_r. now destruct s.
  - destruct (get_assignee p user) as [a|] eqn:E; [|apply IH].
    specialize (Hp a eq_refl). unfold has_timestamp in Hp.
    unfold bind, get_waiting_time, bind, now, lift, pending_review_time, ret.
    simpl. destruct (assigned_on_timestamp a) as [ts|]; [|congruence].
    rewrite IH. simpl. now rewrite Nat.add_succ_r.
Qed.

Lemma rendered_lines_length w user prs :
  Forall (fun p => forall a, get_assignee p user = Some a -> has_timestamp a)
         prs ->
  forall k, List.length (rendered_lines w user prs k) = assigned_count user prs.
Proof.
  unfold assigned_count.
  induction 1 as [|p prs Hp _ IH]; intros k; simpl; [reflexivity|].
  destruct (get_assignee p user) as [a|] eqn:E; [|apply IH].
  specialize (Hp a eq_refl). unfold has_timestamp in Hp.
  destruct (assigned_on_timestamp a); [|congruence].
  simpl. now rewrite IH.
Qed.





(** * Further properties *)

(** ** The token guard *)

(** X1. Without a token, or with the empty token, [main] raises the fatal
    token error at once: nothing is requested and the state, a token set
    earlier included, is unchanged. *)
Theorem main_requires_token w fuel args s :
  pa_token args = None \/ pa_token args = Some EmptyString ->
  main w fuel args s = (Raise invalid_token, s).
Proof.
  intros [H|H]; unfold main, bind; simpl; rewrite H; reflexivity.
Qed.

Lemma main_requires_token_witness :
  main (ex_world [[ex_pr123]] (Some ex_template)) 3
       (mk_parsed_args (Some EmptyString) None
          (Some "test_category_name_1"%string) None (Some 20) false)
       ex_state =
  (Raise invalid_token, ex_state).
Proof. apply main_requires_token. right. reflexivity. Defined.

(** X2. While the service is not initialized, each decorated entry point
    raises the fatal initialisation error without sending a request;
    [_delete_discussion] carries no decorator and sends its request all
    the same. *)
Theorem uninitialized_service_sends_nothing
  w fuel org repo h d category t b i s :
  st_token s = None ->
  get_prs_assigned_to_reviewers w fuel org repo h s = (Raise not_initialized, s) /\
  get_pull_request_object_from_dict w fuel org repo d s =
    (Raise not_initialized, s) /\
  _get_repository_id w org repo s = (Raise not_initialized, s) /\
  _get_category_id w org repo category s = (Raise not_initialized, s) /\
  _get_discussion_ids w org repo category s = (Raise not_initialized, s) /\
  delete_discussions w org repo category s = (Raise not_initialized, s) /\
  create_discussion w org repo category t b s = (Raise not_initialized, s) /\
  _delete_discussion w i s =
    (if w_delete_ok w i then Ret tt else Raise HTTPError,
     add_calls s [PostDeleteDiscussion i]).
Proof.
  intros H.
  unfold get_prs_assigned_to_reviewers, get_pull_request_object_from_dict,
    _get_repository_id, _get_category_id, _get_discussion_ids,
    delete_discussions, create_discussion, check_token.
  rewrite H. repeat split.
  unfold _delete_discussion, bind, request. simpl.
  destruct (w_delete_ok w i); reflexivity.
Qed.

Lemma uninitialized_service_sends_nothing_witness :
  delete_discussions (ex_world [] None) "orgName" "repo"
    (Some "test_category_name_1"%string) ex_initial =
  (Raise not_initialized, ex_initial).
Proof.
  refine (proj1 (proj2 (proj2 (proj2 (proj2 (proj2
    (uninitialized_service_sends_nothing (ex_world [] None) 0 "orgName" "repo"
       None ex_pr123 (Some "test_category_name_1"%string)
       EmptyString EmptyString EmptyString ex_initial _))))))).
  reflexivity.
Defined.

(** ** Deleting and creating discussions *)

Lemma check_token_some {A} (m : M A) s :
  st_token s <> None -> check_token m s = m s.
Proof. unfold check_token. destruct (st_token s); congruence. Qed.

Lemma _get_category_id_resolved w org repo category cats cid s :
  st_token s <> None ->
  w_categories w org repo = Some cats ->
  find_category_id cats category = Some cid ->
  _get_category_id w org repo category s =
  (Ret cid, add_calls s [PostCategoryQuery org repo]).
Proof.
  intros Ht Hc Hf. unfold _get_category_id. rewrite check_token_some by exact Ht.
  unfold bind, request. simpl. rewrite Hc, Hf. reflexivity.
Qed.

Lemma _get_discussion_ids_listed w org repo category cats cid nodes s :
  st_token s <> None ->
  w_categories w org repo = Some cats ->
  find_category_id cats category = Some cid ->
  w_discussions w org repo cid = Some nodes ->
  _get_discussion_ids w org repo category s =
  (Ret (keep_ids nodes),
   add_calls s [PostCategoryQuery org repo;
                PostDiscussionsQuery org repo cid]).
Proof.
  intros Ht Hc Hf Hd. unfold _get_discussion_ids.
  rewrite check_token_some by exact Ht. unfold bind at 1.
  rewrite (_get_category_id_resolved _ _ _ _ _ _ _ Ht Hc Hf).
  unfold bind, request. simpl. rewrite Hd. unfold ret, add_calls. simpl.
  now rewrite <- app_assoc.
Qed.

Lemma delete_each_all_ok w ids :
  Forall (fun i => w_delete_ok w i = true) ids ->
  forall s, delete_each w ids s =
            (Ret tt, add_calls s (map PostDeleteDiscussion ids)).
Proof.
  induction 1 as [|i ids Hi _ IH]; intros s; simpl.
  - unfold ret. now rewrite add_calls_nil.
  - unfold bind, _delete_discussion, bind, request. simpl. rewrite Hi.
    unfold ret. rewrite IH. unfold add_calls. simpl.
    now rewrite <- app_assoc.
Qed.

Lemma delete_each_first_failure w before i after :
  Forall (fun j => w_delete_ok w j = true) before ->
  w_delete_ok w i = false ->
  forall s, delete_each w (before ++ i :: after) s =
            (Raise HTTPError,
             add_calls s (map PostDeleteDiscussion (before ++ [i]))).
Proof.
  intros Hb Hi. induction Hb as [|j before Hj _ IH]; intros s; simpl.
  - unfold bind, _delete_discussion, bind, request. simpl. rewrite Hi.
    reflexivity.
  - unfold bind at 1. unfold _delete_discussion, bind, request. simpl.
    rewrite Hj. unfold ret. rewrite IH. unfold add_calls. simpl.
    now rewrite <- app_assoc.
Qed.

Lemma keep_ids_In_iff nodes i : In i (keep_ids nodes) <-> In (Some i) nodes.
Proof.
  induction nodes as [|[j|] nodes IH]; simpl.
  - reflexivity.
  - rewrite IH. split; intros [H|H]; auto; left; congruence.
  - rewrite IH. split; [auto|]. intros [H|H]; [discriminate|exact H].
Qed.

(** X3. Once the category resolves and the discussions are listed,
    [delete_discussions] deletes every listed discussion that has an id,
    each once and in list order, after the two queries; with no such
    discussion it sends no deletion; and the first deletion that fails
    ends the run with the later discussions left untouched. *)
Theorem delete_discussions_deletes_each_listed
  w org repo category cats cid nodes s :
  st_token s <> None ->
  w_categories w org repo = Some cats ->
  find_category_id cats category = Some cid ->
  w_discussions w org repo cid = Some nodes ->
  (forall i, In i (keep_ids nodes) <-> In (Some i) nodes) /\
  (Forall (fun i => w_delete_ok w i = true) (keep_ids nodes) ->
   delete_discussions w org repo category s =
   (Ret tt,
    add_calls s ([PostCategoryQuery org repo;
                  PostDiscussionsQuery org repo cid] ++
                 map PostDeleteDiscussion (keep_ids nodes)))) /\
  (forall before i after,
     keep_ids nodes = before ++ i :: after ->
     Forall (fun j => w_delete_ok w j = true) before ->
     w_delete_ok w i = false ->
     delete_discussions w org repo category s =
     (Raise HTTPError,
      add_calls s ([PostCategoryQuery org repo;
                    PostDiscussionsQuery org repo cid] ++
                   map PostDeleteDiscussion (before ++ [i])))).
Proof.
  intros Ht Hc Hf Hd. split; [apply keep_ids_In_iff|].
  assert (Hrun : delete_discussions w org repo category s =
                 delete_each w (keep_ids nodes)
                   (add_calls s [PostCategoryQuery org repo;
                                 PostDiscussionsQuery org repo cid])).
  { unfold delete_discussions. rewrite check_token_some by exact Ht.
    unfold bind.
    now rewrite (_get_discussion_ids_listed _ _ _ _ _ _ _ _ Ht Hc Hf Hd). }
  split.
  - intros Hok. rewrite Hrun, (delete_each_all_ok _ _ Hok).
    now rewrite add_calls_app.
  - intros before i after Hsplit Hb Hi.
    rewrite Hrun, Hsplit, (delete_each_first_failure _ _ _ _ Hb Hi).
    now rewrite add_calls_app.
Qed.

(** Four listed discussions, one without id; deleting the third one
    fails, so the fourth is never asked for. *)
Lemma delete_discussions_deletes_each_listed_witness :
  delete_discussions ex_world_failing "orgName" "repo"
    (Some "test_category_name_1"%string) ex_state =
  (Raise HTTPError,
   add_calls ex_state
     [PostCategoryQuery "orgName" "repo";
      PostDiscussionsQuery "orgName" "repo" "test_category_id_1";
      PostDeleteDiscussion "test_discussion_id_1";
      PostDeleteDiscussion "test_discussion_id_2"]).
Proof.
  refine (proj2 (proj2 (delete_discussions_deletes_each_listed
            ex_world_failing "orgName" "repo"
            (Some "test_category_name_1"%string) ex_categories
            "test_category_id_1"
            [Some "test_discussion_id_1"%string; None;
             Some "test_discussion_id_2"%string;
             Some "test_discussion_id_3"%string]
            ex_state _ _ _ _))
            ["test_discussion_id_1"%string] "test_discussion_id_2"%string
            ["test_discussion_id_3"%string] _ _ _).
  - discriminate.
  - reflexivity.
  - reflexivity.
  - reflexivity.
  - reflexivity.
  - repeat constructor.
  - reflexivity.
Defined.

(** X4. [create_discussion] resolves the category first and the
    repository second and sends the creation request, carrying both ids,
    only when both resolved: a [null] repository ends in a [TypeError]
    (not in the "doesn't exist" error, which a [null] id raises), in both
    cases after the two queries and without a creation request. *)
Theorem create_discussion_resolves_then_creates
  w org repo category cats cid t b s :
  st_token s <> None ->
  w_categories w org repo = Some cats ->
  find_category_id cats category = Some cid ->
  (forall rid,
     w_repository_id w org repo = Some (Some rid) ->
     create_discussion w org repo category t b s =
     (if w_create_ok w rid cid t b then Ret tt else Raise HTTPError,
      add_calls s [PostCategoryQuery org repo;
                   PostRepositoryQuery org repo;
                   PostCreateDiscussion rid cid t b])) /\
  (w_repository_id w org repo = None ->
   create_discussion w org repo category t b s =
   (Raise TypeError,
    add_calls s [PostCategoryQuery org repo; PostRepositoryQuery org repo])) /\
  (w_repository_id w org repo = Some None ->
   create_discussion w org repo category t b s =
   (Raise (repository_missing org repo),
    add_calls s [PostCategoryQuery org repo; PostRepositoryQuery org repo])).
Proof.
  intros Ht Hc Hf.
  assert (Hrun : forall r,
    w_repository_id w org repo = r ->
    create_discussion w org repo category t b s =
    match r with
    | None => (Raise TypeError,
               add_calls s [PostCategoryQuery org repo;
                            PostRepositoryQuery org repo])
    | Some None => (Raise (repository_missing org repo),
               add_calls s [PostCategoryQuery org repo;
                            PostRepositoryQuery org repo])
    | Some (Some rid) =>
        (if w_create_ok w rid cid t b then Ret tt else Raise HTTPError,
         add_calls s [PostCategoryQuery org repo;
                      PostRepositoryQuery org repo;
                      PostCreateDiscussion rid cid t b])
    end).
  { intros r <-. unfold create_discussion.
    rewrite check_token_some by exact Ht. unfold bind at 1.
    rewrite (_get_category_id_resolved _ _ _ _ _ _ _ Ht Hc Hf).
    unfold bind at 1. unfold _get_repository_id.
    rewrite check_token_some by exact Ht.
    unfold bind, request, add_calls. simpl.
    destruct (w_repository_id w org repo) as [[rid|]|];
      unfold ret, raise; simpl; rewrite <- !app_assoc; simpl;
      [|reflexivity|reflexivity].
    destruct (w_create_ok w rid cid t b); reflexivity. }
  repeat split.
  - intros rid Hr. exact (Hrun _ Hr).
  - intros Hr. exact (Hrun _ Hr).
  - intros Hr. exact (Hrun _ Hr).
Qed.

Lemma create_discussion_resolves_then_creates_witness :
  create_discussion (ex_world [] None) "orgName" "repo"
    (Some "test_category_name_2"%string) "Pending Reviews: @User-1" "body"
    ex_state =
  (Ret tt,
   add_calls ex_state
     [PostCategoryQuery "orgName" "repo";
      PostRepositoryQuery "orgName" "repo";
      PostCreateDiscussion "test_repository_id" "test_category_id_2"
        "Pending Reviews: @User-1" "body"]).
Proof.
  refine (proj1 (create_discussion_resolves_then_creates (ex_world [] None)
            "orgName" "repo" (Some "test_category_name_2"%string)
            ex_categories "test_category_id_2"
            "Pending Reviews: @User-1" "body" ex_state _ _ _)
            "test_repository_id"%string _).
  - discriminate.
  - reflexivity.
  - reflexivity.
  - reflexivity.
Defined.

(** ** The overdue map as a container *)

Lemma keys_dd_append m k p :
  keys (dd_append m k p) =
  keys m ++ (if existsb (fun k' => String.eqb k' k) (keys m) then [] else [k]).
Proof.
  unfold keys. induction m as [|[k' l] m IH]; simpl; [reflexivity|].
  destruct (String.eqb k' k) eqn:E; simpl.
  - now rewrite app_nil_r.
  - now rewrite IH.
Qed.

Lemma dd_get_dd_append m k p k' :
  dd_get (dd_append m k p) k' =
  if String.eqb k k' then dd_get m k' ++ [p] else dd_get m k'.
Proof.
  induction m as [|[k0 l] m IH]; simpl.
  - destruct (String.eqb k k'); reflexivity.
  - destruct (String.eqb_spec k0 k) as [->|Hk]; simpl.
    + destruct (String.eqb k k'); reflexivity.
    + destruct (String.eqb_spec k0 k') as [->|Hk'].
      * destruct (String.eqb_spec k k'); [congruence|reflexivity].
      * exact IH.
Qed.

Lemma existsb_key_In k ks :
  existsb (fun k' => String.eqb k' k) ks = true <-> In k ks.
Proof.
  rewrite existsb_exists. split.
  - intros (x & Hx & E). apply String.eqb_eq in E. now subst.
  - intros H. exists k. split; [exact H | apply String.eqb_refl].
Qed.

Lemma dd_append_well_keyed m k p :
  well_keyed m -> well_keyed (dd_append m k p).
Proof.
  intros [Hnd Hne]. split.
  - rewrite keys_dd_append.
    destruct (existsb (fun k' => String.eqb k' k) (keys m)) eqn:E.
    + now rewrite app_nil_r.
    + apply NoDup_app; [exact Hnd | repeat constructor; intros [] |].
      intros x Hx [<-|[]].
      apply existsb_key_In in Hx. congruence.
  - clear Hnd. induction Hne as [|[k' l] m Hkv Hm IH]; simpl.
    + repeat constructor. discriminate.
    + destruct (String.eqb k' k); constructor; auto.
      simpl. destruct l; discriminate.
Qed.

(** X5. Appending to the overdue map is an append to the list under the
    key: a lookup under that key afterwards gives the former list followed
    by the new pull request, a lookup under another key is unchanged; a
    new key goes to the end of the key order and a known key keeps its
    place. *)
Theorem dd_append_lookup m k p :
  (forall k',
     dd_get (dd_append m k p) k' =
     if String.eqb k k' then dd_get m k' ++ [p] else dd_get m k') /\
  (In k (keys m) -> keys (dd_append m k p) = keys m) /\
  (~ In k (keys m) -> keys (dd_append m k p) = keys m ++ [k]).
Proof.
  split; [intros k'; apply dd_get_dd_append|].
  rewrite keys_dd_append. split; intros H.
  - apply existsb_key_In in H. rewrite H. apply app_nil_r.
  - destruct (existsb (fun k' => String.eqb k' k) (keys m)) eqn:E;
      [|reflexivity].
    apply existsb_key_In in E. contradiction.
Qed.

Lemma dd_append_lookup_witness :
  keys (dd_append [("reviewerName1"%string, [ex_pull_request ex_pr123])]
                  "reviewerName2" (ex_pull_request ex_pr234)) =
  ["reviewerName1"%string; "reviewerName2"%string].
Proof.
  refine (proj2 (proj2 (dd_append_lookup
            [("reviewerName1"%string, [ex_pull_request ex_pr123])]
            "reviewerName2" (ex_pull_request ex_pr234))) _).
  simpl. intros [H|[]]. discriminate.
Defined.

(** ** What the filter keeps true of the map *)

Section MapInvariant.
Variable I : overdue_map -> Prop.
Hypothesis I_append :
  forall m p a,
    I m -> In a (assignees p) ->
    username a <> author_username p -> has_timestamp a ->
    I (dd_append m (username a) p).

Lemma review_step_invariant w h p a m s m' s' :
  I m -> In a (assignees p) ->
  review_step w h p a m s = (Ret m', s') -> I m'.
Proof.
  intros Hm Hin. unfold review_step, bind, now, lift, ret,
    pending_review_time. simpl.
  destruct (assigned_on_timestamp a) as [ts|] eqn:Ets; [|discriminate].
  destruct (String.eqb_spec (username a) (author_username p)) as [E|E];
    simpl; [intros H; now injection H as <- _|].
  destruct (timedelta_hours h) as [thr| |]; try discriminate.
  destruct (_ >=? thr); intros H; injection H as <- _; [|exact Hm].
  apply I_append; auto. unfold has_timestamp. congruence.
Qed.

Lemma scan_pairs_invariant w h pairs :
  Forall (fun pa => In (snd pa) (assignees (fst pa))) pairs ->
  forall m s m' s',
    I m -> scan_pairs w h pairs m s = (Ret m', s') -> I m'.
Proof.
  induction 1 as [|[p a] pairs Hin _ IH]; intros m s m' s' Hm H; simpl in H.
  - unfold ret in H. now injection H as <- _.
  - unfold bind in H.
    destruct (review_step w h p a m s) as [[m1| |] s1] eqn:E; try discriminate.
    eapply IH; [|exact H].
    exact (review_step_invariant _ _ _ _ _ _ _ _ Hm Hin E).
Qed.

Lemma all_pairs_members prs :
  Forall (fun pa => In (snd pa) (assignees (fst pa))) (all_pairs prs).
Proof.
  induction prs as [|p prs IH]; [constructor|].
  unfold all_pairs. simpl. apply Forall_app. split; [|exact IH].
  apply Forall_map. apply Forall_forall. auto.
Qed.

Lemma pulls_loop_invariant w org repo h inner fuel :
  forall p m s m' s',
    I m ->
    pulls_loop w org repo h inner fuel p m s = (Ret m', s') -> I m'.
Proof.
  induction fuel as [|fuel IH]; intros p m s m' s' Hm H; simpl in H;
    [discriminate|].
  unfold bind at 1 in H. unfold request in H. simpl in H.
  destruct (w_pulls w org repo p) as [subset|]; [|discriminate].
  destruct (Nat.eqb (List.length subset) 0).
  - unfold ret in H. now injection H as <- _.
  - unfold bind at 1 in H.
    destruct (convert_all w inner org repo subset _) as [[prs| |] s1];
      try discriminate.
    unfold bind at 1 in H.
    destruct (scan_pull_requests w h prs m s1) as [[m1| |] s2] eqn:E;
      try discriminate.
    eapply IH; [|exact H].
    rewrite scan_pull_requests_pairs in E.
    exact (scan_pairs_invariant _ _ _ (all_pairs_members prs) _ _ _ _ Hm E).
Qed.

Lemma get_prs_assigned_to_reviewers_invariant w fuel org repo h s m s' :
  I [] ->
  get_prs_assigned_to_reviewers w fuel org repo h s = (Ret m, s') -> I m.
Proof.
  intros H0. unfold get_prs_assigned_to_reviewers, check_token.
  destruct (st_token s); [|discriminate].
  now apply pulls_loop_invariant.
Qed.
End MapInvariant.

(** X6. Whatever the remote side answers, a map returned by
    [get_prs_assigned_to_reviewers] has pairwise distinct reviewer keys
    and no key with an empty list: [main] creates at most one discussion
    per reviewer and none for a reviewer without an overdue pull
    request. *)
Theorem returned_map_well_keyed w fuel org repo h s m s' :
  get_prs_assigned_to_reviewers w fuel org repo h s = (Ret m, s') ->
  well_keyed m.
Proof.
  apply (get_prs_assigned_to_reviewers_invariant well_keyed).
  - intros m0 p a Hm _ _ _. now apply dd_append_well_keyed.
  - split; constructor.
Qed.

Lemma listed_dd_append Q m k p :
  listed Q m -> Q k p -> listed Q (dd_append m k p).
Proof.
  unfold listed. intros Hm Hq.
  induction Hm as [|[k' l] m Hkv Hm' IH]; simpl.
  - repeat constructor. exact Hq.
  - destruct (String.eqb_spec k' k) as [->|E]; constructor; auto.
    simpl in *. apply Forall_app. auto.
Qed.

Lemma returned_map_lists_pending_reviewers_aux w fuel org repo h s m s' :
  get_prs_assigned_to_reviewers w fuel org repo h s = (Ret m, s') ->
  listed pending_for m /\ all_stamped m.
Proof.
  intros H. split.
  - revert H. apply (get_prs_assigned_to_reviewers_invariant (listed pending_for)).
    + intros m0 p a Hm Hin Hne Hts. apply listed_dd_append; [exact Hm|].
      split; [exact Hne|]. exists a. auto.
    + constructor.
  - exact (get_prs_assigned_to_reviewers_all_stamped _ _ _ _ _ _ _ _ H).
Qed.

(** X7. Whatever the remote side answers, every pull request a returned
    map lists under a reviewer has an assignee of that username carrying
    a timestamp, and the reviewer is not its author; and every assignee
    of a listed pull request carries a timestamp. *)
Theorem returned_map_lists_pending_reviewers w fuel org repo h s m s' :
  get_prs_assigned_to_reviewers w fuel org repo h s = (Ret m, s') ->
  listed pending_for m /\ all_stamped m.
Proof. apply returned_map_lists_pending_reviewers_aux. Qed.

Lemma returned_map_well_keyed_witness :
  exists m,
    fst (get_prs_assigned_to_reviewers
           (ex_world [[ex_pr123; ex_pr234]; [ex_pr345]] None) 5
           "orgName" "repo" (Some 20) ex_state) = Ret m /\
    well_keyed m.
Proof.
  destruct (get_prs_assigned_to_reviewers
              (ex_world [[ex_pr123; ex_pr234]; [ex_pr345]] None) 5
              "orgName" "repo" (Some 20) ex_state) as [r s'] eqn:E.
  assert (Hr : exists m, r = Ret m).
  { vm_compute in E. injection E as <- _. eauto. }
  destruct Hr as (m & ->). exists m. split; [reflexivity|].
  exact (returned_map_well_keyed _ _ _ _ _ _ _ _ E).
Defined.

Lemma returned_map_lists_pending_reviewers_witness :
  exists m,
    fst (get_prs_assigned_to_reviewers
           (ex_world [[ex_pr123; ex_pr234]; [ex_pr345]] None) 5
           "orgName" "repo" (Some 20) ex_state) = Ret m /\
    listed pending_for m.
Proof.
  destruct (get_prs_assigned_to_reviewers
              (ex_world [[ex_pr123; ex_pr234]; [ex_pr345]] None) 5
              "orgName" "repo" (Some 20) ex_state) as [r s'] eqn:E.
  assert (Hr : exists m, r = Ret m).
  { vm_compute in E. injection E as <- _. eauto. }
  destruct Hr as (m & ->). exists m. split; [reflexivity|].
  exact (proj1 (returned_map_lists_pending_reviewers _ _ _ _ _ _ _ _ E)).
Defined.

(** ** Order and threshold *)

Lemma dd_get_scan_result w hours u pairs :
  forall k m,
    dd_get (scan_result w hours k pairs m) u =
    dd_get m u ++ overdue_list w hours u k pairs.
Proof.
  induction pairs as [|[p a] pairs IH]; intros k m; simpl.
  - now rewrite app_nil_r.
  - rewrite IH. destruct (overdue w hours k (p, a)); simpl; [|reflexivity].
    rewrite dd_get_dd_append.
    destruct (String.eqb (username a) u); [|reflexivity].
    now rewrite <- app_assoc.
Qed.

Lemma get_prs_assigned_to_reviewers_scan w org repo hours s pages prs :
  st_token s <> None ->
  paginated (w_pulls w org repo) pages ->
  Forall2 (converts w org repo) (List.concat pages) prs ->
  Forall (fun p => Forall has_timestamp (assignees p)) prs ->
  representable_hours hours ->
  exists fuel0, forall fuel, (fuel0 <= fuel)%nat ->
  exists cs,
    get_prs_assigned_to_reviewers w fuel org repo (Some hours) s =
    (Ret (scan_result w hours (st_clock s) (all_pairs prs) []),
     mk_State (st_token s) (st_calls s ++ cs)
              (st_clock s + List.length (all_pairs prs))).
Proof.
  intros Ht Hp Hc Hts Hr.
  destruct (converts_bound _ _ _ _ _ Hc) as (n & Hn).
  exists (Nat.max n (S (List.length pages))). intros fuel Hfuel.
  assert (Hn' : Forall2 (converts_within fuel w org repo) (List.concat pages) prs).
  { eapply Forall2_impl; [|exact Hn].
    intros a b Hab. eapply converts_within_mono; [|exact Hab]. lia. }
  destruct (fetch_pages_ok w org repo hours fuel Hr pages prs Hn' Hts 1%nat [] s Ht)
    as (cs & E).
  exists cs. unfold get_prs_assigned_to_reviewers.
  rewrite check_token_some by exact Ht.
  rewrite (pulls_loop_paginated w org repo _ _ pages) by (try exact Hp; lia).
  exact E.
Qed.

(** X8. On a paginated listing whose pull requests all convert with
    stamped assignees, the list a returned map holds for a reviewer is
    exactly the overdue pull requests of that reviewer in the order the
    pairs are visited: pull requests in fetch order, assignees in listed
    order, with repetitions when a login is listed twice.  The clock is
    read once per visited pair. *)
Theorem overdue_lists_follow_fetch_order w org repo hours s pages prs :
  st_token s <> None ->
  paginated (w_pulls w org repo) pages ->
  Forall2 (converts w org repo) (List.concat pages) prs ->
  Forall (fun p => Forall has_timestamp (assignees p)) prs ->
  representable_hours hours ->
  exists fuel0, forall fuel, (fuel0 <= fuel)%nat ->
  exists m s',
    get_prs_assigned_to_reviewers w fuel org repo (Some hours) s = (Ret m, s') /\
    (forall u,
       dd_get m u = overdue_list w hours u (st_clock s) (all_pairs prs)) /\
    st_clock s' = (st_clock s + List.length (all_pairs prs))%nat.
Proof.
  intros Ht Hp Hc Hts Hr.
  destruct (get_prs_assigned_to_reviewers_scan _ _ _ _ _ _ _ Ht Hp Hc Hts Hr)
    as (fuel0 & H).
  exists fuel0. intros fuel Hf. destruct (H fuel Hf) as (cs & E).
  eexists. eexists. split; [exact E|]. split; [|reflexivity].
  intros u. now rewrite dd_get_scan_result.
Qed.

Lemma ex_pages_convert :
  Forall2 (converts (ex_world [[ex_pr123; ex_pr234]; [ex_pr345]] None)
                    "orgName" "repo")
          [ex_pr123; ex_pr234; ex_pr345]
          [ex_pull_request ex_pr123; ex_pull_request ex_pr234;
           ex_pull_request ex_pr345].
Proof.
  repeat (apply Forall2_cons;
          [exists 2%nat; eexists [_]; split; [simpl; lia|];
           split; [simpl; repeat split; discriminate | reflexivity] |]).
  apply Forall2_nil.
Defined.

Lemma ex_pages_stamped :
  Forall (fun p => Forall has_timestamp (assignees p))
         [ex_pull_request ex_pr123; ex_pull_request ex_pr234;
          ex_pull_request ex_pr345].
Proof.
  repeat (apply Forall_cons; [repeat constructor; discriminate|]).
  apply Forall_nil.
Defined.

Lemma overdue_lists_follow_fetch_order_witness :
  exists fuel0, forall fuel, (fuel0 <= fuel)%nat ->
  exists m s',
    get_prs_assigned_to_reviewers
      (ex_world [[ex_pr123; ex_pr234]; [ex_pr345]] None) fuel
      "orgName" "repo" (Some 20) ex_state = (Ret m, s') /\
    dd_get m "reviewerName1" =
      [ex_pull_request ex_pr123; ex_pull_request ex_pr234;
       ex_pull_request ex_pr345] /\
    st_clock s' = 7%nat.
Proof.
  destruct (overdue_lists_follow_fetch_order
              (ex_world [[ex_pr123; ex_pr234]; [ex_pr345]] None)
              "orgName" "repo" 20 ex_state
              [[ex_pr123; ex_pr234]; [ex_pr345]]
              [ex_pull_request ex_pr123; ex_pull_request ex_pr234;
               ex_pull_request ex_pr345]) as (fuel0 & H).
  - discriminate.
  - simpl. repeat split; discriminate.
  - exact ex_pages_convert.
  - exact ex_pages_stamped.
  - split; apply Z.leb_le; reflexivity.
  - exists fuel0. intros fuel Hf.
    destruct (H fuel Hf) as (m & s' & Hrun & Hm & Hc).
    exists m, s'. split; [exact Hrun|]. split; [|exact Hc].
    rewrite Hm. reflexivity.
Defined.

(** X9. Raising the threshold never adds an entry: on the same remote
    side and clock, every pull request listed under a reviewer for the
    larger number of hours is listed under that reviewer for the smaller
    one. *)
Theorem higher_threshold_lists_fewer w org repo hours hours' s pages prs :
  st_token s <> None ->
  paginated (w_pulls w org repo) pages ->
  Forall2 (converts w org repo) (List.concat pages) prs ->
  Forall (fun p => Forall has_timestamp (assignees p)) prs ->
  representable_hours hours ->
  representable_hours hours' ->
  hours <= hours' ->
  exists fuel0, forall fuel, (fuel0 <= fuel)%nat ->
  exists m m' s1 s2,
    get_prs_assigned_to_reviewers w fuel org repo (Some hours) s = (Ret m, s1) /\
    get_prs_assigned_to_reviewers w fuel org repo (Some hours') s = (Ret m', s2) /\
    forall u p, In p (dd_get m' u) -> In p (dd_get m u).
Proof.
  intros Ht Hp Hc Hts Hr Hr' Hle.
  destruct (get_prs_assigned_to_reviewers_scan _ _ _ _ _ _ _ Ht Hp Hc Hts Hr)
    as (f1 & H1).
  destruct (get_prs_assigned_to_reviewers_scan _ _ _ _ _ _ _ Ht Hp Hc Hts Hr')
    as (f2 & H2).
  exists (Nat.max f1 f2). intros fuel Hf.
  destruct (H1 fuel ltac:(lia)) as (cs1 & E1).
  destruct (H2 fuel ltac:(lia)) as (cs2 & E2).
  do 4 eexists. split; [exact E1|]. split; [exact E2|].
  intros u p Hin. apply scan_result_In. apply scan_result_In in Hin.
  destruct Hin as [[]|(i & a & ts & Hn & Hu & Hts' & Hau & Hge)].
  right. exists i, a, ts. repeat split; auto.
  unfold MICROSECONDS_PER_HOUR in *. lia.
Qed.

Lemma higher_threshold_lists_fewer_witness :
  exists fuel0, forall fuel, (fuel0 <= fuel)%nat ->
  exists m m' s1 s2,
    get_prs_assigned_to_reviewers
      (ex_world [[ex_pr123; ex_pr234]; [ex_pr345]] None) fuel
      "orgName" "repo" (Some 20) ex_state = (Ret m, s1) /\
    get_prs_assigned_to_reviewers
      (ex_world [[ex_pr123; ex_pr234]; [ex_pr345]] None) fuel
      "orgName" "repo" (Some 23) ex_state = (Ret m', s2) /\
    forall u p, In p (dd_get m' u) -> In p (dd_get m u).
Proof.
  apply (higher_threshold_lists_fewer
           (ex_world [[ex_pr123; ex_pr234]; [ex_pr345]] None)
           "orgName" "repo" 20 23 ex_state
           [[ex_pr123; ex_pr234]; [ex_pr345]]
           [ex_pull_request ex_pr123; ex_pull_request ex_pr234;
            ex_pull_request ex_pr345]).
  - discriminate.
  - simpl. repeat split; discriminate.
  - exact ex_pages_convert.
  - exact ex_pages_stamped.
  - split; apply Z.leb_le; reflexivity.
  - split; apply Z.leb_le; reflexivity.
  - lia.
Defined.

(** ** From the map to the message *)

Lemma get_assignee_found p u :
  (exists a, In a (assignees p) /\ username a = u) ->
  assigned_to u p = true.
Proof.
  intros (a & Hin & Hu). unfold assigned_to, get_assignee.
  destruct (find (fun a0 => String.eqb (username a0) u) (assignees p)) eqn:E;
    [reflexivity|].
  pose proof (find_none _ _ E a Hin) as H. simpl in H.
  rewrite Hu, String.eqb_refl in H. discriminate.
Qed.

Lemma assigned_count_all u prs :
  Forall (fun p => assigned_to u p = true) prs ->
  assigned_count u prs = List.length prs.
Proof.
  unfold assigned_count, assigned_to.
  induction 1 as [|p prs Hp _ IH]; simpl; [reflexivity|].
  destruct (get_assignee p u); [|discriminate]. simpl. now rewrite IH.
Qed.

(** X10. Every list of a map returned by [get_prs_assigned_to_reviewers]
    renders completely for its reviewer: the first loop of
    [generate_message] raises nothing, sends nothing and yields one line
    per listed pull request, reading the clock once for each. *)
Theorem listed_pull_requests_all_render w fuel org repo h s m s' u prs s0 :
  get_prs_assigned_to_reviewers w fuel org repo h s = (Ret m, s') ->
  In (u, prs) m ->
  pr_list_messages w u prs s0 =
    (Ret (rendered_lines w u prs (st_clock s0)),
     mk_State (st_token s0) (st_calls s0)
              (st_clock s0 + List.length prs)) /\
  List.length (rendered_lines w u prs (st_clock s0)) = List.length prs.
Proof.
  intros Hrun Hin.
  destruct (returned_map_lists_pending_reviewers_aux w fuel org repo h s m s' Hrun)
    as [Hl Hs].
  unfold listed in Hl. unfold all_stamped in Hs.
  rewrite Forall_forall in Hl, Hs.
  specialize (Hl _ Hin). specialize (Hs _ Hin). simpl in Hl, Hs.
  assert (Hts : Forall (fun p => forall a, get_assignee p u = Some a ->
                                           has_timestamp a) prs).
  { eapply Forall_impl; [|exact Hs]. intros p Hp a Ha.
    unfold get_assignee in Ha. apply find_some in Ha.
    rewrite Forall_forall in Hp. apply Hp. tauto. }
  assert (Hall : assigned_count u prs = List.length prs).
  { apply assigned_count_all. eapply Forall_impl; [|exact Hl].
    intros p [_ (a & Ha & Hu & _)]. apply get_assignee_found. eauto. }
  rewrite (pr_list_messages_rendered _ _ _ Hts).
  rewrite (rendered_lines_length _ _ _ Hts). rewrite Hall. auto.
Qed.

Lemma listed_pull_requests_all_render_witness :
  List.length
    (rendered_lines (ex_world [[ex_pr123; ex_pr234]; [ex_pr345]] None)
       "reviewerName1"
       [ex_pull_request ex_pr123; ex_pull_request ex_pr234;
        ex_pull_request ex_pr345] 0) = 3%nat.
Proof.
  eapply proj2.
  eapply (listed_pull_requests_all_render
            (ex_world [[ex_pr123; ex_pr234]; [ex_pr345]] None) 5
            "orgName" "repo" (Some 20) ex_state _ _ "reviewerName1"
            [ex_pull_request ex_pr123; ex_pull_request ex_pr234;
             ex_pull_request ex_pr345] ex_state).
  - lazy. reflexivity.
  - left. reflexivity.
Defined.

(** ** What conversion keeps *)

Lemma record_all_same_shape w evs d : same_shape d (record_all w evs d).
Proof.
  unfold same_shape, record_all. simpl. repeat split.
  rewrite map_map. reflexivity.
Qed.

Lemma same_shape_trans d1 d2 d3 :
  same_shape d1 d2 -> same_shape d2 d3 -> same_shape d1 d3.
Proof.
  unfold same_shape. intros (a1 & a2 & a3 & a4 & a5) (b1 & b2 & b3 & b4 & b5).
  repeat split; congruence.
Qed.

Lemma timeline_loop_same_shape w org repo num fuel :
  forall p d b s d' b' s',
    timeline_loop w org repo num fuel p (d, b) s = (Ret (d', b'), s') ->
    same_shape d d'.
Proof.
  induction fuel as [|fuel IH]; intros p d b s d' b' s' H; simpl in H;
    [discriminate|].
  unfold bind at 1 in H. unfold request in H. simpl in H.
  destruct (w_timeline w org repo num p) as [subset|]; [|discriminate].
  destruct (Nat.eqb (List.length subset) 0).
  - unfold ret in H. injection H as <- _ _.
    pose proof (record_all_same_shape w [] d) as Hs.
    now rewrite record_all_nil in Hs.
  - unfold bind, lift in H.
    destruct (process_events w subset (d, b)) as [[d1 b1]| |] eqn:E;
      try discriminate.
    apply process_events_ret in E. injection E as -> _.
    apply IH in H.
    exact (same_shape_trans _ _ _ (record_all_same_shape w subset d) H).
Qed.

(** X11. Whatever the timeline holds, a pull request object returned by
    [get_pull_request_object_from_dict] has the url, number, title and
    author of the dictionary it was built from, and its assignees bear
    the logins of the dictionary in the same order: correlation changes
    timestamps only. *)
Theorem conversion_keeps_identity w fuel org repo d s p s' :
  get_pull_request_object_from_dict w fuel org repo d s = (Ret p, s') ->
  url p = pd_html_url d /\
  pr_number p = pd_number d /\
  title p = pd_title d /\
  author_username p = pd_user_login d /\
  map username (assignees p) = map ad_login (pd_assignees d).
Proof.
  unfold get_pull_request_object_from_dict, check_token. intros H.
  destruct (st_token s); [|discriminate]. unfold bind in H.
  destruct (timeline_loop w org repo (pd_number d) fuel 1 (d, false) s)
    as [[[d' b']| |] s1] eqn:E; try discriminate.
  apply timeline_loop_same_shape in E.
  destruct E as (E1 & E2 & E3 & E4 & E5).
  simpl in H. destruct b'; [|discriminate]. unfold ret in H.
  injection H as <- _. simpl. rewrite map_map. simpl.
  repeat split; assumption.
Qed.

Lemma conversion_keeps_identity_witness :
  map username (assignees (ex_pull_request ex_pr456)) =
  ["reviewerName1"%string; "reviewerName2"%string].
Proof.
  refine (proj2 (proj2 (proj2 (proj2
    (conversion_keeps_identity (ex_world [] None) 3 "orgName" "repo"
       ex_pr456 ex_state (ex_pull_request ex_pr456)
       (add_calls ex_state (timeline_calls "orgName" "repo" 456 1 3)) _))))).
  vm_compute. reflexivity.
Defined.

(** ** Listings that fail or never end *)

Lemma timeline_loop_failing w org repo num pages :
  forall fuel p st s st',
    failing_after (w_timeline w org repo num) p pages ->
    (List.length pages < fuel)%nat ->
    process_events w (List.concat pages) st = Ret st' ->
    timeline_loop w org repo num fuel p st s =
    (Raise HTTPError,
     add_calls s (timeline_calls org repo num p (S (List.length pages)))).
Proof.
  induction pages as [|pg rest IH]; intros fuel p st s st' Hp Hf Hev;
    (destruct fuel as [|fuel]; [simpl in Hf; lia|]); simpl in Hp.
  - simpl. unfold bind, request. simpl. rewrite Hp. reflexivity.
  - destruct Hp as (Hne & Hpg & Hrest). simpl in Hf.
    simpl List.concat in Hev. rewrite process_events_app in Hev.
    destruct (process_events w pg st) as [st1| |] eqn:E; try discriminate.
    simpl in Hev.
    simpl timeline_loop. unfold bind at 1. unfold request. simpl.
    rewrite Hpg, (length_nonzero _ Hne). unfold bind, lift. rewrite E.
    fold (add_calls s [GetTimeline org repo num p 100]).
    rewrite (IH fuel (S p) st1 _ st' Hrest ltac:(lia) Hev).
    now rewrite add_calls_app.
Qed.

(** X12. A non-2xx answer to a timeline page ends
    [get_pull_request_object_from_dict] with [HTTPError]: after non-empty
    pages whose events were processed without an exception, the failing
    page has been requested once, nothing is requested after it, and no
    pull request object is built from the pages already read. *)
Theorem timeline_failure_aborts w org repo d pages fuel s st' :
  st_token s <> None ->
  failing_after (w_timeline w org repo (pd_number d)) 1 pages ->
  (List.length pages < fuel)%nat ->
  process_events w (List.concat pages) (d, false) = Ret st' ->
  get_pull_request_object_from_dict w fuel org repo d s =
  (Raise HTTPError,
   add_calls s (timeline_calls org repo (pd_number d) 1
                  (S (List.length pages)))).
Proof.
  intros Ht Hp Hf Hev. unfold get_pull_request_object_from_dict.
  rewrite check_token_some by exact Ht. unfold bind.
  now rewrite (timeline_loop_failing _ _ _ _ _ _ _ _ _ st' Hp Hf Hev).
Qed.

Lemma timeline_failure_aborts_witness :
  get_pull_request_object_from_dict ex_world_failing 3 "orgName" "repo"
    ex_pr123 ex_state =
  (Raise HTTPError,
   add_calls ex_state [GetTimeline "orgName" "repo" 123 1 100;
                       GetTimeline "orgName" "repo" 123 2 100]).
Proof.
  eapply (timeline_failure_aborts ex_world_failing "orgName" "repo" ex_pr123
            [ex_timeline1] 3 ex_state).
  - discriminate.
  - simpl. repeat split; discriminate.
  - simpl. lia.
  - lazy. reflexivity.
Defined.

Lemma timeline_loop_endless w org repo num fuel :
  (forall p, exists l,
      w_timeline w org repo num p = Some l /\ l <> [] /\
      Forall (fun ev => ev_event ev <> "assigned"%string) l) ->
  forall p st s,
    timeline_loop w org repo num fuel p st s =
    (Diverge, add_calls s (timeline_calls org repo num p fuel)).
Proof.
  intros Hall. induction fuel as [|fuel IH]; intros p st s; simpl.
  - unfold diverge. now rewrite add_calls_nil.
  - destruct (Hall p) as (l & Hl & Hne & Hno).
    unfold bind at 1. unfold request. simpl.
    rewrite Hl, (length_nonzero _ Hne). unfold bind, lift.
    rewrite (process_events_none_assigned _ _ _ Hno).
    fold (add_calls s [GetTimeline org repo num p 100]).
    rewrite IH. now rewrite add_calls_app.
Qed.

(** X13. The timeline loop has no bound of its own: on a remote side
    whose timeline pages are all non-empty and hold no "assigned" event,
    [get_pull_request_object_from_dict] is still fetching after any number
    of iterations, having requested one page per iteration. *)
Theorem endless_timeline_never_returns w org repo d s :
  st_token s <> None ->
  (forall p, exists l,
      w_timeline w org repo (pd_number d) p = Some l /\ l <> [] /\
      Forall (fun ev => ev_event ev <> "assigned"%string) l) ->
  forall fuel,
    get_pull_request_object_from_dict w fuel org repo d s =
    (Diverge, add_calls s (timeline_calls org repo (pd_number d) 1 fuel)).
Proof.
  intros Ht Hall fuel. unfold get_pull_request_object_from_dict.
  rewrite check_token_some by exact Ht. unfold bind.
  now rewrite (timeline_loop_endless _ _ _ _ fuel Hall).
Qed.

Lemma endless_timeline_never_returns_witness :
  get_pull_request_object_from_dict ex_world_endless 7 "orgName" "repo"
    ex_pr123 ex_state =
  (Diverge,
   add_calls ex_state (timeline_calls "orgName" "repo" 123 1 7)).
Proof.
  apply (endless_timeline_never_returns ex_world_endless "orgName" "repo"
           ex_pr123 ex_state).
  - discriminate.
  - intros p. exists [ex_created]. repeat split; try discriminate.
    repeat constructor. discriminate.
Defined.

(** ** Text around the placeholders *)

Section Templates.
Local Open Scope string_scope.

Lemma has_open_brace_app a b :
  has_open_brace (a ++ b) = has_open_brace a || has_open_brace b.
Proof.
  induction a as [|c a IH]; simpl; [reflexivity|].
  destruct (Ascii.eqb c (ascii_of_nat 123)); [reflexivity|exact IH].
Qed.

Lemma match_token_no_brace name c r :
  Ascii.eqb c (ascii_of_nat 123) = false ->
  match_token name (String c r) = None.
Proof.
  intros H.
  assert (H' : Ascii.eqb "{"%char c = false)
    by (rewrite Ascii.eqb_sym; exact H).
  unfold match_token. cbn [strip_prefix]. now rewrite H'.
Qed.

(** Text without an opening brace is copied and the scan goes on. *)
Lemma sub_scan_plain name f pre rest :
  has_open_brace pre = false ->
  sub_scan name f 0 (pre ++ rest) = pre ++ sub_scan name f 0 rest.
Proof.
  induction pre as [|c pre IH]; intros H; [reflexivity|].
  simpl in H. destruct (Ascii.eqb c (ascii_of_nat 123)) eqn:E;
    [discriminate|].
  change (String c pre ++ rest) with (String c (pre ++ rest)).
  change (sub_scan name f 0 (String c (pre ++ rest))) with
    (match match_token name (String c (pre ++ rest)) with
     | Some (tok, _) =>
         f tok ++ sub_scan name f (String.length tok - 1) (pre ++ rest)
     | None => String c (sub_scan name f 0 (pre ++ rest))
     end).
  rewrite (match_token_no_brace _ _ _ E). simpl. now rewrite IH.
Qed.

Lemma sub_scan_plain_end name f s :
  has_open_brace s = false -> sub_scan name f 0 s = s.
Proof.
  intros H. pose proof (sub_scan_plain name f s "" H) as E.
  simpl in E. replace (s ++ "") with s in E; [exact E|].
  clear. induction s as [|c s IH]; simpl; [reflexivity | now rewrite <- IH].
Qed.

Lemma has_open_brace_spaces n : has_open_brace (spaces n) = false.
Proof. induction n as [|n IH]; simpl; [reflexivity|exact IH]. Qed.

(** The username pass copies a pr_list placeholder. *)
Lemma sub_scan_username_skips_pr_list f i j rest :
  sub_scan "username" f 0 (token "pr_list" i j ++ rest) =
  token "pr_list" i j ++ sub_scan "username" f 0 rest.
Proof.
  unfold token.
  set (tail := spaces i ++ "pr_list" ++ spaces j ++ "}}").
  assert (Htail : has_open_brace tail = false).
  { unfold tail. rewrite !has_open_brace_app, !has_open_brace_spaces.
    reflexivity. }
  change ("{{" ++ tail) with (String "{" (String "{" tail)).
  change (String "{" (String "{" tail) ++ rest) with
    (String "{" (String "{" (tail ++ rest))).
  assert (H1 : match_token "username" (String "{" (String "{" (tail ++ rest)))
               = None).
  { unfold match_token. simpl strip_prefix at 1.
    unfold tail. rewrite !string_app_assoc.
    rewrite skip_spaces_stop by (simpl; discriminate).
    reflexivity. }
  assert (H2 : match_token "username" (String "{" (tail ++ rest)) = None).
  { unfold match_token, tail. destruct i; reflexivity. }
  change (sub_scan "username" f 0 (String "{" (String "{" (tail ++ rest))))
    with
    (match match_token "username" (String "{" (String "{" (tail ++ rest))) with
     | Some (tok, _) =>
         f tok ++ sub_scan "username" f (String.length tok - 1)
                           (String "{" (tail ++ rest))
     | None => String "{" (sub_scan "username" f 0 (String "{" (tail ++ rest)))
     end).
  rewrite H1.
  change (sub_scan "username" f 0 (String "{" (tail ++ rest))) with
    (match match_token "username" (String "{" (tail ++ rest)) with
     | Some (tok, _) =>
         f tok ++ sub_scan "username" f (String.length tok - 1) (tail ++ rest)
     | None => String "{" (sub_scan "username" f 0 (tail ++ rest))
     end).
  rewrite H2. rewrite (sub_scan_plain _ _ _ _ Htail). reflexivity.
Qed.

(** X14. For a template made of text without opening brace, a username
    placeholder, more such text, a pr_list placeholder and more such text,
    [generate_message] returns the first text, the username, the second
    text, the lines joined by newlines and the third text: everything
    outside the two placeholders is kept as it is.  The username holds no
    opening brace and no backslash, the joined lines no backslash. *)
Theorem standard_template_renders
  w user prs path before between after i j i' j' s :
  w_file w path =
    Some (before ++ token "username" i j ++ between ++
          token "pr_list" i' j' ++ after) ->
  has_open_brace before = false ->
  has_open_brace between = false ->
  has_open_brace after = false ->
  has_open_brace user = false ->
  has_backslash user = false ->
  Forall (fun p => forall a, get_assignee p user = Some a -> has_timestamp a)
         prs ->
  has_backslash
    (String.concat NEWLINE (rendered_lines w user prs (st_clock s))) = false ->
  generate_message w user prs path s =
  (Ret (before ++ user ++ between ++
        String.concat NEWLINE (rendered_lines w user prs (st_clock s)) ++
        after),
   mk_State (st_token s) (st_calls s)
            (st_clock s + assigned_count user prs)).
Proof.
  intros Hfile Hb Hm Ha Hu Hbs Hprs Hlines.
  unfold generate_message, bind.
  rewrite (pr_list_messages_rendered _ _ _ Hprs). rewrite Hfile.
  unfold lift, re_sub. rewrite Hbs.
  rewrite (sub_scan_plain _ _ _ _ Hb).
  rewrite sub_scan_token by (simpl; discriminate).
  rewrite (sub_scan_plain _ _ _ _ Hm).
  rewrite sub_scan_username_skips_pr_list.
  rewrite (sub_scan_plain_end _ _ _ Ha).
  rewrite Hlines.
  rewrite (sub_scan_plain _ _ before _ Hb).
  rewrite (sub_scan_plain _ _ user _ Hu).
  rewrite (sub_scan_plain _ _ between _ Hm).
  rewrite sub_scan_token by (simpl; discriminate).
  rewrite (sub_scan_plain_end _ _ _ Ha).
  reflexivity.
Qed.
End Templates.

Lemma standard_template_renders_witness :
  generate_message
    (ex_world [] (Some ("Hi @{{username}}," ++ NEWLINE ++
                        "{{  pr_list }}" ++ NEWLINE ++ "Thanks!")%string))
    "reviewerName2" [ex_pull_request ex_pr123] TEMPLATE_PATH ex_state =
  (Ret ("Hi @reviewerName2," ++ NEWLINE ++
        "- [#123](https://githuburl.pull/123) [Waiting for the last 56 hours]"
        ++ NEWLINE ++ "Thanks!")%string,
   mk_State (Some "my_github_token"%string) [] 1).
Proof.
  refine (standard_template_renders
            (ex_world [] (Some ("Hi @{{username}}," ++ NEWLINE ++
                                "{{  pr_list }}" ++ NEWLINE ++ "Thanks!")%string))
            "reviewerName2" [ex_pull_request ex_pr123] TEMPLATE_PATH
            "Hi @" ("," ++ NEWLINE)%string (NEWLINE ++ "Thanks!")%string
            0 0 2 1 ex_state _ _ _ _ _ _ _ _).
  - reflexivity.
  - reflexivity.
  - reflexivity.
  - reflexivity.
  - reflexivity.
  - reflexivity.
  - repeat constructor. intros a Ha. vm_compute in Ha.
    injection Ha as <-. discriminate.
  - reflexivity.
Defined.

Lemma pr_list_messages_filter w user prs :
  forall s,
    pr_list_messages w user prs s =
    pr_list_messages w user (filter (assigned_to user) prs) s.
Proof.
  induction prs as [|p prs IH]; intros s; [reflexivity|].
  simpl. unfold assigned_to at 1.
  destruct (get_assignee p user) as [a|] eqn:E; [|apply IH].
  simpl. rewrite E. unfold bind.
  destruct (get_waiting_time w a s) as [[wt| |] s1]; try reflexivity.
  now rewrite IH.
Qed.

(** X15. Pull requests on which the username is not an assignee have no
    part in the message: [generate_message] gives the same outcome, clock
    readings included, on the list with those pull requests removed. *)
Theorem unassigned_pull_requests_are_skipped w user prs path s :
  generate_message w user prs path s =
  generate_message w user (filter (assigned_to user) prs) path s.
Proof.
  unfold generate_message, bind. now rewrite pr_list_messages_filter.
Qed.

(** ** Who writes the token *)

Lemma keeps_ret {A} (a : A) : keeps_token (ret a).
Proof. intros s r s' H. unfold ret in H. now injection H as _ <-. Qed.

Lemma keeps_raise {A} e : keeps_token (@raise A e).
Proof. intros s r s' H. unfold raise in H. now injection H as _ <-. Qed.

Lemma keeps_diverge {A} : keeps_token (@diverge A).
Proof. intros s r s' H. unfold diverge in H. now injection H as _ <-. Qed.

Lemma keeps_lift {A} (x : res A) : keeps_token (lift x).
Proof. intros s r s' H. unfold lift in H. now injection H as _ <-. Qed.

Lemma keeps_now w : keeps_token (now w).
Proof. intros s r s' H. unfold now in H. now injection H as _ <-. Qed.

Lemma keeps_request c : keeps_token (request c).
Proof. intros s r s' H. unfold request in H. now injection H as _ <-. Qed.

Lemma keeps_bind {A B} (m : M A) (k : A -> M B) :
  keeps_token m -> (forall a, keeps_token (k a)) -> keeps_token (bind m k).
Proof.
  intros Hm Hk s r s' H. unfold bind in H.
  destruct (m s) as [[a|e|] s1] eqn:E; apply Hm in E.
  - apply Hk in H. congruence.
  - injection H as _ <-. exact E.
  - injection H as _ <-. exact E.
Qed.

Lemma keeps_check_token {A} (m : M A) :
  keeps_token m -> keeps_token (check_token m).
Proof.
  intros Hm s r s' H. unfold check_token in H.
  destruct (st_token s) eqn:E; [rewrite <- E; exact (Hm _ _ _ H)|].
  now injection H as _ <-.
Qed.

Ltac keeps :=
  repeat match goal with
  | |- keeps_token (ret _) => apply keeps_ret
  | |- keeps_token (raise _) => apply keeps_raise
  | |- keeps_token diverge => apply keeps_diverge
  | |- keeps_token (lift _) => apply keeps_lift
  | |- keeps_token (now _) => apply keeps_now
  | |- keeps_token (request _) => apply keeps_request
  | |- keeps_token (check_token _) => apply keeps_check_token
  | |- keeps_token (bind _ _) => apply keeps_bind; [|intro]
  end.

Lemma keeps_timeline_loop w org repo num fuel :
  forall p st, keeps_token (timeline_loop w org repo num fuel p st).
Proof.
  induction fuel as [|fuel IH]; intros p st; simpl; keeps.
  destruct (w_timeline w org repo num p); keeps.
  destruct (Nat.eqb _ 0); keeps. apply IH.
Qed.

Lemma keeps_get_pull_request_object_from_dict w fuel org repo d :
  keeps_token (get_pull_request_object_from_dict w fuel org repo d).
Proof.
  unfold get_pull_request_object_from_dict. keeps.
  - apply keeps_timeline_loop.
  - destruct (snd a); keeps.
Qed.

Lemma keeps_convert_all w fuel org repo ds :
  keeps_token (convert_all w fuel org repo ds).
Proof.
  induction ds as [|d ds IH]; simpl; keeps.
  - apply keeps_get_pull_request_object_from_dict.
  - exact IH.
Qed.

Lemma keeps_scan_pull_requests w h prs :
  forall m, keeps_token (scan_pull_requests w h prs m).
Proof.
  intros m s r s' H. now apply scan_pull_requests_frame in H.
Qed.

Lemma keeps_pulls_loop w org repo h inner fuel :
  forall p m, keeps_token (pulls_loop w org repo h inner fuel p m).
Proof.
  induction fuel as [|fuel IH]; intros p m; simpl; keeps.
  destruct (w_pulls w org repo p); keeps.
  destruct (Nat.eqb _ 0); keeps.
  - apply keeps_convert_all.
  - apply keeps_scan_pull_requests.
  - apply IH.
Qed.

Lemma keeps_get_prs_assigned_to_reviewers w fuel org repo h :
  keeps_token (get_prs_assigned_to_reviewers w fuel org repo h).
Proof. apply keeps_check_token, keeps_pulls_loop. Qed.

Lemma keeps__get_category_id w org repo category :
  keeps_token (_get_category_id w org repo category).
Proof.
  unfold _get_category_id. keeps.
  destruct (w_categories w org repo); keeps.
  destruct (find_category_id _ _); keeps.
Qed.

Lemma keeps__get_repository_id w org repo :
  keeps_token (_get_repository_id w org repo).
Proof.
  unfold _get_repository_id. keeps.
  destruct (w_repository_id w org repo) as [[rid|]|]; keeps.
Qed.

Lemma keeps__get_discussion_ids w org repo category :
  keeps_token (_get_discussion_ids w org repo category).
Proof.
  unfold _get_discussion_ids. keeps.
  - apply keeps__get_category_id.
  - destruct (w_discussions w org repo a); keeps.
Qed.

Lemma keeps_delete_each w ids : keeps_token (delete_each w ids).
Proof.
  induction ids as [|i ids IH]; simpl; keeps; [|exact IH].
  unfold _delete_discussion. keeps. destruct (w_delete_ok w i); keeps.
Qed.

Lemma keeps_delete_discussions w org repo category :
  keeps_token (delete_discussions w org repo category).
Proof.
  unfold delete_discussions. keeps.
  - apply keeps__get_discussion_ids.
  - apply keeps_delete_each.
Qed.

Lemma keeps_create_discussion w org repo category t b :
  keeps_token (create_discussion w org repo category t b).
Proof.
  unfold create_discussion. keeps.
  - apply keeps__get_category_id.
  - apply keeps__get_repository_id.
  - destruct (w_create_ok w a0 a t b); keeps.
Qed.

Lemma keeps_pr_list_messages w user prs :
  keeps_token (pr_list_messages w user prs).
Proof.
  induction prs as [|p prs IH]; simpl; keeps.
  destruct (get_assignee p user); [|exact IH].
  unfold get_waiting_time. keeps. exact IH.
Qed.

Lemma keeps_generate_message w user prs path :
  keeps_token (generate_message w user prs path).
Proof.
  unfold generate_message. keeps; [apply keeps_pr_list_messages|].
  destruct (w_file w path); keeps.
Qed.

Lemma keeps_notify_each w org repo category items :
  keeps_token (notify_each w org repo category items).
Proof.
  induction items as [|[reviewer prs] items IH]; simpl; keeps.
  - apply keeps_generate_message.
  - apply keeps_create_discussion.
  - exact IH.
Qed.

(** X18. [init_service] is the only writer of the token: every other
    entry point leaves it as it was whatever its outcome, and after
    [main], whatever it did, the token is the one given on the command
    line when that one is valid and the former one otherwise. *)
Theorem token_written_by_init_service_only w fuel org repo h d category t b user prs path :
  keeps_token (get_prs_assigned_to_reviewers w fuel org repo h) /\
  keeps_token (get_pull_request_object_from_dict w fuel org repo d) /\
  keeps_token (delete_discussions w org repo category) /\
  keeps_token (create_discussion w org repo category t b) /\
  keeps_token (generate_message w user prs path) /\
  forall args s,
    st_token (snd (main w fuel args s)) =
    match pa_token args with
    | Some tok => if String.eqb tok "" then st_token s else Some tok
    | None => st_token s
    end.
Proof.
  split; [apply keeps_get_prs_assigned_to_reviewers|].
  split; [apply keeps_get_pull_request_object_from_dict|].
  split; [apply keeps_delete_discussions|].
  split; [apply keeps_create_discussion|].
  split; [apply keeps_generate_message|].
  intros args s. unfold main. unfold bind at 1. simpl check_required.
  unfold ret at 1. unfold bind at 1. unfold init_service.
  destruct (pa_token args) as [tok|]; [|reflexivity].
  destruct (String.eqb tok ""); [reflexivity|].
  match goal with
  | |- st_token (snd (?f ?s1)) = _ =>
      destruct (f s1) as [r s'] eqn:E;
      assert (K : keeps_token f)
  end.
  { keeps.
    - apply keeps_get_prs_assigned_to_reviewers.
    - apply keeps_delete_discussions.
    - apply keeps_notify_each. }
  apply K in E. exact E.
Qed.

(** ** One discussion per reviewer *)

Lemma created_app a b : created (a ++ b) = created a ++ created b.
Proof. apply flat_map_app. Qed.

Lemma deleted_app a b : deleted (a ++ b) = deleted a ++ deleted b.
Proof. apply flat_map_app. Qed.

Lemma generate_message_calls w user prs path s r s' :
  generate_message w user prs path s = (r, s') ->
  st_calls s' = st_calls s /\ st_token s' = st_token s.
Proof.
  intros H.
  destruct (emits_generate_message (fun _ => False) w user prs path _ _ _ H)
    as (cs & Hc & Hp & _).
  assert (cs = []) by (destruct cs; [reflexivity|inversion Hp; contradiction]).
  subst cs. rewrite app_nil_r in Hc. split; [exact Hc|].
  exact (keeps_generate_message _ _ _ _ _ _ _ H).
Qed.

Lemma _get_repository_id_calls w org repo s r s' :
  st_token s <> None ->
  _get_repository_id w org repo s = (r, s') ->
  s' = add_calls s [PostRepositoryQuery org repo].
Proof.
  intros Ht. unfold _get_repository_id. rewrite check_token_some by exact Ht.
  unfold bind, request. simpl.
  destruct (w_repository_id w org repo) as [[rid|]|];
    intros H; now injection H as _ <-.
Qed.

Lemma create_discussion_ret w org repo category t b s s' :
  create_discussion w org repo category t b s = (Ret tt, s') ->
  st_token s' = st_token s /\
  exists rid cid,
    st_calls s' = st_calls s ++ [PostCategoryQuery org repo;
                                 PostRepositoryQuery org repo;
                                 PostCreateDiscussion rid cid t b].
Proof.
  intros H. split; [exact (keeps_create_discussion _ _ _ _ _ _ _ _ _ H)|].
  unfold create_discussion, check_token in H.
  destruct (st_token s) eqn:Et; [|discriminate].
  assert (Ht : st_token s <> None) by congruence.
  unfold bind at 1 in H.
  destruct (_get_category_id w org repo category s) as [[cid| |] sc] eqn:E0;
    try discriminate.
  apply _get_category_id_calls in E0; [|exact Ht]. subst sc.
  unfold bind at 1 in H.
  destruct (_get_repository_id w org repo _) as [[rid| |] sr] eqn:E1;
    try discriminate.
  apply _get_repository_id_calls in E1; [|exact Ht]. subst sr.
  unfold bind, request in H. simpl in H.
  destruct (w_create_ok w rid cid t b); [|discriminate].
  unfold ret in H. injection H as <-. simpl.
  exists rid, cid. now rewrite <- !app_assoc.
Qed.

Lemma notify_each_created w org repo category items :
  forall s s',
    notify_each w org repo category items s = (Ret tt, s') ->
    exists cs,
      st_calls s' = st_calls s ++ cs /\
      Forall2 (discussion_of w) items (created cs) /\
      deleted cs = [].
Proof.
  induction items as [|[reviewer prs] items IH]; intros s s' H; simpl in H.
  - unfold ret in H. injection H as <-. exists []. rewrite app_nil_r.
    repeat split. constructor.
  - unfold bind at 1 in H.
    destruct (generate_message w reviewer prs TEMPLATE_PATH s)
      as [[body| |] s1] eqn:E1; try discriminate.
    unfold bind at 1 in H.
    destruct (create_discussion w org repo category _ body s1)
      as [[[]| |] s2] eqn:E2; try discriminate.
    destruct (generate_message_calls _ _ _ _ _ _ _ E1) as [Hc1 _].
    destruct (create_discussion_ret _ _ _ _ _ _ _ _ E2)
      as (_ & rid & cid & Hc2).
    destruct (IH _ _ H) as (cs & Hc3 & Hall & Hdel).
    eexists. split; [rewrite Hc3, Hc2, Hc1, <- app_assoc; reflexivity|].
    rewrite created_app, deleted_app, Hdel. simpl. split; [|reflexivity].
    constructor; [|exact Hall].
    split; [reflexivity|]. simpl. eauto.
Qed.

(** X16. When [main] returns, all it sent after the fetch is the deletion
    step followed by the creations, and there is exactly one creation per
    entry of the fetched map, in key order: its title is
    "Pending Reviews: @" followed by the reviewer and its body a message
    generated for that reviewer's list.  No deletion follows a
    creation. *)
Theorem main_creates_one_discussion_per_reviewer
  w fuel args s0 s1 m s2 s3 :
  init_service (pa_token args) s0 = (Ret tt, s1) ->
  get_prs_assigned_to_reviewers w fuel "oppia" "oppia"
    (pa_max_wait_hours args) s1 = (Ret m, s2) ->
  main w fuel args s0 = (Ret tt, s3) ->
  exists cs_delete cs_create,
    st_calls s3 = st_calls s2 ++ cs_delete ++ cs_create /\
    Forall deletion_phase_call cs_delete /\
    Forall2 (discussion_of w) m (created cs_create) /\
    deleted cs_create = [].
Proof.
  intros Hinit Hfetch Hmain.
  unfold main in Hmain. unfold bind at 1 in Hmain. simpl check_required in Hmain.
  unfold ret at 1 in Hmain. unfold bind at 1 in Hmain. rewrite Hinit in Hmain.
  unfold bind at 1 in Hmain. rewrite Hfetch in Hmain.
  unfold bind at 1 in Hmain.
  destruct (delete_discussions w "SD-13" "test-pending-review-notifier"
              (pa_category args) s2) as [[[]| |] sd] eqn:Ed; try discriminate.
  destruct (delete_discussions_ret _ _ _ _ _ _ Ed) as (cs & Hc & Hp).
  destruct (notify_each_created _ _ _ _ _ _ _ Hmain) as (cc & Hcc & Hall & Hdel).
  exists (PostCategoryQuery "SD-13" "test-pending-review-notifier" :: cs), cc.
  split; [rewrite Hcc, Hc, <- app_assoc; reflexivity|].
  split; [constructor; [exact I|exact Hp]|]. auto.
Qed.

(** The integration test: two reviewers are overdue, and two discussions
    are created after the deletion step. *)
Lemma main_creates_one_discussion_per_reviewer_witness :
  exists s3 cs_delete cs_create,
    main (ex_world [[ex_pr123; ex_pr234]] (Some ex_template)) 3
         ex_args ex_initial = (Ret tt, s3) /\
    st_calls s3 =
      [GetPulls "oppia" "oppia" 1 100;
       GetTimeline "oppia" "oppia" 123 1 100;
       GetTimeline "oppia" "oppia" 123 2 100;
       GetTimeline "oppia" "oppia" 234 1 100;
       GetTimeline "oppia" "oppia" 234 2 100;
       GetPulls "oppia" "oppia" 2 100] ++ cs_delete ++ cs_create /\
    Forall deletion_phase_call cs_delete /\
    List.length (created cs_create) = 2%nat /\
    deleted cs_create = [].
Proof.
  pose (w := ex_world [[ex_pr123; ex_pr234]] (Some ex_template)).
  assert (Hmain : exists s3, main w 3 ex_args ex_initial = (Ret tt, s3))
    by (vm_compute; eauto).
  destruct Hmain as (s3 & Hmain).
  destruct (main_creates_one_discussion_per_reviewer w 3 ex_args ex_initial
              (mk_State (Some "githubTokenForApiRequest"%string) [] 0)
              [ ("reviewerName1"%string,
                 [ex_pull_request ex_pr123; ex_pull_request ex_pr234]);
                ("reviewerName2"%string, [ex_pull_request ex_pr123]) ]
              (mk_State (Some "githubTokenForApiRequest"%string)
                 [GetPulls "oppia" "oppia" 1 100;
                  GetTimeline "oppia" "oppia" 123 1 100;
                  GetTimeline "oppia" "oppia" 123 2 100;
                  GetTimeline "oppia" "oppia" 234 1 100;
                  GetTimeline "oppia" "oppia" 234 2 100;
                  GetPulls "oppia" "oppia" 2 100] 4)
              s3)
    as (cd & cc & Hc & Hd & Hall & Hdel).
  - reflexivity.
  - vm_compute. reflexivity.
  - exact Hmain.
  - exists s3, cd, cc. split; [exact Hmain|]. split; [exact Hc|].
    split; [exact Hd|]. split; [|exact Hdel].
    apply Forall2_length in Hall. simpl in Hall. now rewrite <- Hall.
Defined.

(** ** Arguments and repositories at the edge *)

Lemma find_category_id_None cats : find_category_id cats None = None.
Proof. induction cats as [|c cats IH]; simpl; [reflexivity|exact IH]. Qed.

Lemma init_service_ret token s s' :
  init_service token s = (Ret tt, s') ->
  st_token s' <> None /\ st_calls s' = st_calls s.
Proof.
  unfold init_service. destruct token as [t|]; [|discriminate].
  destruct (String.eqb t ""); [discriminate|].
  intros H. injection H as <-. simpl. split; [discriminate|reflexivity].
Qed.

(** X17. Without [--category], once the fetch has returned a map, [main]
    sends the category query, finds no category equal to [None] in any
    category list and raises the fatal error naming the category "None";
    no discussion is listed, deleted or created. *)
Theorem main_without_category w fuel args s0 s1 m s2 cats :
  pa_category args = None ->
  init_service (pa_token args) s0 = (Ret tt, s1) ->
  get_prs_assigned_to_reviewers w fuel "oppia" "oppia"
    (pa_max_wait_hours args) s1 = (Ret m, s2) ->
  w_categories w "SD-13" "test-pending-review-notifier" = Some cats ->
  main w fuel args s0 =
  (Raise (category_missing "None"),
   add_calls s2 [PostCategoryQuery "SD-13" "test-pending-review-notifier"]).
Proof.
  intros Hcat Hinit Hfetch Hcats.
  assert (Ht : st_token s2 <> None).
  { rewrite (keeps_get_prs_assigned_to_reviewers _ _ _ _ _ _ _ _ Hfetch).
    exact (proj1 (init_service_ret _ _ _ Hinit)). }
  unfold main. unfold bind at 1. simpl check_required. unfold ret at 1.
  unfold bind at 1. rewrite Hinit. unfold bind at 1. rewrite Hfetch.
  unfold bind at 1. rewrite Hcat.
  unfold delete_discussions, _get_discussion_ids, _get_category_id.
  rewrite !check_token_some by exact Ht.
  unfold bind at 1. rewrite !check_token_some by exact Ht.
  unfold bind at 1. rewrite !check_token_some by exact Ht.
  unfold bind, request. simpl. rewrite Hcats, find_category_id_None.
  reflexivity.
Qed.

Lemma main_without_category_witness :
  main (ex_world [] (Some ex_template)) 3 ex_args_missing ex_initial =
  (Raise (category_missing "None"),
   add_calls (mk_State (Some "githubTokenForApiRequest"%string)
                       [GetPulls "oppia" "oppia" 1 100] 0)
             [PostCategoryQuery "SD-13" "test-pending-review-notifier"]).
Proof.
  eapply (main_without_category (ex_world [] (Some ex_template)) 3
            ex_args_missing ex_initial).
  - reflexivity.
  - reflexivity.
  - lazy. reflexivity.
  - reflexivity.
Defined.

(** X19. On a repository without open pull requests (an empty first
    page) the fetch returns the empty map after one request and no clock
    reading, and [main] then runs the deletion step and creates nothing:
    its outcome and requests are those of [delete_discussions]. *)
Theorem main_without_pull_requests w fuel args s0 s1 :
  init_service (pa_token args) s0 = (Ret tt, s1) ->
  w_pulls w "oppia" "oppia" 1 = Some [] ->
  (0 < fuel)%nat ->
  get_prs_assigned_to_reviewers w fuel "oppia" "oppia"
    (pa_max_wait_hours args) s1 =
    (Ret [], add_calls s1 [GetPulls "oppia" "oppia" 1 100]) /\
  main w fuel args s0 =
    delete_discussions w "SD-13" "test-pending-review-notifier"
      (pa_category args) (add_calls s1 [GetPulls "oppia" "oppia" 1 100]).
Proof.
  intros Hinit Hp Hf.
  assert (Ht : st_token s1 <> None)
    by exact (proj1 (init_service_ret _ _ _ Hinit)).
  assert (Hfetch : get_prs_assigned_to_reviewers w fuel "oppia" "oppia"
            (pa_max_wait_hours args) s1 =
            (Ret [], add_calls s1 [GetPulls "oppia" "oppia" 1 100])).
  { unfold get_prs_assigned_to_reviewers. rewrite check_token_some by exact Ht.
    destruct fuel as [|fuel]; [lia|]. simpl. unfold bind, request. simpl.
    rewrite Hp. reflexivity. }
  split; [exact Hfetch|].
  unfold main. unfold bind at 1. simpl check_required. unfold ret at 1.
  unfold bind at 1. rewrite Hinit. unfold bind at 1. rewrite Hfetch.
  unfold bind.
  destruct (delete_discussions w "SD-13" "test-pending-review-notifier"
              (pa_category args) _) as [[[]| |] s3]; reflexivity.
Qed.

Lemma main_without_pull_requests_witness :
  main (ex_world [] (Some ex_template)) 3 ex_args ex_initial =
  (Ret tt,
   mk_State (Some "githubTokenForApiRequest"%string)
     [GetPulls "oppia" "oppia" 1 100;
      PostCategoryQuery "SD-13" "test-pending-review-notifier";
      PostDiscussionsQuery "SD-13" "test-pending-review-notifier"
                           "test_category_id_1";
      PostDeleteDiscussion "test_discussion_id_1"] 0).
Proof.
  rewrite (proj2 (main_without_pull_requests (ex_world [] (Some ex_template))
             3 ex_args ex_initial
             (mk_State (Some "githubTokenForApiRequest"%string) [] 0)
             eq_refl eq_refl ltac:(lia))).
  vm_compute. reflexivity.
Defined.

(** ** Events for other logins *)

Lemma last_assigned_event_other evs1 ev evs2 login :
  event_login_is login ev = false ->
  last_assigned_event (evs1 ++ ev :: evs2) login =
  last_assigned_event (evs1 ++ evs2) login.
Proof.
  intros H. unfold last_assigned_event.
  rewrite !rev_app_distr. simpl rev. rewrite <- app_assoc.
  rewrite !find_app_eq. simpl. now rewrite H.
Qed.

(** X20. An event that is not an "assigned" event for an assignee's login
    (an event of another kind, or an assignment of somebody else) has no
    influence on the timestamp recorded for that assignee: wherever it
    stands in the timeline, processing the timeline with and without it
    leaves the same [created_at] on that assignee. *)
Theorem foreign_event_leaves_timestamp w evs1 ev evs2 d b d1 b1 d2 b2 i a :
  process_events w (evs1 ++ ev :: evs2) (d, b) = Ret (d1, b1) ->
  process_events w (evs1 ++ evs2) (d, b) = Ret (d2, b2) ->
  nth_error (pd_assignees d) i = Some a ->
  event_login_is (ad_login a) ev = false ->
  nth_error (pd_assignees d1) i = nth_error (pd_assignees d2) i.
Proof.
  intros H1 H2 Hi Hev.
  apply process_events_ret in H1, H2.
  injection H1 as -> _. injection H2 as -> _.
  unfold record_all. simpl. rewrite !nth_error_map, Hi. simpl.
  unfold recorded. now rewrite (last_assigned_event_other _ _ _ _ Hev).
Qed.

(** On pull request 456 the assignment of reviewerName2 on the first page
    does not touch what is recorded for reviewerName1. *)
Lemma foreign_event_leaves_timestamp_witness :
  nth_error
    (pd_assignees
       (record_all (ex_world [] None) (List.concat ex_timeline4) ex_pr456)) 0 =
  Some (mk_assignee_dict "reviewerName1" (Some 1690853078000000)).
Proof.
  rewrite (foreign_event_leaves_timestamp (ex_world [] None)
             [ex_assigned "reviewerName1" "2023-07-30T12:24:38Z"; ex_created]
             (ex_assigned "reviewerName2" "2023-07-31T21:24:38Z")
             [mk_event "unassigned" (Some "reviewerName1"%string)
                       (Some "2023-07-31T22:24:38Z"%string);
              ex_assigned "reviewerName1" "2023-08-01T01:24:38Z"]
             ex_pr456 false
             (record_all (ex_world [] None) (List.concat ex_timeline4) ex_pr456)
             true
             (record_all (ex_world [] None)
                [ex_assigned "reviewerName1" "2023-07-30T12:24:38Z";
                 ex_created;
                 mk_event "unassigned" (Some "reviewerName1"%string)
                          (Some "2023-07-31T22:24:38Z"%string);
                 ex_assigned "reviewerName1" "2023-08-01T01:24:38Z"]
                ex_pr456)
             true 0 (mk_assignee_dict "reviewerName1" None)).
  - reflexivity.
  - vm_compute. reflexivity.
  - vm_compute. reflexivity.
  - reflexivity.
  - reflexivity.
Defined.
